(** * WBMatch: the listing-match pipeline of [listing-match.py]

    A shallow embedding of the module's functions ([normalize_postalcode],
    [get_geocode], [get_bounds], [ES_Query], [get_confidence],
    [get_cluster], [WB_Match]) and the properties of its specification.

    Conventions of the model.
    - Python exceptions are values of [exn]; a computation that can raise
      returns a [result]; a computation that also talks to the search
      index, the geocoder or the clock runs in the monad [M] over a
      [world] that logs these calls.
    - A [str] is a sequence of code points, kept as the [string] of its
      UTF-8 bytes; lengths and slices count code points.  The case of an
      ASCII character is computed; for the other code points the Unicode
      database of the interpreter is a collaborator.
    - A relevance score is a finite double, hence a rational: scores are
      kept in [Q], where comparisons compute.  Values derived from them
      through a square root (the z-scores) are idealised reals, completed
      with IEEE's infinities and NaN ([pyfloat]). *)

From Stdlib Require Import List String Ascii Bool Arith ZArith Lia.
From Stdlib Require Import QArith Qabs Qreals Reals Psatz.
From Stdlib Require Import DecimalString.
Import ListNotations.

Local Open Scope string_scope.

(** ** Python values *)

Module Py.

(** The exceptions the module can meet. *)
Inductive exn : Type :=
| TransportError                       (* elasticsearch.TransportError *)
| AttributeError (attr : string)
| ValueError (msg : string)
| KeyError (key : string)
| IndexError
| UnboundLocalError (var : string)
| OtherError (name : string).

Inductive result (A : Type) : Type :=
| Ok (a : A)
| Raise (e : exn).
Arguments Ok {A} a.
Arguments Raise {A} e.

Definition rbind {A B} (r : result A) (k : A -> result B) : result B :=
  match r with
  | Ok a => k a
  | Raise e => Raise e
  end.

Fixpoint rmapM {A B} (f : A -> result B) (l : list A) : result (list B) :=
  match l with
  | [] => Ok []
  | a :: l' => rbind (f a) (fun b => rbind (rmapM f l') (fun bs => Ok (b :: bs)))
  end.

(** A double, idealised: a real number, an infinity or NaN. *)
Inductive pyfloat : Type :=
| Fin (r : R)
| Inf (negative : bool)
| NaN.

(** The scalar values that reach the module: [None], [bool], [int],
    [float] and [str]. *)
Inductive pyval : Type :=
| PyNone
| PyBool (b : bool)
| PyInt (z : Z)
| PyFloat (f : pyfloat)
| PyStr (s : string).

(** *** Strings

    A [str] is kept as its UTF-8 bytes, as a string literal is read: an
    ASCII character is one byte, any other code point a leading byte
    followed by continuation bytes. *)

Definition space : ascii := " "%char.

(** [s.lstrip(' ')] *)
Fixpoint lstrip (s : string) : string :=
  match s with
  | String c s' => if Ascii.eqb c space then lstrip s' else s
  | EmptyString => s
  end.

Definition is_ascii_char (c : ascii) : bool := (nat_of_ascii c <? 128)%nat.

Fixpoint is_ascii (s : string) : bool :=
  match s with
  | String c s' => is_ascii_char c && is_ascii s'
  | EmptyString => true
  end.

(** A byte [10xxxxxx]. *)
Definition is_continuation (c : ascii) : bool :=
  let n := nat_of_ascii c in (128 <=? n)%nat && (n <=? 191)%nat.

(** The string starts with a continuation byte. *)
Definition continues (s : string) : bool :=
  match s with
  | String c _ => is_continuation c
  | EmptyString => false
  end.

(** The code points of a string, each as its bytes. *)
Fixpoint points (s : string) : list string :=
  match s with
  | EmptyString => []
  | String c s' =>
      if continues s'
      then match points s' with
           | p :: ps => String c p :: ps
           | [] => [String c EmptyString]
           end
      else String c EmptyString :: points s'
  end.

Definition glue (ps : list string) : string := fold_right append EmptyString ps.

(** [len(s)], [s[:n]] and [s[n:]]: they count code points. *)
Definition len (s : string) : nat := List.length (points s).
Definition slice_to (n : nat) (s : string) : string := glue (firstn n (points s)).
Definition slice_from (n : nat) (s : string) : string := glue (skipn n (points s)).

(** The case of an ASCII character. *)
Definition upper_char (c : ascii) : ascii :=
  let n := nat_of_ascii c in
  if (97 <=? n)%nat && (n <=? 122)%nat then ascii_of_nat (n - 32) else c.

Definition lower_char (c : ascii) : ascii :=
  let n := nat_of_ascii c in
  if (65 <=? n)%nat && (n <=? 90)%nat then ascii_of_nat (n + 32) else c.

Fixpoint smap (f : ascii -> ascii) (s : string) : string :=
  match s with
  | String c s' => String (f c) (smap f s')
  | EmptyString => EmptyString
  end.

(** The bytes of a code point below 65536. *)
Definition byte (n : N) : string := String (ascii_of_N n) EmptyString.

Definition utf8 (n : N) : string :=
  if (n <? 128)%N then byte n
  else if (n <? 2048)%N then byte (192 + n / 64) ++ byte (128 + n mod 64)
  else byte (224 + n / 4096) ++ byte (128 + (n / 64) mod 64)
       ++ byte (128 + n mod 64).

(** The white space of Unicode, which [str.isspace] and the [\s] of a
    pattern on [str] accept: the ASCII controls and the space, NEL,
    the no-break space, the Ogham space mark, the spaces U+2000 to
    U+200A, the line and paragraph separators, the narrow no-break
    space, the medium mathematical space and the ideographic space. *)
Definition unicode_space : list N :=
  [9; 10; 11; 12; 13; 28; 29; 30; 31; 32; 133; 160; 5760;
   8192; 8193; 8194; 8195; 8196; 8197; 8198; 8199; 8200; 8201; 8202;
   8232; 8233; 8239; 8287; 12288]%N.

Definition is_space_point (p : string) : bool :=
  existsb (fun n => String.eqb p (utf8 n)) unicode_space.

(** [s.index(",")]: the number of code points before the first comma,
    [ValueError] when there is none. *)
Definition str_index_comma (s : string) : result nat :=
  match String.index 0 "," s with
  | Some i => Ok (len (substring 0 i s))
  | None => Raise (ValueError "substring not found")
  end.

(** [sep.join(l)] *)
Fixpoint join (sep : string) (l : list string) : string :=
  match l with
  | [] => ""
  | [s] => s
  | s :: l' => (s ++ sep ++ join sep l')%string
  end.

End Py.
Import Py.

(** ** Arithmetic on doubles

    IEEE arithmetic without rounding: the finite values are reals, and
    the operations produce an infinity or NaN exactly where the standard
    does (the sign of a zero apart). *)

Definition Rneg (x : R) : bool := if Rlt_dec x 0 then true else false.
Definition Rzero (x : R) : bool := if Req_dec_T x 0 then true else false.

Definition fabs (a : pyfloat) : pyfloat :=
  match a with
  | Fin x => Fin (Rabs x)
  | Inf _ => Inf false
  | NaN => NaN
  end.

Definition fadd (a b : pyfloat) : pyfloat :=
  match a, b with
  | Fin x, Fin y => Fin (x + y)
  | Inf s, Inf t => if Bool.eqb s t then Inf s else NaN
  | Inf s, Fin _ => Inf s
  | Fin _, Inf t => Inf t
  | _, _ => NaN
  end.

Definition fmul (a b : pyfloat) : pyfloat :=
  match a, b with
  | Fin x, Fin y => Fin (x * y)
  | Inf s, Inf t => Inf (xorb s t)
  | Inf s, Fin y => if Rzero y then NaN else Inf (xorb s (Rneg y))
  | Fin x, Inf t => if Rzero x then NaN else Inf (xorb (Rneg x) t)
  | _, _ => NaN
  end.

(** Division as numpy performs it: [0/0] is NaN and [x/0] an infinity. *)
Definition fdiv (a b : pyfloat) : pyfloat :=
  match a, b with
  | Fin x, Fin y =>
      if Rzero y then (if Rzero x then NaN else Inf (Rneg x))
      else Fin (x / y)
  | Fin _, Inf _ => Fin 0
  | Inf s, Fin y => Inf (xorb s (Rneg y))
  | _, _ => NaN
  end.

Definition float_of_Q (q : Q) : pyfloat := Fin (Q2R q).
Definition float_of_Z (z : Z) : pyfloat := Fin (IZR z).

(** ** The world outside: search index, geocoder, clock *)

Definition point : Type := pyfloat * pyfloat.   (* (longitude, latitude) *)

(** The ["params"] of the four [search_template] calls of [ES_Query]. *)
Inductive es_params : Type :=
| ParamsPolygon (keywords : string) (polygon : list point)
| ParamsBounds (keywords : string) (lowerbounds upperbounds center : point)
| ParamsCenter (keywords : string) (center : point)
| ParamsKeywords (keywords : string).

(** One hit of the index: [_id], [_score] and the [_source] document,
    given by its flattened columns (what [json_normalize] makes of it);
    a field the document lacks is absent from the list. *)
Record hit : Type := mkHit {
  hit_id : string;
  hit_score : Q;
  hit_source : list (string * pyval)
}.

Inductive es_outcome : Type :=
| Hits (hits : list hit)
| Fails (e : exn).

(** The Elasticsearch client: what the [n]-th call (counted from 0)
    answers to a request. *)
Definition es_client : Type := nat -> es_params -> es_outcome.

(** What [locator.geocode] is asked: a text or a structured address. *)
Inductive geo_query : Type :=
| QText (s : string)
| QDict (fields : list (string * string)).

(** The geocoder's ['boundingbox'], read through [float]:
    [south, north, west, east]. *)
Definition raw_bbox : Type := pyfloat * pyfloat * pyfloat * pyfloat.

(** The collaborators.  Of the module: the Nominatim locator ([None] on
    a miss), the offline postal table of pgeocode and fuzzywuzzy's
    [partial_ratio].  Of the interpreter: the printing of a finite
    float, and the Unicode database, which gives the upper case of a
    code point that is neither ASCII nor white space (one to three code
    points) and the lower case of a string that is not ASCII. *)
Record services : Type := mkServices {
  locator_geocode : geo_query -> option raw_bbox;
  query_postal_code : string -> point;
  partial_ratio : string -> string -> Z;
  float_repr : R -> string;
  unicode_upper : string -> string;
  str_lower : string -> string
}.

Record world : Type := mkWorld {
  es_log : list es_params;        (* requests sent to the index, oldest first *)
  geo_log : list geo_query;       (* queries sent to the geocoder, oldest first *)
  slept : nat                     (* seconds spent in [time.sleep] *)
}.

Definition world0 : world := mkWorld [] [] 0.

(** The monad of the module's computations. *)
Definition M (A : Type) : Type := world -> result A * world.

Definition ret {A} (a : A) : M A := fun w => (Ok a, w).
Definition raise {A} (e : exn) : M A := fun w => (Raise e, w).
Definition bind {A B} (c : M A) (k : A -> M B) : M B :=
  fun w => match c w with
           | (Ok a, w') => k a w'
           | (Raise e, w') => (Raise e, w')
           end.
Definition lift {A} (r : result A) : M A := fun w => (r, w).

Declare Scope py_scope.
Delimit Scope py_scope with py.
Notation "x <- c ;; k" := (bind c (fun x => k))
  (at level 61, c at next level, right associativity) : py_scope.
Notation "c ;;; k" := (bind c (fun _ => k))
  (at level 61, right associativity) : py_scope.
Local Open Scope py_scope.

(** [client.search_template(...)] *)
Definition search_template (client : es_client) (p : es_params) : M (list hit) :=
  fun w =>
    let w' := mkWorld (es_log w ++ [p]) (geo_log w) (slept w) in
    match client (List.length (es_log w)) p with
    | Hits hs => (Ok hs, w')
    | Fails e => (Raise e, w')
    end.

(** [locator.geocode(searchstring, country_codes = 'ca')] *)
Definition geocode (S : services) (q : geo_query) : M (option raw_bbox) :=
  fun w => (Ok (locator_geocode S q),
            mkWorld (es_log w) (geo_log w ++ [q]) (slept w)).

(** [time.sleep(n)] *)
Definition sleep (n : nat) : M unit :=
  fun w => (Ok tt, mkWorld (es_log w) (geo_log w) (slept w + n)).

(** ** GeoNormalizer: [normalize_postalcode] *)

(** The upper case of one code point: that of an ASCII character is
    computed, white space has no case, and the Unicode database gives
    the others. *)
Definition upper_point (S : services) (p : string) : string :=
  if is_ascii p then smap upper_char p
  else if is_space_point p then p
  else unicode_upper S p.

(** [s.upper()], code point by code point. *)
Definition upper (S : services) (s : string) : string :=
  glue (map (upper_point S) (points s)).

(** [s.lower()], which looks at the neighbours of a capital sigma: the
    lower case of an ASCII string is computed, the Unicode database
    gives that of the others. *)
Definition lower (S : services) (s : string) : string :=
  if is_ascii s then smap lower_char s else str_lower S s.

(** [PC[:3] + " " + PC[3:]] when [len(PC) == 6]. *)
Definition add_missing_space (PC : string) : string :=
  if (len PC =? 6)%nat
  then slice_to 3 PC ++ " " ++ slice_from 3 PC
  else PC.

(** [normalize_postalcode(PC)].  [None] and floats (pandas' missing
    value) are sent back as [None]; a string is stripped, spaced and
    capitalised; any other value has no [lstrip]. *)
Definition normalize_postalcode (S : services) (PC : pyval) : result pyval :=
  match PC with
  | PyNone => Ok PyNone
  | PyFloat _ => Ok PyNone
  | PyStr s => Ok (PyStr (upper S (add_missing_space (lstrip s))))
  | PyBool _ => Raise (AttributeError "lstrip")
  | PyInt _ => Raise (AttributeError "lstrip")
  end.

(** ** GeoNormalizer: [get_geocode] *)

Definition in_range (lo hi : nat) (c : ascii) : bool :=
  let n := nat_of_ascii c in (lo <=? n)%nat && (n <=? hi)%nat.

Definition is_digit : ascii -> bool := in_range 48 57.
Definition is_AZ : ascii -> bool := in_range 65 90.
Definition is_AVXY (c : ascii) : bool :=
  in_range 65 86 c || Ascii.eqb c "X" || Ascii.eqb c "Y".
(** [[DFIOQU]] *)
Definition is_DFIOQU (c : ascii) : bool :=
  existsb (Ascii.eqb c) ["D"; "F"; "I"; "O"; "Q"; "U"]%char.

Definition newline : ascii := ascii_of_nat 10.

(** [s] without its prefix [p]. *)
Fixpoint drop_prefix (p s : string) : option string :=
  match p, s with
  | EmptyString, _ => Some s
  | String a p', String b s' => if Ascii.eqb a b then drop_prefix p' s' else None
  | String _ _, EmptyString => None
  end.

(** [\s]: what follows one code point of white space at the head of
    [s]. *)
Definition after_space (s : string) : option string :=
  fold_right (fun n found =>
                match drop_prefix (utf8 n) s with
                | Some rest => Some rest
                | None => found
                end) None unicode_space.

(** [(?!.*[DFIOQU])]: no excluded letter before the first newline. *)
Fixpoint lookahead_free (s : string) : bool :=
  match s with
  | EmptyString => true
  | String c s' =>
      if Ascii.eqb c newline then true
      else negb (is_DFIOQU c) && lookahead_free s'
  end.

(** [zipCode.match(s)] for
    [^(?!.*[DFIOQU])[A-VXY][0-9][A-Z]\s[0-9][A-Z][0-9]$]. *)
Definition zipCode_match (s : string) : bool :=
  lookahead_free s &&
  match s with
  | String c0 (String c1 (String c2 rest)) =>
      is_AVXY c0 && is_digit c1 && is_AZ c2 &&
      match after_space rest with
      | Some (String c4 (String c5 (String c6 rest))) =>
          is_digit c4 && is_AZ c5 && is_digit c6 &&
          match rest with
          | EmptyString => true
          | String c EmptyString => Ascii.eqb c newline
          | _ => false
          end
      | _ => false
      end
  | _ => false
  end.

(** [get_geocode(location)] *)
Definition get_geocode (S : services) (location : pyval) : result (option point) :=
  match location with
  | PyNone => Ok None
  | PyFloat _ => Ok None
  | _ =>
      rbind (normalize_postalcode S location) (fun location =>
      match location with
      | PyStr loc =>
          if zipCode_match loc then Ok (Some (query_postal_code S loc))
          else Ok None
      | _ => Raise (OtherError "TypeError")
      end)
  end.

(** ** BoundaryResolver: [get_bounds] *)

(** [[top_left, bottom_right]], each [(longitude, latitude)]. *)
Definition bbox : Type := point * point.

Definition canada : bbox :=
  ((Fin (-166.73), Fin 76.27), (Fin (-28.74), Fin 41.18)).

(** The handler of the first [AttributeError]: drop the text up to the
    first comma and ask again. *)
Definition broader_query (S : services) (searchstring : geo_query)
  : M (option raw_bbox) :=
  match searchstring with
  | QText s =>
      i <- lift (str_index_comma s) ;;
      let s1 := slice_from (i + 1) s in
      let s2 := lstrip s1 in
      geocode S (QText s2)
  | QDict _ => raise (AttributeError "index")
  end.

(** [get_bounds(searchstring, RateLimiter)] *)
Definition get_bounds (S : services) (searchstring : geo_query) (RateLimiter : nat)
  : M bbox :=
  first <- geocode S searchstring ;;
  location <- match first with
              | Some loc => ret (Some loc)
              | None => broader_query S searchstring
              end ;;
  match location with
  | None => ret canada
  | Some (south, north, west, east) =>
      sleep RateLimiter ;;;
      ret ((west, north), (east, south))
  end.

(** ** Candidate tables

    A [pandas.DataFrame] indexed by id.  [columns] lists the column names
    in order; ["score"] comes first (the hit's [_score] precedes the
    flattened [_source] columns) and is kept in its own field.  A cell a
    row has no entry for is NaN, as pandas fills it. *)

Record row : Type := mkRow {
  r_id : string;
  r_score : Q;
  r_cells : list (string * pyval)
}.

Record DataFrame : Type := mkFrame {
  columns : list string;
  rows : list row
}.

Definition nrows (df : DataFrame) : nat := List.length (rows df).

Definition has_column (df : DataFrame) (c : string) : bool :=
  existsb (String.eqb c) (columns df).

(** The value of the first entry of key [k]. *)
Fixpoint assoc {A} (k : string) (l : list (string * A)) : option A :=
  match l with
  | [] => None
  | (k', v) :: l' => if String.eqb k k' then Some v else assoc k l'
  end.

(** [row[c]] for a column of the table. *)
Definition cell (r : row) (c : string) : pyval :=
  match assoc c (r_cells r) with
  | Some v => v
  | None => PyFloat NaN
  end.

(** The row with [v] in column [c]. *)
Definition set_cell (c : string) (v : pyval) (r : row) : row :=
  mkRow (r_id r) (r_score r)
        ((c, v) :: filter (fun kv => negb (String.eqb c (fst kv))) (r_cells r)).

(** A new column goes last; an existing one keeps its place. *)
Definition add_column (c : string) (cols : list string) : list string :=
  if existsb (String.eqb c) cols then cols else cols ++ [c].

(** [df[c] = v] for a scalar [v]. *)
Definition set_column_scalar (df : DataFrame) (c : string) (v : pyval) : DataFrame :=
  mkFrame (add_column c (columns df)) (map (set_cell c v) (rows df)).

(** [df[c] = values] for a list or an array: pandas refuses a length
    other than the number of rows. *)
Definition set_column (df : DataFrame) (c : string) (values : list pyval)
  : result DataFrame :=
  if (List.length values =? nrows df)%nat
  then Ok (mkFrame (add_column c (columns df))
                   (map (fun rv => set_cell c (snd rv) (fst rv))
                        (combine (rows df) values)))
  else Raise (ValueError "Length of values does not match length of index").

(** [df[mask]] *)
Definition select_rows (keep : row -> bool) (df : DataFrame) : DataFrame :=
  mkFrame (columns df) (filter keep (rows df)).

(** [df[c]], [df.c]: the column, or the error of a name that is no column. *)
Definition getitem (df : DataFrame) (c : string) : result (list pyval) :=
  if has_column df c then Ok (map (fun r => cell r c) (rows df))
  else Raise (KeyError c).

Definition getattr (df : DataFrame) (c : string) : result (list pyval) :=
  if has_column df c then Ok (map (fun r => cell r c) (rows df))
  else Raise (AttributeError c).

(** [df["score"]], which is also column 0. *)
Definition scores (df : DataFrame) : list Q := map r_score (rows df).

(** [x == y] between scalars, as the element-wise comparisons of the
    module use it (their right-hand side is a string or a cluster
    label). *)
Definition float_eqb (a b : pyfloat) : bool :=
  match a, b with
  | Fin x, Fin y => if Req_dec_T x y then true else false
  | Inf s, Inf t => Bool.eqb s t
  | _, _ => false
  end.

Definition as_number (v : pyval) : option (Z + pyfloat) :=
  match v with
  | PyBool b => Some (inl (Z.b2z b))
  | PyInt z => Some (inl z)
  | PyFloat f => Some (inr f)
  | _ => None
  end.

Definition py_eqb (a b : pyval) : bool :=
  match a, b with
  | PyNone, PyNone => true
  | PyStr s, PyStr t => String.eqb s t
  | _, _ =>
      match as_number a, as_number b with
      | Some (inl x), Some (inl y) => Z.eqb x y
      | Some (inl x), Some (inr g) => float_eqb (float_of_Z x) g
      | Some (inr f), Some (inl y) => float_eqb f (float_of_Z y)
      | Some (inr f), Some (inr g) => float_eqb f g
      | _, _ => false
      end
  end.

(** ** CandidateRetriever: [ES_Query] *)

(** The [boundaries] argument: a text, a structured address or the two
    corners. *)
Inductive boundaries_arg : Type :=
| BoundsText (s : string)
| BoundsDict (fields : list (string * string))
| BoundsBox (corners : bbox).

(** What [ES_Query] returns: a message or a table. *)
Inductive es_result : Type :=
| Message (s : string)
| Frame (df : DataFrame).

(** The names of [l], each at its first place. *)
Fixpoint dedup (l : list string) : list string :=
  match l with
  | [] => []
  | c :: l' => c :: filter (fun d => negb (String.eqb c d)) (dedup l')
  end.

(** The table of a hit list: id, score and the union of the [_source]
    columns, once [_index], [_type], [_source] and [matched_queries] are
    dropped and [_score] renamed. *)
Definition frame_of_hits (hs : list hit) : DataFrame :=
  mkFrame ("score" :: dedup (flat_map (fun h => map fst (hit_source h)) hs))
          (map (fun h => mkRow (hit_id h) (hit_score h) (hit_source h)) hs).

(** The [center] of lines 250-253. *)
Definition midpoint (a b : point) : point :=
  (fdiv (fadd (fst a) (fst b)) (Fin 2), fdiv (fadd (snd a) (snd b)) (Fin 2)).

(** Lines 246-249: a text or a structured address goes through
    [get_bounds], corners are taken as they are. *)
Definition resolve_boundaries (S : services) (b : boundaries_arg) : M bbox :=
  match b with
  | BoundsText s => get_bounds S (QText s) 1
  | BoundsDict d => get_bounds S (QDict d) 1
  | BoundsBox corners => ret corners
  end.

(** From the hit list to what [ES_Query] returns (lines 282-306). *)
Definition candidate_table (results : list hit) : result es_result :=
  if (List.length results =? 0)%nat then Ok (Message "No match found")
  else
    let results := frame_of_hits results in
    if negb (has_column results "alsoKnownAs")
    then rbind (set_column results "alsoKnownAs" [PyStr ""]) (fun results =>
         Ok (Frame results))
    else Ok (Frame results).

(** [ES_Query(client, namestring, postcode, boundaries, polygon)] *)
Definition ES_Query (S : services) (client : es_client)
    (namestring : option string) (postcode : pyval)
    (boundaries : option boundaries_arg) (polygon : option (list point))
  : M es_result :=
  match namestring with
  | None => ret (Message "No name supplied")
  | Some keywords =>
      postcode <- lift (normalize_postalcode S postcode) ;;
      postcode <- lift (get_geocode S postcode) ;;
      results <-
        match polygon, boundaries, postcode with
        | Some polygon, _, _ =>
            search_template client (ParamsPolygon keywords polygon)
        | None, Some boundaries, _ =>
            boundaries <- resolve_boundaries S boundaries ;;
            let center := midpoint (fst boundaries) (snd boundaries) in
            search_template client
              (ParamsBounds keywords (fst boundaries) (snd boundaries) center)
        | None, None, Some postcode =>
            search_template client (ParamsCenter keywords postcode)
        | None, None, None =>
            search_template client (ParamsKeywords keywords)
        end ;;
      lift (candidate_table results)
  end.

(** ** ConfidenceScorer: [get_confidence] *)

(** Sum, length and mean of the scores, computed exactly. *)
Definition Qsum (l : list Q) : Q := fold_right Qplus 0 l.

Definition Qlen (l : list Q) : Q := inject_Z (Z.of_nat (List.length l)).

Definition mean (l : list Q) : Q := Qsum l / Qlen l.

(** The population variance ([ddof = 0]). *)
Definition variance (l : list Q) : Q :=
  let m := mean l in
  Qsum (map (fun x => (x - m) * (x - m)) l) / Qlen l.

Definition std (l : list Q) : R := sqrt (Q2R (variance l)).

(** [stats.zscore(a)]: [(a - a.mean()) / a.std()], element by element. *)
Definition zscore (a : list Q) : list pyfloat :=
  let mn := mean a in
  let sd := std a in
  map (fun x => fdiv (float_of_Q (x - mn)) (Fin sd)) a.

(** [get_confidence(points, thresh)] *)
Definition get_confidence (points : DataFrame) (thresh : pyfloat) : result DataFrame :=
  if (nrows points =? 1)%nat
  then Ok (set_column_scalar points "z" (PyStr "Sole Return Before Clustering"))
  else set_column points "z"
         (map (fun z => PyFloat (fmul (fdiv (fabs z) thresh) (Fin 100)))
              (zscore (scores points))).

(** The default [thresh=3.5]. *)
Definition thresh_default : pyfloat := Fin 3.5.

(** ** ClusterSeparator: [get_cluster]

    scikit-learn's DBSCAN on one-dimensional points with
    [min_samples=1]: every point is a core point, a cluster is a class
    of the closure of "at distance at most [eps]", and the clusters are
    numbered from 0 in the order of their first point. *)

Definition within (eps x y : Q) : bool := Qle_bool (Qabs (x - y)) eps.

(** The points at distance at most [eps] of a marked point. *)
Definition spread (eps : Q) (xs : list Q) (marked : list bool) : list bool :=
  map (fun y => existsb (fun xm => snd xm && within eps (fst xm) y)
                        (combine xs marked)) xs.

Definition seed (n i : nat) : list bool := map (Nat.eqb i) (seq 0 n).

(** The points density-reachable from point [i]. *)
Definition reachable (eps : Q) (xs : list Q) (i : nat) : list bool :=
  Nat.iter (List.length xs) (spread eps xs) (seed (List.length xs) i).

(** Give [label] to the points of [comp] that have none ([-1]). *)
Definition paint (label : Z) (comp : list bool) (labels : list Z) : list Z :=
  map (fun cl => if fst cl && (snd cl =? -1)%Z then label else snd cl)
      (combine comp labels).

Fixpoint dbscan_loop (eps : Q) (xs : list Q) (todo : list nat)
    (labels : list Z) (label_num : Z) : list Z :=
  match todo with
  | [] => labels
  | i :: todo' =>
      if (nth i labels (-1) =? -1)%Z
      then dbscan_loop eps xs todo'
             (paint label_num (reachable eps xs i) labels) (label_num + 1)
      else dbscan_loop eps xs todo' labels label_num
  end.

(** [DBSCAN(min_samples=1, eps=eps).fit_predict(xs)] *)
Definition DBSCAN_fit_predict (eps : Q) (xs : list Q) : result (list Z) :=
  if Qle_bool eps 0 then Raise (ValueError "eps must be positive.")
  else
    let n := List.length xs in
    Ok (dbscan_loop eps xs (seq 0 n) (repeat (-1)%Z n) 0).

(** [get_cluster(results, epsilon)]: the scores are column 0 of the
    table. *)
Definition get_cluster (results : DataFrame) (epsilon : Q) : result DataFrame :=
  rbind (DBSCAN_fit_predict epsilon (scores results)) (fun clusters =>
  set_column results "clusters" (map PyInt clusters)).

(** ** MatchResolver: [WB_Match] *)

(** [str(x)] *)
Definition py_str (S : services) (x : pyval) : string :=
  match x with
  | PyNone => "None"
  | PyBool true => "True"
  | PyBool false => "False"
  | PyInt z => NilZero.string_of_int (Z.to_int z)
  | PyFloat (Fin r) => float_repr S r
  | PyFloat (Inf false) => "inf"
  | PyFloat (Inf true) => "-inf"
  | PyFloat NaN => "nan"
  | PyStr s => s
  end.

(** [l[0]] *)
Definition first {A} (l : list A) : result A :=
  match l with
  | x :: _ => Ok x
  | [] => Raise IndexError
  end.

(** The larger of two scores. *)
Definition Qmax2 (a b : Q) : Q := if Qle_bool a b then b else a.

(** [results["score"].max()]; there is none for an empty table. *)
Definition score_max (df : DataFrame) : option Q :=
  match scores df with
  | [] => None
  | x :: l => Some (fold_left Qmax2 l x)
  end.

(** The mask [results["score"] == results["score"].max()]. *)
Definition is_top (df : DataFrame) (r : row) : bool :=
  match score_max df with
  | Some m => Qeq_bool (r_score r) m
  | None => false
  end.

(** An entry of the output list: a scalar, or the boolean Series that
    comparing a column with a value gives. *)
Inductive outval : Type :=
| Scalar (v : pyval)
| BoolSeries (bs : list bool).

(** The postal-code filter and the scoring (lines 512-534): the table
    that reaches the clustering stage. *)
Definition scoring (S : services) (results : DataFrame) (postcode : pyval) : result DataFrame :=
  rbind (normalize_postalcode S postcode) (fun postcode =>
  match postcode with
  | PyNone => get_confidence results thresh_default
  | _ =>
      rbind (getitem results "postalCode") (fun cells =>
      rbind (rmapM (normalize_postalcode S) cells) (fun normalized =>
      rbind (set_column results "postalCode" normalized) (fun results =>
      let results :=
        select_rows (fun r => py_eqb (cell r "postalCode") postcode) results in
      if (1 <? nrows results)%nat
      then get_confidence results thresh_default
      else Ok (set_column_scalar results "z" (PyStr "Sole Postal Code")))))
  end).

(** The members of the cluster of the top-scored row, as line 542
    counts them. *)
Definition target_cluster_size (results : DataFrame) (target : pyval) : nat :=
  nrows (select_rows (fun r => py_eqb (cell r "clusters") target) results).

(** The cluster label of the top-scored row (lines 539-541, and the
    [targetcluster[0]] of line 542). *)
Definition targetcluster (results : DataFrame) : result pyval :=
  rbind (getitem (select_rows (is_top results) results) "clusters") first.

(** The clustering stage (lines 536-544): [None] is the early return of
    an ambiguous match, otherwise the table goes on. *)
Definition clustering (results : DataFrame) (epsilon : Q)
  : result (option DataFrame) :=
  if (1 <? nrows results)%nat
  then
    rbind (get_cluster results epsilon) (fun results =>
    rbind (targetcluster results) (fun target =>
    if negb (target_cluster_size results target =? 1)%nat
    then Ok None
    else Ok (Some results)))
  else Ok (Some results).

(** The optional diagnostic fields (lines 586-607). *)
Inductive comparison : Type :=
| CompareValue (v : string)
| CompareColumn (cells : list pyval).

(** [ComparisonDictionary[i] == DiagnosticDictionary[i]] *)
Definition compare_with (c : comparison) (expected : string) : outval :=
  match c with
  | CompareValue v => Scalar (PyBool (String.eqb v expected))
  | CompareColumn cells =>
      BoolSeries (map (fun x => py_eqb x (PyStr expected)) cells)
  end.

(** The dictionary of lines 590-599: its six columns are read when it
    is built. *)
Definition ComparisonDictionary (results : DataFrame) (DENOM PC : string)
  : result (list (string * comparison)) :=
  rbind (getitem results "faith") (fun faith =>
  rbind (getitem results "tags.age") (fun age =>
  rbind (getitem results "tags.category") (fun category =>
  rbind (getitem results "tags.culture") (fun culture =>
  rbind (getitem results "tags.faithstream") (fun faithstream =>
  rbind (getitem results "tags.language") (fun language =>
  Ok [ ("DenomBool", CompareValue DENOM);
       ("PostBool", CompareValue PC);
       ("FaithBool", CompareColumn faith);
       ("AgeBool", CompareColumn age);
       ("CategoryBool", CompareColumn category);
       ("CultureBool", CompareColumn culture);
       ("FaithstreamBool", CompareColumn faithstream);
       ("LanguageBool", CompareColumn language) ])))))).

(** The loop over the keys of the caller's dictionary, in their order. *)
Fixpoint diagnostic_loop (comparisons : list (string * comparison))
    (entries : list (string * string)) : result (list outval) :=
  match entries with
  | [] => Ok []
  | (i, expected) :: entries' =>
      rbind (if negb (String.eqb expected "")
             then match assoc i comparisons with
                  | Some c => Ok (compare_with c expected)
                  | None => Raise (KeyError i)
                  end
             else Ok (Scalar (PyStr expected))) (fun out =>
      rbind (diagnostic_loop comparisons entries') (fun outs =>
      Ok (out :: outs)))
  end.

(** The entries appended to the output list; none without a
    dictionary. *)
Definition diagnostics (results : DataFrame) (DENOM PC : string)
    (DiagnosticDictionary : option (list (string * string)))
  : result (list outval) :=
  match DiagnosticDictionary with
  | None => Ok []
  | Some entries =>
      rbind (ComparisonDictionary results DENOM PC) (fun comparisons =>
      diagnostic_loop comparisons entries)
  end.

(** The combined confidence (lines 578-581). *)
Definition combined_confidence (LEV : Z) (CONF : pyval) : pyval :=
  match CONF with
  | PyFloat c => PyFloat (fdiv (fadd (float_of_Z LEV) c) (Fin 2))
  | _ => PyInt LEV
  end.

(** Selection and output (lines 546-610). *)
Definition finalizing (S : services) (namestring : option string)
    (DiagnosticDictionary : option (list (string * string)))
    (results : DataFrame) : result (option (list outval)) :=
  if (nrows results =? 0)%nat then Ok None
  else
    let results := select_rows (is_top results) results in
    let ID := map r_id (rows results) in
    rbind (getattr results "z") (fun CONF =>
    rbind (getattr results "name") (fun NAME =>
    rbind (getattr results "alsoKnownAs") (fun ALSO =>
    rbind (getattr results "locality") (fun LOC =>
    rbind (getattr results "postalCode") (fun PC =>
    rbind (getitem results "tags.denomination") (fun DENOM =>
    rbind (first ID) (fun ID =>
    rbind (first CONF) (fun CONF =>
    rbind (first NAME) (fun NAME =>
    let NAME := py_str S NAME in
    let ALSO := join "," (map (py_str S) ALSO) in
    rbind (first LOC) (fun LOC =>
    let LOC := py_str S LOC in
    rbind (first PC) (fun PC =>
    let PC := py_str S PC in
    rbind (first DENOM) (fun DENOM =>
    let DENOM := py_str S DENOM in
    match namestring with
    | None => Raise (AttributeError "lower")
    | Some namestring =>
        let LEV := Z.max (partial_ratio S (lower S namestring) (lower S NAME))
                         (partial_ratio S (lower S namestring) (lower S ALSO)) in
        let CC := combined_confidence LEV CONF in
        let OutputList :=
          [Scalar (PyStr ID); Scalar CONF; Scalar (PyStr NAME);
           Scalar (PyStr ALSO); Scalar (PyStr LOC); Scalar (PyStr PC);
           Scalar (PyStr DENOM); Scalar (PyInt LEV); Scalar CC] in
        rbind (diagnostics results DENOM PC DiagnosticDictionary) (fun extra =>
        Ok (Some (OutputList ++ extra)%list))
    end)))))))))))).

(** The retry loop (lines 501-507): [None] when no attempt bound
    [results]. *)
Fixpoint query_attempts (attempts : nat) (query : M es_result)
  : M (option es_result) :=
  match attempts with
  | O => ret None
  | S attempts' =>
      fun w =>
        match query w with
        | (Ok results, w') => (Ok (Some results), w')
        | (Raise TransportError, w') => query_attempts attempts' query w'
        | (Raise e, w') => (Raise e, w')
        end
  end.

(** What follows a table (lines 512-610). *)
Definition resolve (S : services) (namestring : option string)
    (postcode : pyval) (DiagnosticDictionary : option (list (string * string)))
    (epsilon : Q) (results : DataFrame) : result (option (list outval)) :=
  rbind (scoring S results postcode) (fun results =>
  rbind (clustering results epsilon) (fun clustered =>
  match clustered with
  | None => Ok None
  | Some results => finalizing S namestring DiagnosticDictionary results
  end)).

(** [WB_Match]; [None] is the bare [return]. *)
Definition WB_Match (S : services) (client : es_client)
    (namestring : option string) (postcode : pyval)
    (boundaries : option boundaries_arg) (polygon : option (list point))
    (DiagnosticDictionary : option (list (string * string))) (epsilon : Q)
  : M (option (list outval)) :=
  bound <- query_attempts 3
             (ES_Query S client namestring postcode boundaries polygon) ;;
  match bound with
  | None => raise (UnboundLocalError "results")
  | Some (Message _) => ret None
  | Some (Frame results) =>
      lift (resolve S namestring postcode DiagnosticDictionary epsilon results)
  end.

(** ** Sample collaborators and candidates *)

(** A Unicode database reduced to one entry: the upper case of the
    sharp s, U+00DF, is "SS". *)
Definition sharp_s_upper (p : string) : string :=
  if String.eqb p (utf8 223) then "SS" else p.

(** A geocoder that finds nothing, an empty postal table, a similarity
    that tells equal strings from the others, and that database. *)
Definition plain_services : services :=
  mkServices (fun _ => None)
             (fun _ => (NaN, NaN))
             (fun a b => if String.eqb a b then 100%Z else 40%Z)
             (fun _ => "<float>")
             sharp_s_upper
             (fun s => s).

(** An index that answers every call with the same hits, and one whose
    transport is down. *)
Definition index_of (hs : list hit) : es_client := fun _ _ => Hits hs.
Definition index_down : es_client := fun _ _ => Fails TransportError.

Definition church (id : string) (score : Q) (postalCode : string) : hit :=
  mkHit id score
    [("name", PyStr "St. Andrew's Church"); ("alsoKnownAs", PyStr "");
     ("locality", PyStr "Halifax"); ("postalCode", PyStr postalCode);
     ("tags.denomination", PyStr "Anglican")].

(** A hit whose document has no [alsoKnownAs]. *)
Definition chapel (id : string) (score : Q) : hit :=
  mkHit id score
    [("name", PyStr "Harbour Chapel"); ("locality", PyStr "Halifax");
     ("postalCode", PyStr "B3H 4R2"); ("tags.denomination", PyStr "Baptist")].

(** A hit with every column the diagnostic fields read. *)
Definition parish (id : string) (score : Q) : hit :=
  mkHit id score
    [("name", PyStr "Holy Cross Parish"); ("alsoKnownAs", PyStr "");
     ("locality", PyStr "Ottawa"); ("postalCode", PyStr "K1A 0B1");
     ("tags.denomination", PyStr "Catholic"); ("faith", PyStr "Christian");
     ("tags.age", PyStr "all"); ("tags.category", PyStr "church");
     ("tags.culture", PyStr "none"); ("tags.faithstream", PyStr "catholic");
     ("tags.language", PyStr "english")].

(** ** Notions used in the statements *)

(** A string that does not start with a space. *)
Definition no_lead (s : string) : Prop :=
  match s with
  | String c _ => Ascii.eqb c space = false
  | EmptyString => True
  end.

(** The world after the geocoder was asked [qs]. *)
Definition geo_logged (w : world) (qs : list geo_query) : world :=
  mkWorld (es_log w) (geo_log w ++ qs) (slept w).

(** The document of the hit has the field [alsoKnownAs]. *)
Definition has_aka (h : hit) : bool :=
  existsb (String.eqb "alsoKnownAs") (map fst (hit_source h)).

(** A confidence is well defined when it is a finite number. *)
Definition well_defined (v : pyval) : Prop := exists x, v = PyFloat (Fin x).

(** Two candidates that both score 50. *)
Definition tied_pair : DataFrame :=
  frame_of_hits [church "a" 50 "A1A 1A1"; church "b" 50 "B2B 2B2"].

(** Two candidates scoring 10 and 90. *)
Definition far_apart : list hit := [church "a" 10 "A1A 1A1"; church "b" 90 "B2B 2B2"].

(** Two candidates scoring 50 and 51. *)
Definition close_by : list hit := [church "a" 50 "A1A 1A1"; church "b" 51 "B2B 2B2"].


(** The columns the comparison dictionary reads from the table. *)
Definition diagnostic_columns : list string :=
  ["faith"; "tags.age"; "tags.category"; "tags.culture"; "tags.faithstream";
   "tags.language"].

(** The keys of the comparison dictionary. *)
Definition diagnostic_keys : list string :=
  ["DenomBool"; "PostBool"; "FaithBool"; "AgeBool"; "CategoryBool";
   "CultureBool"; "FaithstreamBool"; "LanguageBool"].

(** The confidence [get_confidence] derives from a z-score. *)
Definition confidence_of (z : pyfloat) : pyval :=
  PyFloat (fmul (fdiv (fabs z) thresh_default) (Fin 100)).

(** The two markers that stand for a confidence. *)
Definition sentinel (v : pyval) : Prop :=
  v = PyStr "Sole Return Before Clustering" \/ v = PyStr "Sole Postal Code".

(** The column [z]. *)
Definition z_column (df : DataFrame) : list pyval :=
  map (fun r => cell r "z") (rows df).

(** What scoring leaves in the column: sentinels, or the confidences of
    the z-scores of a table that has not exactly one row. *)
Definition scored_z (df : DataFrame) : Prop :=
  Forall sentinel (z_column df) \/
  (nrows df <> 1%nat /\ z_column df = map confidence_of (zscore (scores df))).

(** An index whose transport fails on the first call only. *)
Definition index_flaky (hs : list hit) : es_client :=
  fun n _ => if (n =? 0)%nat then Fails TransportError else Hits hs.

(** A geocoder that knows Halifax only. *)
Definition halifax_services : services :=
  mkServices (fun q => match q with
                       | QText "Halifax, NS" =>
                           Some (Fin 44.5, Fin 44.8, Fin (-63.8), Fin (-63.4))
                       | _ => None
                       end)
             (fun _ => (NaN, NaN))
             (fun a b => if String.eqb a b then 100%Z else 40%Z)
             (fun _ => "<float>")
             sharp_s_upper
             (fun s => s).

(** Point [i] is marked in [m]. *)
Definition marks (m : list bool) (i : nat) : Prop := nth i m false = true.

(** The number of marked points. *)
Definition count_marked (m : list bool) : nat :=
  List.length (filter (fun b : bool => b) m).

(** Points [a] and [b] of [xs] are at distance at most [eps]. *)
Definition near (eps : Q) (xs : list Q) (a b : nat) : bool :=
  within eps (nth a xs 0) (nth b xs 0).

(** The label of point [a]; [-1] when it has none. *)
Definition label_of (labels : list Z) (a : nat) : Z := nth a labels (-1)%Z.

(** What the loop of DBSCAN keeps: labels are below the next one, and
    a labelled point shares its label with the points near it. *)
Definition labelling_ok (eps : Q) (xs : list Q) (labels : list Z) (next : Z) : Prop :=
  List.length labels = List.length xs /\
  (0 <= next)%Z /\
  (forall a, (a < List.length xs)%nat -> label_of labels a <> (-1)%Z ->
             (0 <= label_of labels a < next)%Z) /\
  (forall a b, (a < List.length xs)%nat -> (b < List.length xs)%nat ->
               label_of labels a <> (-1)%Z -> near eps xs a b = true ->
               label_of labels b = label_of labels a).



(** The ids of the rows with their scores. *)
Definition id_scores (df : DataFrame) : list (string * Q) :=
  map (fun r => (r_id r, r_score r)) (rows df).


(** Row [r] is row [r1] but for its value in column [c]. *)
Definition same_but (c : string) (r r1 : row) : Prop :=
  r_id r = r_id r1 /\ r_score r = r_score r1 /\
  forall d, c <> d -> cell r d = cell r1 d.

(** Row [r] of the table that reaches the selection is row [r0] of the
    retrieved table: same id, score and fields, a postal code that is
    the one of [r0] or its normal form, and the columns [z] and
    [clusters] of the pipeline. *)
Definition comes_from (S : services) (r r0 : row) : Prop :=
  r_id r = r_id r0 /\ r_score r = r_score r0 /\
  (forall d, "postalCode" <> d -> "z" <> d -> "clusters" <> d ->
             cell r d = cell r0 d) /\
  (cell r "postalCode" = cell r0 "postalCode" \/
   normalize_postalcode S (cell r0 "postalCode") = Ok (cell r "postalCode")).

(** * The GraphQL client of [graphql.py]

    [listingsearch] and [locationsearch] post GraphQL documents to the
    web service and read the JSON of the answers.  The service
    ([requests.post]), the parser ([json.loads]) and pandas are
    collaborators; the web logs what is posted and what is printed. *)

Module GraphQL.

(** A value read by [json.loads], or sent as a variable. *)
#[warnings="-register-all"] Inductive json : Type :=
| JNull
| JBool (b : bool)
| JInt (z : Z)
| JFloat (f : pyfloat)
| JStr (s : string)
| JArray (items : list json)
| JObject (fields : list (string * json)).

(** [v[k]] for a string [k]: only a dict can be read this way. *)
Definition subscript (v : json) (k : string) : result json :=
  match v with
  | JObject fields =>
      match assoc k fields with
      | Some x => Ok x
      | None => Raise (KeyError k)
      end
  | _ => Raise (OtherError "TypeError")
  end.

(** The three documents of the module: [locquery] and [query] of
    [listingsearch], and [query] of [locationsearch]. *)
Inductive document : Type :=
| SearchViewportQuery_keywords_near
| SearchQuery
| SearchViewportQuery_near.

(** The [json =] argument of a post. *)
Record payload : Type := mkPayload {
  query : document;
  variables : list (string * json)
}.

(** The collaborators: the text of the answer to the [n]-th post, the
    parser, and what pandas makes of the edges,
    [pd.json_normalize(pd.DataFrame(edges)["node"])], when the frame has
    a column [node]. *)
Record libraries (table : Type) : Type := mkLibraries {
  post : nat -> payload -> result string;
  json_loads : string -> result json;
  node_table : json -> result table
}.
Arguments post {table} l n p.
Arguments json_loads {table} l text.
Arguments node_table {table} l edges.

Record web : Type := mkWeb {
  posted : list payload;                      (* oldest first *)
  printed : list (list (string * json))       (* oldest first *)
}.

Definition G (A : Type) : Type := web -> result A * web.

Definition gret {A} (a : A) : G A := fun w => (Ok a, w).
Definition graise {A} (e : exn) : G A := fun w => (Raise e, w).
Definition gbind {A B} (c : G A) (k : A -> G B) : G B :=
  fun w => match c w with
           | (Ok a, w') => k a w'
           | (Raise e, w') => (Raise e, w')
           end.
Definition glift {A} (r : result A) : G A := fun w => (r, w).

Declare Scope gql_scope.
Notation "x <- c ;; k" := (gbind c (fun x => k))
  (at level 61, c at next level, right associativity) : gql_scope.
Notation "c ;;; k" := (gbind c (fun _ => k))
  (at level 61, right associativity) : gql_scope.
Local Open Scope gql_scope.

(** [requests.post("https://waybase.com/graphql", json = p).text] *)
Definition requests_post {table} (L : libraries table) (p : payload) : G string :=
  fun w => (post L (List.length (posted w)) p, mkWeb (posted w ++ [p]) (printed w)).

(** [print(d)] *)
Definition print (d : list (string * json)) : G unit :=
  fun w => (Ok tt, mkWeb (posted w) (printed w ++ [d])).

(** [json.loads(text)["data"]["search"]["viewport"]["bounds"]] *)
Definition bounds_of {table} (L : libraries table) (text : string) : result json :=
  rbind (json_loads L text) (fun answer =>
  rbind (subscript answer "data") (fun data =>
  rbind (subscript data "search") (fun search =>
  rbind (subscript search "viewport") (fun viewport =>
  subscript viewport "bounds")))).

(** [json.loads(text)["data"]["search"]["results"]["edges"]] *)
Definition edges_of {table} (L : libraries table) (text : string) : result json :=
  rbind (json_loads L text) (fun answer =>
  rbind (subscript answer "data") (fun data =>
  rbind (subscript data "search") (fun search =>
  rbind (subscript search "results") (fun results =>
  subscript results "edges")))).

(** The records of a list of dicts. *)
Fixpoint records (items : list json) : option (list (list (string * json))) :=
  match items with
  | [] => Some []
  | JObject fields :: items' => option_map (cons fields) (records items')
  | _ :: _ => None
  end.

Definition has_key (k : string) (fields : list (string * json)) : bool :=
  match assoc k fields with
  | Some _ => true
  | None => false
  end.

(** [pd.json_normalize(pd.DataFrame(edges)["node"])]: the frame of a
    list of dicts has the keys of the dicts as columns, so that none
    with the key [node] (an empty list for one) leaves no such column. *)
Definition normalized_nodes {table} (L : libraries table) (edges : json)
  : result table :=
  match edges with
  | JArray items =>
      match records items with
      | Some rs =>
          if existsb (has_key "node") rs then node_table L edges
          else Raise (KeyError "node")
      | None => node_table L edges
      end
  | _ => node_table L edges
  end.

(** [listingsearch(keywords, near = "")].  [gqlvar] is the dict of the
    two arguments; [locquery] is bound only when [near] is not empty. *)
Definition listingsearch {table} (L : libraries table) (keywords near : string)
  : G table :=
  let gqlvar := [("keywords", JStr keywords); ("near", JStr near)] in
  let locquery := if negb (String.eqb near "")
                  then Some SearchViewportQuery_keywords_near
                  else None in
  locquery <- match locquery with
              | Some q => gret q
              | None => graise (UnboundLocalError "locquery")
              end ;;
  locr <- requests_post L (mkPayload locquery gqlvar) ;;
  bounds <- glift (bounds_of L locr) ;;
  let gqlvar := (gqlvar ++ [("viewport", bounds)])%list in
  print gqlvar ;;;
  listr <- requests_post L (mkPayload SearchQuery gqlvar) ;;
  edges <- glift (edges_of L listr) ;;
  glift (normalized_nodes L edges).

(** [locationsearch(near = "")] *)
Definition locationsearch {table} (L : libraries table) (near : string) : G json :=
  r <- requests_post L (mkPayload SearchViewportQuery_near [("near", JStr near)]) ;;
  glift (json_loads L r).

(** A service for the examples: it answers the first post with the
    bounds [b] and the second with the edges [edges]; the parser reads
    the two texts. *)
Definition sample_libraries (b edges : json) : libraries json :=
  mkLibraries json
    (fun n _ => match n with
                | O => Ok "viewport"
                | _ => Ok "listings"
                end)
    (fun text =>
       if String.eqb text "viewport"
       then Ok (JObject [("data", JObject [("search", JObject [("viewport",
                  JObject [("bounds", b); ("coordinates", JNull)])])])])
       else Ok (JObject [("data", JObject [("search", JObject [("results",
                  JObject [("edges", edges)])])])]))
    (fun edges => Ok edges).

End GraphQL.

(** * Properties *)

(** ** Runs of the model *)

Example normalize_a1a1a1 :
  normalize_postalcode plain_services (PyStr "  a1a1a1") = Ok (PyStr "A1A 1A1").
Proof. reflexivity. Qed.

Example normalize_spaced :
  normalize_postalcode plain_services (PyStr "a1a 1a1") = Ok (PyStr "A1A 1A1").
Proof. reflexivity. Qed.

(** A code with a no-break space, U+00A0, between its halves fits the
    pattern; the sharp s, U+00DF, is one code point and two in upper
    case. *)
Example zipCode_no_break_space :
  zipCode_match ("A1A" ++ utf8 160 ++ "1A1") = true.
Proof. reflexivity. Qed.

Example zipCode_lower_case : zipCode_match "a1a 1a1" = false.
Proof. reflexivity. Qed.

Example upper_sharp_s :
  len ("a" ++ utf8 223 ++ "cde") = 5%nat /\
  upper plain_services ("a" ++ utf8 223 ++ "cde") = "ASSCDE".
Proof. split; reflexivity. Qed.

Example dbscan_50_51 : DBSCAN_fit_predict 4 [50; 51] = Ok [0; 0]%Z.
Proof. reflexivity. Qed.

Example dbscan_10_90 : DBSCAN_fit_predict 4 [10; 90] = Ok [0; 1]%Z.
Proof. reflexivity. Qed.

Example dbscan_chain : DBSCAN_fit_predict 4 [20; 3; 12; 16; 1; 8] = Ok [0; 1; 0; 0; 1; 0]%Z.
Proof. reflexivity. Qed.

(** Scores 50 and 51 with [epsilon = 4]: one cluster, no result. *)
Example run_close_scores :
  WB_Match plain_services (index_of close_by) (Some "St. Andrew's Church")
           PyNone None None None 4 world0
  = (Ok None, mkWorld [ParamsKeywords "St. Andrew's Church"] [] 0).
Proof. reflexivity. Qed.

(** Scores 10 and 90 with [epsilon = 4]: two clusters, the candidate
    that scores 90 is the result. *)
Example run_far_scores :
  exists CONF CC,
    WB_Match plain_services (index_of far_apart) (Some "St. Andrew's Church")
             PyNone None None None 4 world0
    = (Ok (Some [Scalar (PyStr "b"); Scalar CONF;
                 Scalar (PyStr "St. Andrew's Church"); Scalar (PyStr "");
                 Scalar (PyStr "Halifax"); Scalar (PyStr "B2B 2B2");
                 Scalar (PyStr "Anglican"); Scalar (PyInt 100); Scalar CC]),
       mkWorld [ParamsKeywords "St. Andrew's Church"] [] 0).
Proof. do 2 eexists. reflexivity. Qed.

(** No hit at all: no result either, after a single request. *)
Example run_no_hit :
  WB_Match plain_services (index_of []) (Some "St. Andrew's Church")
           PyNone None None None 4 world0
  = (Ok None, mkWorld [ParamsKeywords "St. Andrew's Church"] [] 0).
Proof. reflexivity. Qed.

(** A postal code that no candidate has: the filtered table is empty
    and there is no result. *)
Example run_postcode_without_candidate :
  WB_Match plain_services (index_of far_apart) (Some "St. Andrew's Church")
           (PyStr "k1a0b1") None None None 4 world0
  = (Ok None, mkWorld [ParamsCenter "St. Andrew's Church" (NaN, NaN)] [] 0).
Proof. reflexivity. Qed.

(** ** Strings and postal codes *)

Lemma upper_char_idempotent (c : ascii) : upper_char (upper_char c) = upper_char c.
Proof. destruct c as [[] [] [] [] [] [] [] []]; reflexivity. Qed.

Lemma upper_char_space (c : ascii) :
  Ascii.eqb (upper_char c) space = Ascii.eqb c space.
Proof. destruct c as [[] [] [] [] [] [] [] []]; reflexivity. Qed.

Lemma upper_char_ascii (c : ascii) :
  is_ascii_char (upper_char c) = is_ascii_char c.
Proof. destruct c as [[] [] [] [] [] [] [] []]; reflexivity. Qed.

Lemma ascii_char_starts (c : ascii) :
  is_ascii_char c = true -> is_continuation c = false.
Proof. destruct c as [[] [] [] [] [] [] [] []]; (reflexivity || discriminate). Qed.

Lemma is_ascii_starts (s : string) : is_ascii s = true -> continues s = false.
Proof.
  destruct s as [|c s]; simpl; [reflexivity|].
  intros H. apply andb_prop in H as [H _]. now apply ascii_char_starts.
Qed.

(** Before a byte that is no continuation, a byte is a code point. *)
Lemma points_cons (c : ascii) (s : string) :
  continues s = false -> points (String c s) = String c "" :: points s.
Proof. intros H. cbn [points]. now rewrite H. Qed.

(** An ASCII string has one code point per character. *)
Lemma len_ascii (s : string) : is_ascii s = true -> len s = String.length s.
Proof.
  unfold len. induction s as [|c s IH]; [reflexivity|].
  intros H. pose proof H as H'. cbn [is_ascii] in H'.
  apply andb_prop in H' as [_ Hs].
  rewrite points_cons by now apply is_ascii_starts.
  simpl. now rewrite IH.
Qed.

Lemma upper_ascii (S : services) (s : string) :
  is_ascii s = true -> upper S s = smap upper_char s.
Proof.
  unfold upper. induction s as [|c s IH]; [reflexivity|].
  intros H. cbn [is_ascii] in H. apply andb_prop in H as [Hc Hs].
  rewrite points_cons by now apply is_ascii_starts.
  cbn [map glue fold_right]. fold (glue (map (upper_point S) (points s))).
  rewrite IH by exact Hs.
  unfold upper_point. cbn [is_ascii]. rewrite Hc. reflexivity.
Qed.

Lemma smap_upper_ascii (s : string) :
  is_ascii (smap upper_char s) = is_ascii s.
Proof.
  induction s as [|c s IH]; simpl; [reflexivity|].
  now rewrite upper_char_ascii, IH.
Qed.

Lemma smap_upper_idempotent (s : string) :
  smap upper_char (smap upper_char s) = smap upper_char s.
Proof.
  induction s as [|c s IH]; simpl; [reflexivity|].
  now rewrite upper_char_idempotent, IH.
Qed.

Lemma smap_length (f : ascii -> ascii) (s : string) :
  String.length (smap f s) = String.length s.
Proof. induction s as [|c s IH]; simpl; [reflexivity | now rewrite IH]. Qed.

Lemma lstrip_no_lead (s : string) : no_lead (lstrip s).
Proof.
  induction s as [|c s IH]; simpl; [exact I|].
  destruct (Ascii.eqb c space) eqn:E; [exact IH | exact E].
Qed.

Lemma lstrip_fixed (s : string) : no_lead s -> lstrip s = s.
Proof. destruct s as [|c s]; simpl; [reflexivity|]. now intros ->. Qed.

Lemma lstrip_ascii (s : string) : is_ascii s = true -> is_ascii (lstrip s) = true.
Proof.
  induction s as [|c s IH]; [reflexivity|].
  intros H. cbn [lstrip]. destruct (Ascii.eqb c space); [|exact H].
  cbn [is_ascii] in H. apply andb_prop in H as [_ H]. now apply IH.
Qed.

Lemma smap_upper_no_lead (s : string) : no_lead s -> no_lead (smap upper_char s).
Proof.
  destruct s as [|c s]; simpl; [trivial|].
  now rewrite upper_char_space.
Qed.

(** Adding the space to an ASCII string keeps it ASCII, keeps its first
    character and never leaves six characters. *)
Lemma add_missing_space_shape (s : string) :
  is_ascii s = true ->
  is_ascii (add_missing_space s) = true /\
  (no_lead s -> no_lead (add_missing_space s)) /\
  String.length (add_missing_space s) <> 6%nat.
Proof.
  intros Ha. unfold add_missing_space. rewrite (len_ascii s Ha).
  destruct (String.length s =? 6)%nat eqn:E.
  - apply Nat.eqb_eq in E.
    do 7 (destruct s as [|? s]; try discriminate E).
    cbn [is_ascii] in Ha.
    repeat (apply andb_prop in Ha as [?H Ha]).
    unfold slice_to, slice_from.
    rewrite !points_cons
      by (cbn [continues]; reflexivity || now apply ascii_char_starts).
    cbn [points firstn skipn glue fold_right append is_ascii no_lead String.length].
    repeat match goal with H : is_ascii_char _ = true |- _ => rewrite H; clear H end.
    repeat split; trivial. discriminate.
  - apply Nat.eqb_neq in E. repeat split; trivial.
Qed.

Lemma add_missing_space_fixed (s : string) :
  len s <> 6%nat -> add_missing_space s = s.
Proof.
  intros H. unfold add_missing_space.
  now apply Nat.eqb_neq in H as ->.
Qed.

(** What [normalize_postalcode] returns for an ASCII string is a fixed
    point. *)
Lemma normalize_fixed_point (S : services) (x : string) :
  is_ascii x = true ->
  let y := upper S (add_missing_space (lstrip x)) in
  upper S (add_missing_space (lstrip y)) = y.
Proof.
  intros Hx y. subst y.
  destruct (add_missing_space_shape (lstrip x) (lstrip_ascii x Hx))
    as (Ha & Hlead & Hlen).
  specialize (Hlead (lstrip_no_lead x)).
  rewrite (upper_ascii S _ Ha).
  set (y := smap upper_char (add_missing_space (lstrip x))) in *.
  assert (Hy : is_ascii y = true) by (subst y; now rewrite smap_upper_ascii).
  rewrite lstrip_fixed by (subst y; now apply smap_upper_no_lead).
  rewrite add_missing_space_fixed
    by (rewrite (len_ascii y Hy); subst y; now rewrite smap_length).
  rewrite (upper_ascii S y Hy). subst y. apply smap_upper_idempotent.
Qed.

(** C9 (as the code has it). On an ASCII string [normalize_postalcode]
    is idempotent: normalising the normalised form of [x] gives the
    normalised form of [x]. *)
Theorem normalize_postalcode_idempotent (S : services) (x : string) :
  is_ascii x = true ->
  rbind (normalize_postalcode S (PyStr x)) (normalize_postalcode S)
  = normalize_postalcode S (PyStr x).
Proof.
  intros Hx. simpl. f_equal. f_equal. now apply normalize_fixed_point.
Qed.

Lemma normalize_postalcode_idempotent_witness :
  rbind (normalize_postalcode plain_services (PyStr " k1a0b1"))
        (normalize_postalcode plain_services)
  = normalize_postalcode plain_services (PyStr " k1a0b1").
Proof.
  apply (normalize_postalcode_idempotent plain_services " k1a0b1").
  reflexivity.
Defined.

(** C9 (as the specification has it) fails for a string that
    [str.upper] lengthens.  The five code points of "a\u00dfcde" need no
    space; their upper case, "ASSCDE", has six, so that normalising it
    again adds a space. *)
Lemma sharp_s_is_normalized_twice :
  let x := ("a" ++ utf8 223 ++ "cde")%string in
  len x = 5%nat /\
  normalize_postalcode plain_services (PyStr x) = Ok (PyStr "ASSCDE") /\
  rbind (normalize_postalcode plain_services (PyStr x))
        (normalize_postalcode plain_services)
  = Ok (PyStr "ASS CDE").
Proof. cbv zeta. repeat split. Qed.

(** [None] and floats are thrown back as [None]. *)
Lemma normalize_postalcode_missing (S : services) (PC : pyval) :
  PC = PyNone \/ (exists f, PC = PyFloat f) ->
  normalize_postalcode S PC = Ok PyNone.
Proof. intros [-> | [f ->]]; reflexivity. Qed.

(** C8. An integer postal code is not a string, yet
    [normalize_postalcode] does not return [None] for it: the call of
    [lstrip] raises [AttributeError]. *)
Theorem normalize_postalcode_int_raises (S : services) :
  normalize_postalcode S (PyInt 90210) = Raise (AttributeError "lstrip").
Proof. reflexivity. Qed.

(** Only [None], floats and strings are accepted. *)
Lemma normalize_postalcode_raises_iff (S : services) (PC : pyval) :
  (exists e, normalize_postalcode S PC = Raise e) <->
  (exists b, PC = PyBool b) \/ (exists z, PC = PyInt z).
Proof.
  split.
  - intros [e H]. destruct PC; try discriminate H; eauto.
  - intros [[b ->] | [z ->]]; eexists; reflexivity.
Qed.

(** ** The monad *)

Lemma bind_ok {A B} (c : M A) (k : A -> M B) w a w' :
  c w = (Ok a, w') -> bind c k w = k a w'.
Proof. unfold bind. now intros ->. Qed.

Lemma bind_raise {A B} (c : M A) (k : A -> M B) w e w' :
  c w = (Raise e, w') -> bind c k w = (Raise e, w').
Proof. unfold bind. now intros ->. Qed.

(** ** Missing name *)

(** C4 (as the code has it). Without a name ([None]), [ES_Query]
    returns "No name supplied" and [WB_Match] returns nothing, at once:
    the world is left as it was, so no query went to the index and
    nothing was retried. *)
Theorem no_name_supplied (S : services) (client : es_client) (postcode : pyval)
    (boundaries : option boundaries_arg) (polygon : option (list point))
    (DiagnosticDictionary : option (list (string * string))) (epsilon : Q)
    (w : world) :
  ES_Query S client None postcode boundaries polygon w
    = (Ok (Message "No name supplied"), w) /\
  WB_Match S client None postcode boundaries polygon DiagnosticDictionary epsilon w
    = (Ok None, w).
Proof. split; reflexivity. Qed.

(** C4 (as the specification has it) fails for the empty string: the
    test is [namestring == None], so an empty name is sent to the index
    like any other, and [WB_Match] can return a result for it. *)
Lemma empty_name_is_queried :
  let client := index_of [church "a" 50 "A1A 1A1"] in
  let run := ES_Query plain_services client (Some "") PyNone None None world0 in
  fst run <> Ok (Message "No name supplied") /\
  es_log (snd run) = [ParamsKeywords ""] /\
  exists out,
    WB_Match plain_services client (Some "") PyNone None None None 4 world0
    = (Ok (Some out), mkWorld [ParamsKeywords ""] [] 0).
Proof.
  cbv zeta. split; [discriminate|]. split; [reflexivity|].
  eexists. reflexivity.
Qed.

(** ** The retry loop *)

(** A result ends the loop at once. *)
Lemma query_attempts_success (n : nat) (q : M es_result) w r w' :
  q w = (Ok r, w') -> query_attempts (S n) q w = (Ok (Some r), w').
Proof. simpl. now intros ->. Qed.

(** An exception other than a transport error is not retried. *)
Lemma query_attempts_other_error (n : nat) (q : M es_result) w e w' :
  q w = (Raise e, w') -> e <> TransportError ->
  query_attempts (S n) q w = (Raise e, w').
Proof. simpl. intros -> H. destruct e; congruence. Qed.

(** A transport error is. *)
Lemma query_attempts_retry (n : nat) (q : M es_result) w w' :
  q w = (Raise TransportError, w') ->
  query_attempts (S n) q w = query_attempts n q w'.
Proof. simpl. now intros ->. Qed.

(** Three transport errors leave [results] unbound. *)
Lemma query_attempts_exhausted (q : M es_result) w0 w1 w2 w3 :
  q w0 = (Raise TransportError, w1) ->
  q w1 = (Raise TransportError, w2) ->
  q w2 = (Raise TransportError, w3) ->
  query_attempts 3 q w0 = (Ok None, w3).
Proof.
  intros H0 H1 H2.
  rewrite (query_attempts_retry _ _ _ _ H0).
  rewrite (query_attempts_retry _ _ _ _ H1).
  rewrite (query_attempts_retry _ _ _ _ H2).
  reflexivity.
Qed.

(** The loop never runs the query more than [n] times: if each run
    sends at most one request, [n] attempts send at most [n]. *)
Lemma query_attempts_bound (n : nat) (q : M es_result) :
  (forall w r w', q w = (r, w') ->
     (List.length (es_log w') <= List.length (es_log w) + 1)%nat) ->
  forall w r w', query_attempts n q w = (r, w') ->
    (List.length (es_log w') <= List.length (es_log w) + n)%nat.
Proof.
  intros Hq. induction n as [|n IH]; intros w r w' H; simpl in H.
  - injection H as _ <-. lia.
  - destruct (q w) as [[a|e] w1] eqn:E.
    + injection H as _ <-. apply Hq in E. lia.
    + apply Hq in E.
      destruct e; try (injection H as _ <-; lia).
      apply IH in H. lia.
Qed.

(** When every attempt dies of a transport error, [WB_Match] reads the
    unbound [results]. *)
Lemma WB_Match_exhausted (S : services) (client : es_client)
    (namestring : option string) (postcode : pyval)
    (boundaries : option boundaries_arg) (polygon : option (list point))
    (DiagnosticDictionary : option (list (string * string))) (epsilon : Q)
    w0 w1 w2 w3 :
  let q := ES_Query S client namestring postcode boundaries polygon in
  q w0 = (Raise TransportError, w1) ->
  q w1 = (Raise TransportError, w2) ->
  q w2 = (Raise TransportError, w3) ->
  WB_Match S client namestring postcode boundaries polygon
           DiagnosticDictionary epsilon w0
  = (Raise (UnboundLocalError "results"), w3).
Proof.
  intros q H0 H1 H2. unfold WB_Match.
  erewrite bind_ok by (eapply query_attempts_exhausted; eassumption).
  reflexivity.
Qed.

(** C2. With an index whose transport fails on every call, [WB_Match]
    queries three times and then raises [UnboundLocalError] instead of
    returning nothing. *)
Theorem retry_exhaustion_raises :
  WB_Match plain_services index_down (Some "St. Andrew's Church")
           PyNone None None None 4 world0
  = (Raise (UnboundLocalError "results"),
     mkWorld [ParamsKeywords "St. Andrew's Church";
              ParamsKeywords "St. Andrew's Church";
              ParamsKeywords "St. Andrew's Church"] [] 0).
Proof. now apply WB_Match_exhausted with (w1 := mkWorld [ParamsKeywords "St. Andrew's Church"] [] 0)
                                         (w2 := mkWorld [ParamsKeywords "St. Andrew's Church"; ParamsKeywords "St. Andrew's Church"] [] 0). Qed.

(** ** Geocode misses *)

(** A miss on a text without a comma: [str.index] raises in the
    handler, before any second lookup. *)
Lemma get_bounds_miss_without_comma (S : services) (s : string) (n : nat) w :
  locator_geocode S (QText s) = None ->
  String.index 0 "," s = None ->
  get_bounds S (QText s) n w
  = (Raise (ValueError "substring not found"), geo_logged w [QText s]).
Proof.
  intros Hmiss Hcomma.
  unfold get_bounds, bind, geocode, broader_query, lift, str_index_comma.
  rewrite Hmiss. simpl. unfold bind. rewrite Hcomma. reflexivity.
Qed.

(** A miss on a text with a comma: one more lookup, on what follows the
    first comma, and Canada when it misses too. *)
Lemma get_bounds_fallback (S : services) (s : string) (i n : nat) w :
  locator_geocode S (QText s) = None ->
  str_index_comma s = Ok i ->
  locator_geocode S (QText (lstrip (slice_from (i + 1) s))) = None ->
  get_bounds S (QText s) n w
  = (Ok canada,
     geo_logged w [QText s; QText (lstrip (slice_from (i + 1) s))]).
Proof.
  intros Hmiss Hcomma Hmiss2.
  unfold get_bounds, broader_query, bind, geocode, lift.
  rewrite Hmiss, Hcomma. cbv beta iota zeta. rewrite Hmiss2.
  unfold ret, geo_logged. cbn [es_log geo_log slept].
  now rewrite <- app_assoc.
Qed.

(** A structured address that misses has no [index] at all. *)
Lemma get_bounds_miss_dict (S : services) (d : list (string * string)) (n : nat) w :
  locator_geocode S (QDict d) = None ->
  get_bounds S (QDict d) n w
  = (Raise (AttributeError "index"), geo_logged w [QDict d]).
Proof.
  intros Hmiss. unfold get_bounds, bind, geocode, broader_query.
  rewrite Hmiss. reflexivity.
Qed.

Example get_bounds_retry_text :
  get_bounds plain_services (QText "12 Main St,  Halifax, NS") 1 world0
  = (Ok canada,
     mkWorld [] [QText "12 Main St,  Halifax, NS"; QText "Halifax, NS"] 0).
Proof. reflexivity. Qed.

(** C5. A geocode miss on a search string without a comma is
    propagated: [get_bounds] raises [ValueError], and so does the
    [WB_Match] that was given the string as boundary. *)
Theorem geocode_miss_without_comma_raises :
  get_bounds plain_services (QText "Atlantis") 1 world0
  = (Raise (ValueError "substring not found"),
     mkWorld [] [QText "Atlantis"] 0) /\
  WB_Match plain_services (index_of [church "a" 50 "A1A 1A1"])
           (Some "St. Andrew's Church") PyNone (Some (BoundsText "Atlantis"))
           None None 4 world0
  = (Raise (ValueError "substring not found"),
     mkWorld [] [QText "Atlantis"] 0).
Proof. split; reflexivity. Qed.

(** ** Requests sent by one query *)

Lemma get_bounds_es_log (S : services) (q : geo_query) (n : nat) w r w' :
  get_bounds S q n w = (r, w') -> es_log w' = es_log w.
Proof.
  unfold get_bounds, bind, geocode, broader_query, lift, ret, raise, sleep.
  destruct (locator_geocode S q) as [[[[south north] west] east]|]; simpl.
  - now intros [= _ <-].
  - destruct q as [s|d]; simpl.
    + unfold bind. destruct (str_index_comma s) as [i|e]; simpl.
      * destruct (locator_geocode S _) as [[[[south north] west] east]|];
          simpl; now intros [= _ <-].
      * now intros [= _ <-].
    + now intros [= _ <-].
Qed.

Lemma search_template_es_log (client : es_client) (p : es_params) w r w' :
  search_template client p w = (r, w') ->
  List.length (es_log w') = (List.length (es_log w) + 1)%nat.
Proof.
  unfold search_template.
  destruct (client _ p); intros [= _ <-]; simpl; now rewrite length_app.
Qed.

(** One run of [ES_Query] sends at most one request to the index. *)
Lemma ES_Query_one_request (S : services) (client : es_client)
    (namestring : option string) (postcode : pyval)
    (boundaries : option boundaries_arg) (polygon : option (list point))
    w r w' :
  ES_Query S client namestring postcode boundaries polygon w = (r, w') ->
  (List.length (es_log w') <= List.length (es_log w) + 1)%nat.
Proof.
  unfold ES_Query. destruct namestring as [keywords|].
  2:{ intros [= _ <-]. lia. }
  unfold bind at 1, lift at 1.
  destruct (normalize_postalcode S postcode) as [pc|e].
  2:{ intros [= _ <-]. lia. }
  unfold bind at 1, lift at 1.
  destruct (get_geocode S pc) as [center|e].
  2:{ intros [= _ <-]. lia. }
  unfold bind at 1.
  match goal with |- context [match ?c w with _ => _ end] =>
    destruct (c w) as [[hs|e] w1] eqn:E end.
  - unfold lift. intros [= _ <-].
    destruct polygon as [poly|].
    { apply search_template_es_log in E. lia. }
    destruct boundaries as [b|].
    { unfold bind in E.
      destruct (resolve_boundaries S b w) as [[bx|e] w2] eqn:Eb.
      - apply search_template_es_log in E.
        destruct b; simpl in Eb;
          try (apply get_bounds_es_log in Eb; rewrite Eb in E; lia).
        injection Eb as _ <-. lia.
      - discriminate E. }
    destruct center; apply search_template_es_log in E; lia.
  - intros [= _ <-].
    destruct polygon as [poly|].
    { apply search_template_es_log in E. lia. }
    destruct boundaries as [b|].
    { unfold bind in E.
      destruct (resolve_boundaries S b w) as [[bx|e'] w2] eqn:Eb.
      - apply search_template_es_log in E.
        destruct b; simpl in Eb;
          try (apply get_bounds_es_log in Eb; rewrite Eb in E; lia).
        injection Eb as _ <-. lia.
      - injection E as _ <-.
        destruct b; simpl in Eb;
          try (apply get_bounds_es_log in Eb; rewrite Eb; lia).
        discriminate Eb. }
    destruct center; apply search_template_es_log in E; lia.
Qed.

(** [WB_Match] queries the index at most three times. *)
Lemma WB_Match_at_most_three_requests (S : services) (client : es_client)
    (namestring : option string) (postcode : pyval)
    (boundaries : option boundaries_arg) (polygon : option (list point))
    (DiagnosticDictionary : option (list (string * string))) (epsilon : Q)
    w r w' :
  WB_Match S client namestring postcode boundaries polygon
           DiagnosticDictionary epsilon w = (r, w') ->
  (List.length (es_log w') <= List.length (es_log w) + 3)%nat.
Proof.
  unfold WB_Match, bind.
  destruct (query_attempts 3 _ w) as [[bound|e] w1] eqn:E; intros H.
  - apply (query_attempts_bound 3 _ (ES_Query_one_request _ _ _ _ _ _)) in E.
    destruct bound as [[msg|table]|]; injection H as _ <-; exact E.
  - apply (query_attempts_bound 3 _ (ES_Query_one_request _ _ _ _ _ _)) in E.
    injection H as _ <-. exact E.
Qed.

(** ** The [alsoKnownAs] column *)

Lemma existsb_filter {A} (p q : A -> bool) (l : list A) :
  existsb p (filter q l) = existsb (fun x => p x && q x) l.
Proof.
  induction l as [|a l IH]; simpl; [reflexivity|].
  destruct (q a); simpl; rewrite IH, ?andb_true_r, ?andb_false_r; reflexivity.
Qed.

Lemma existsb_pointwise {A} (p q : A -> bool) (l : list A) :
  (forall x, p x = q x) -> existsb p l = existsb q l.
Proof.
  intros H. induction l as [|a l IH]; simpl; [reflexivity|].
  now rewrite H, IH.
Qed.

Lemma existsb_dedup (c : string) (l : list string) :
  existsb (String.eqb c) (dedup l) = existsb (String.eqb c) l.
Proof.
  induction l as [|a l IH]; simpl; [reflexivity|].
  rewrite existsb_filter.
  destruct (String.eqb_spec c a) as [->|Hca]; simpl; [reflexivity|].
  rewrite <- IH. apply existsb_pointwise. intros d.
  destruct (String.eqb_spec c d) as [->|Hcd]; simpl; [|reflexivity].
  destruct (String.eqb_spec a d) as [->|Had]; simpl; congruence.
Qed.

Lemma existsb_flat_map {A B} (p : B -> bool) (f : A -> list B) (l : list A) :
  existsb p (flat_map f l) = existsb (fun a => existsb p (f a)) l.
Proof.
  induction l as [|a l IH]; simpl; [reflexivity|].
  now rewrite existsb_app, IH.
Qed.

(** The table has the column exactly when some hit has the field. *)
Lemma frame_of_hits_aka (hs : list hit) :
  has_column (frame_of_hits hs) "alsoKnownAs" = existsb has_aka hs.
Proof.
  unfold has_column, frame_of_hits, has_aka. simpl columns.
  change (existsb (String.eqb "alsoKnownAs") ("score" :: ?l))
    with (existsb (String.eqb "alsoKnownAs") l).
  now rewrite existsb_dedup, existsb_flat_map.
Qed.

Lemma set_cell_same (c : string) (v : pyval) (r : row) :
  cell (set_cell c v r) c = v.
Proof. unfold cell, set_cell. simpl. now rewrite String.eqb_refl. Qed.

Lemma add_column_has (c : string) (cols : list string) :
  existsb (String.eqb c) (add_column c cols) = true.
Proof.
  unfold add_column. destruct (existsb (String.eqb c) cols) eqn:E; [exact E|].
  rewrite existsb_app. simpl. now rewrite String.eqb_refl, orb_true_r.
Qed.

Lemma add_column_other (c d : string) (cols : list string) :
  c <> d ->
  existsb (String.eqb d) (add_column c cols) = existsb (String.eqb d) cols.
Proof.
  intros H. unfold add_column. destruct (existsb (String.eqb c) cols); [reflexivity|].
  rewrite existsb_app. simpl.
  destruct (String.eqb_spec d c); [congruence | now rewrite !orb_false_r].
Qed.

Lemma set_column_inv (df : DataFrame) (c : string) (vs : list pyval) df' :
  set_column df c vs = Ok df' ->
  List.length vs = nrows df /\
  df' = mkFrame (add_column c (columns df))
                (map (fun rv => set_cell c (snd rv) (fst rv))
                     (combine (rows df) vs)).
Proof.
  unfold set_column.
  destruct (Nat.eqb_spec (List.length vs) (nrows df)); [|discriminate].
  now intros [= <-].
Qed.

Lemma cells_of_combine (c : string) (rs : list row) (vs : list pyval) :
  List.length vs = List.length rs ->
  map (fun r => cell r c)
      (map (fun rv => set_cell c (snd rv) (fst rv)) (combine rs vs)) = vs.
Proof.
  revert vs. induction rs as [|r rs IH]; intros [|v vs] H; try discriminate H.
  - reflexivity.
  - simpl. rewrite set_cell_same. f_equal. apply IH. now injection H.
Qed.

(** Reading back a column that was just assigned. *)
Lemma getitem_set_column (df : DataFrame) (c : string) (vs : list pyval) df' :
  set_column df c vs = Ok df' -> getitem df' c = Ok vs.
Proof.
  intros H. apply set_column_inv in H as [Hlen ->].
  unfold getitem, has_column. simpl columns. rewrite add_column_has.
  simpl rows. now rewrite cells_of_combine.
Qed.

(** A single hit without the field gets the column, with the empty
    string. *)
Lemma candidate_table_one_lacking (h : hit) :
  has_aka h = false ->
  exists df, candidate_table [h] = Ok (Frame df) /\
             getitem df "alsoKnownAs" = Ok [PyStr ""].
Proof.
  intros H. unfold candidate_table. simpl List.length. simpl Nat.eqb. cbv iota.
  rewrite frame_of_hits_aka. simpl existsb. rewrite H. simpl negb. cbv iota.
  destruct (set_column (frame_of_hits [h]) "alsoKnownAs" [PyStr ""])
    as [df|e] eqn:E; [|discriminate E].
  exists df. split; [reflexivity|].
  now apply getitem_set_column in E.
Qed.

(** Two hits or more, none with the field: the one-element list does
    not fit the index and pandas raises. *)
Lemma candidate_table_many_lacking (hs : list hit) :
  (2 <= List.length hs)%nat ->
  existsb has_aka hs = false ->
  candidate_table hs
  = Raise (ValueError "Length of values does not match length of index").
Proof.
  intros Hlen H. unfold candidate_table.
  destruct (Nat.eqb_spec (List.length hs) 0) as [E|_]; [lia|].
  rewrite frame_of_hits_aka, H. simpl negb. cbv iota.
  unfold set_column, nrows. simpl rows. rewrite length_map. simpl List.length.
  destruct (Nat.eqb_spec 1 (List.length hs)) as [E|_]; [lia|]. reflexivity.
Qed.

(** When some hit has the field the table is left as it is: a hit
    without the field has NaN there, not the empty string. *)
Lemma candidate_table_some_with (hs : list hit) :
  existsb has_aka hs = true ->
  candidate_table hs = Ok (Frame (frame_of_hits hs)).
Proof.
  intros H. unfold candidate_table.
  destruct hs as [|h hs]; [discriminate H|].
  simpl List.length. simpl Nat.eqb. cbv iota.
  now rewrite frame_of_hits_aka, H.
Qed.

Example mixed_aka_is_nan :
  rbind (candidate_table [church "a" 50 "A1A 1A1"; chapel "b" 90])
        (fun t => match t with
                  | Frame df => getitem df "alsoKnownAs"
                  | Message _ => Ok []
                  end)
  = Ok [PyStr ""; PyFloat NaN].
Proof. reflexivity. Qed.

(** C7. Two hits that both omit [alsoKnownAs]: [ES_Query] returns no
    table, the assignment of the default column raises [ValueError]. *)
Theorem two_hits_without_aka_raise :
  ES_Query plain_services (index_of [chapel "a" 50; chapel "b" 51])
           (Some "Harbour Chapel") PyNone None None world0
  = (Raise (ValueError "Length of values does not match length of index"),
     mkWorld [ParamsKeywords "Harbour Chapel"] [] 0).
Proof. reflexivity. Qed.

(** ** Zero variance *)

Lemma Qlen_cons (y : Q) (l : list Q) : Qlen (y :: l) == Qlen l + 1.
Proof.
  unfold Qlen. simpl List.length. rewrite Nat2Z.inj_succ, <- Z.add_1_r.
  now rewrite inject_Z_plus.
Qed.

Lemma Qlen_nonzero (l : list Q) : l <> [] -> ~ Qlen l == 0.
Proof.
  destruct l as [|y l]; [congruence|]. intros _.
  unfold Qlen, Qeq. simpl Qnum. simpl Qden. simpl List.length. lia.
Qed.

Lemma Qsum_const (x : Q) (l : list Q) :
  Forall (fun y => y == x) l -> Qsum l == Qlen l * x.
Proof.
  induction 1 as [|y l Hy _ IH].
  - unfold Qlen. simpl. ring.
  - rewrite Qlen_cons. simpl. rewrite IH, Hy. ring.
Qed.

Lemma Qsum_zero (l : list Q) : Forall (fun y => y == 0) l -> Qsum l == 0.
Proof. intros H. rewrite (Qsum_const 0 l H). ring. Qed.

(** The mean of identical scores is their common value. *)
Lemma mean_const (x : Q) (l : list Q) :
  l <> [] -> Forall (fun y => y == x) l -> mean l == x.
Proof.
  intros Hne H. unfold mean. rewrite (Qsum_const x l H).
  field. now apply Qlen_nonzero.
Qed.

(** Their variance is zero. *)
Lemma variance_const (x : Q) (l : list Q) :
  l <> [] -> Forall (fun y => y == x) l -> variance l == 0.
Proof.
  intros Hne H. unfold variance.
  rewrite Qsum_zero.
  - field. now apply Qlen_nonzero.
  - apply Forall_map. eapply Forall_impl; [|exact H].
    intros y Hy. simpl. rewrite Hy, (mean_const x l Hne H). ring.
Qed.

Lemma Q2R_zero (q : Q) : q == 0 -> Q2R q = 0%R.
Proof. intros H. rewrite (Qeq_eqR _ _ H). unfold Q2R. simpl. lra. Qed.

(** So is the standard deviation the z-score divides by. *)
Lemma std_const (x : Q) (l : list Q) :
  l <> [] -> Forall (fun y => y == x) l -> std l = 0%R.
Proof.
  intros Hne H. unfold std.
  rewrite (Q2R_zero _ (variance_const x l Hne H)). apply sqrt_0.
Qed.

Lemma Rzero_0 : Rzero 0 = true.
Proof. unfold Rzero. destruct (Req_dec_T 0 0); [reflexivity | congruence]. Qed.

(** Every z-score is then [0/0]. *)
Lemma zero_over_zero (m x : Q) (l : list Q) :
  m == x -> Forall (fun y => y == x) l ->
  map (fun y => fdiv (float_of_Q (y - m)) (Fin 0)) l
  = repeat NaN (List.length l).
Proof.
  intros Hm H. induction H as [|y l Hy _ IH]; [reflexivity|].
  simpl. f_equal; [|exact IH].
  rewrite Rzero_0, (Q2R_zero (y - m)); [now rewrite Rzero_0|].
  rewrite Hy, Hm. ring.
Qed.

Lemma zscore_const (x : Q) (l : list Q) :
  l <> [] -> Forall (fun y => y == x) l ->
  zscore l = repeat NaN (List.length l).
Proof.
  intros Hne H. unfold zscore. rewrite (std_const x l Hne H).
  apply (zero_over_zero _ x); [now apply mean_const | exact H].
Qed.

Lemma map_repeat {A B} (f : A -> B) (a : A) (n : nat) :
  map f (repeat a n) = repeat (f a) n.
Proof. induction n as [|n IH]; simpl; [reflexivity | now rewrite IH]. Qed.

(** [get_confidence] itself never raises: the z column fits the table. *)
Lemma get_confidence_total (points : DataFrame) (thresh : pyfloat) :
  exists df, get_confidence points thresh = Ok df.
Proof.
  unfold get_confidence. destruct (nrows points =? 1)%nat; [eauto|].
  unfold set_column, zscore, scores, nrows. rewrite !length_map, Nat.eqb_refl.
  eauto.
Qed.

(** Scoring candidates whose scores are all the same: the standard
    deviation is zero and every candidate gets NaN. *)
Lemma get_confidence_const (points : DataFrame) (thresh : pyfloat) (x : Q) :
  (2 <= nrows points)%nat ->
  Forall (fun y => y == x) (scores points) ->
  std (scores points) = 0%R /\
  exists df, get_confidence points thresh = Ok df /\
             getitem df "z" = Ok (repeat (PyFloat NaN) (nrows points)).
Proof.
  intros Hn H.
  assert (Hne : scores points <> []).
  { unfold scores, nrows in *. destruct (rows points); simpl in *; [lia | discriminate]. }
  split; [now apply (std_const x)|].
  destruct (get_confidence_total points thresh) as [df Hdf].
  exists df. split; [exact Hdf|].
  unfold get_confidence in Hdf.
  destruct (Nat.eqb_spec (nrows points) 1) as [E|_]; [lia|].
  apply getitem_set_column in Hdf. rewrite Hdf. f_equal.
  rewrite (zscore_const x _ Hne H), map_repeat.
  unfold scores, nrows. now rewrite length_map.
Qed.

(** The same, row by row. *)
Lemma getitem_rows (df : DataFrame) (c : string) (vs : list pyval) :
  getitem df c = Ok vs -> map (fun r => cell r c) (rows df) = vs.
Proof.
  unfold getitem. destruct (has_column df c); [|discriminate].
  now intros [= <-].
Qed.

(** C6 (as the code has it). For candidates with identical scores, two
    or more, [get_confidence] raises nothing, but the z-score divides by
    a standard deviation of zero and every candidate is given NaN. *)
Theorem zero_variance_confidence_is_nan (points : DataFrame) (x : Q) :
  (2 <= nrows points)%nat ->
  Forall (fun y => y == x) (scores points) ->
  std (scores points) = 0%R /\
  exists df, get_confidence points thresh_default = Ok df /\
             Forall (fun r => cell r "z" = PyFloat NaN) (rows df) /\
             nrows df = nrows points.
Proof.
  intros Hn H.
  destruct (get_confidence_const points thresh_default x Hn H)
    as [Hstd [df [Hdf Hz]]].
  split; [exact Hstd|]. exists df. split; [exact Hdf|].
  apply getitem_rows in Hz.
  split.
  - apply Forall_forall. intros r Hr.
    apply (in_map (fun r => cell r "z")) in Hr. rewrite Hz in Hr.
    now apply repeat_spec in Hr.
  - apply (f_equal (@List.length _)) in Hz.
    now rewrite length_map, repeat_length in Hz.
Qed.

Lemma zero_variance_confidence_is_nan_witness :
  std (scores tied_pair) = 0%R /\
  exists df, get_confidence tied_pair thresh_default = Ok df /\
             Forall (fun r => cell r "z" = PyFloat NaN) (rows df) /\
             nrows df = nrows tied_pair.
Proof.
  apply (zero_variance_confidence_is_nan tied_pair 50).
  - unfold nrows, tied_pair. simpl. lia.
  - unfold scores, tied_pair. simpl. repeat constructor; reflexivity.
Defined.

(** C6 (as the specification has it) fails: it is not true that every
    candidate of a set of identical scores gets a well-defined
    confidence. *)
Lemma zero_variance_not_well_defined :
  ~ (forall points : DataFrame,
       (2 <= nrows points)%nat ->
       (forall a b, In a (scores points) -> In b (scores points) -> a == b) ->
       exists df, get_confidence points thresh_default = Ok df /\
                  Forall (fun r => well_defined (cell r "z")) (rows df)).
Proof.
  intros claim.
  destruct (claim tied_pair) as [df [Hdf Hwell]].
  - unfold nrows, tied_pair. simpl. lia.
  - unfold scores, tied_pair. simpl. intros a b [<-|[<-|[]]] [<-|[<-|[]]]; reflexivity.
  - destruct (get_confidence_const tied_pair thresh_default 50)
      as [_ [df' [Hdf' Hz]]].
    + unfold nrows, tied_pair. simpl. lia.
    + unfold scores, tied_pair. simpl. repeat constructor; reflexivity.
    + rewrite Hdf in Hdf'. injection Hdf' as <-.
      apply getitem_rows in Hz.
      destruct (rows df) as [|r rs]; [discriminate Hz|].
      injection Hz as Hr _. inversion Hwell as [|? ? [v Hv] _]; subst.
      rewrite Hv in Hr. discriminate Hr.
Qed.

(** ** Clustering *)

Lemma spread_length (eps : Q) (xs : list Q) (marked : list bool) :
  List.length (spread eps xs marked) = List.length xs.
Proof. unfold spread. apply length_map. Qed.

Lemma reachable_length (eps : Q) (xs : list Q) (i : nat) :
  List.length (reachable eps xs i) = List.length xs.
Proof.
  unfold reachable. destruct (List.length xs) as [|n] eqn:E.
  - simpl. reflexivity.
  - simpl. now rewrite spread_length.
Qed.

Lemma paint_length (label : Z) (comp : list bool) (labels : list Z) :
  List.length comp = List.length labels ->
  List.length (paint label comp labels) = List.length labels.
Proof.
  intros H. unfold paint. rewrite length_map, length_combine. lia.
Qed.

Lemma dbscan_loop_length (eps : Q) (xs : list Q) (todo : list nat) :
  forall labels label_num,
    List.length labels = List.length xs ->
    List.length (dbscan_loop eps xs todo labels label_num) = List.length xs.
Proof.
  induction todo as [|i todo IH]; intros labels label_num H; simpl; [exact H|].
  destruct (nth i labels (-1) =? -1)%Z; apply IH; [|exact H].
  rewrite paint_length; [exact H|]. now rewrite reachable_length.
Qed.

(** DBSCAN labels every point, provided [eps] is positive. *)
Lemma DBSCAN_labels (eps : Q) (xs : list Q) :
  0 < eps ->
  exists labels, DBSCAN_fit_predict eps xs = Ok labels /\
                 List.length labels = List.length xs.
Proof.
  intros Heps. unfold DBSCAN_fit_predict.
  destruct (Qle_bool eps 0) eqn:E.
  - apply Qle_bool_iff in E. exfalso. apply (Qlt_not_le _ _ Heps E).
  - eexists. split; [reflexivity|].
    apply dbscan_loop_length. apply repeat_length.
Qed.

(** [get_cluster] adds the labels as the column [clusters] and changes
    nothing else. *)
Lemma get_cluster_shape (results : DataFrame) (eps : Q) :
  0 < eps ->
  exists labels,
    List.length labels = nrows results /\
    get_cluster results eps
    = Ok (mkFrame (add_column "clusters" (columns results))
                  (map (fun rv => set_cell "clusters" (snd rv) (fst rv))
                       (combine (rows results) (map PyInt labels)))).
Proof.
  intros Heps. destruct (DBSCAN_labels eps (scores results) Heps) as [labels [H Hlen]].
  unfold scores in Hlen. rewrite length_map in Hlen.
  exists labels. split; [exact Hlen|].
  unfold get_cluster. rewrite H. simpl. unfold set_column.
  rewrite length_map, Hlen. fold (nrows results). now rewrite Nat.eqb_refl.
Qed.

(** The maximum is one of the scores. *)
Lemma fold_Qmax2_in (l : list Q) (x : Q) : In (fold_left Qmax2 l x) (x :: l).
Proof.
  revert x. induction l as [|y l IH]; intros x; simpl; [now left|].
  destruct (IH (Qmax2 x y)) as [H|H]; [|auto].
  rewrite <- H. unfold Qmax2. destruct (Qle_bool x y); auto.
Qed.

Lemma Qeq_bool_refl (x : Q) : Qeq_bool x x = true.
Proof. apply Qeq_bool_iff. reflexivity. Qed.

(** A table with a row has a top-scored row. *)
Lemma top_row_exists (df : DataFrame) :
  rows df <> [] -> exists r, In r (rows df) /\ is_top df r = true.
Proof.
  intros Hne. unfold is_top, score_max, scores.
  destruct (rows df) as [|r0 rs] eqn:E; [congruence|]. simpl map.
  pose proof (fold_Qmax2_in (map r_score rs) (r_score r0)) as Hin.
  change (r_score r0 :: map r_score rs) with (map r_score (r0 :: rs)) in Hin.
  apply in_map_iff in Hin as [r [Hr Hin]].
  exists r. split; [exact Hin|]. rewrite <- Hr. apply Qeq_bool_refl.
Qed.

Lemma filter_first {A} (p : A -> bool) (l : list A) :
  (exists a, In a l /\ p a = true) ->
  exists a l', filter p l = a :: l' /\ In a l /\ p a = true.
Proof.
  intros [a [Hin Hp]]. induction l as [|b l IH]; [destruct Hin|].
  simpl. destruct (p b) eqn:E.
  - exists b, (filter p l). auto with datatypes.
  - destruct Hin as [->|Hin]; [congruence|].
    destruct (IH Hin) as [a' [l' [H1 [H2 H3]]]].
    exists a', l'. auto with datatypes.
Qed.

Lemma filter_length_pos {A} (p : A -> bool) (l : list A) (a : A) :
  In a l -> p a = true -> (1 <= List.length (filter p l))%nat.
Proof.
  intros Hin Hp.
  destruct (filter_first p l (ex_intro _ a (conj Hin Hp))) as [b [l' [H _]]].
  rewrite H. simpl. lia.
Qed.

(** After [get_cluster], every row carries an integer label. *)
Lemma labelled_rows (c : string) (rs : list row) (labels : list Z) (r : row) :
  In r (map (fun rv => set_cell c (snd rv) (fst rv))
            (combine rs (map PyInt labels))) ->
  exists n, cell r c = PyInt n.
Proof.
  intros H. apply in_map_iff in H as [[r0 v] [<- Hin]].
  apply in_combine_r in Hin. apply in_map_iff in Hin as [n [<- _]].
  exists n. apply set_cell_same.
Qed.

Lemma py_eqb_label (n : Z) : py_eqb (PyInt n) (PyInt n) = true.
Proof. simpl. apply Z.eqb_refl. Qed.

(** The target cluster is found, and the top-scored row is one of its
    members. *)
Lemma targetcluster_found (clustered : DataFrame) :
  has_column clustered "clusters" = true ->
  (forall r, In r (rows clustered) -> exists n, cell r "clusters" = PyInt n) ->
  rows clustered <> [] ->
  exists target, targetcluster clustered = Ok target /\
                 (1 <= target_cluster_size clustered target)%nat.
Proof.
  intros Hcol Hlab Hne.
  destruct (filter_first (is_top clustered) (rows clustered)
              (top_row_exists clustered Hne)) as [r [rs [Hf [Hin _]]]].
  destruct (Hlab r Hin) as [n Hn].
  exists (PyInt n). split.
  - unfold targetcluster, getitem.
    change (has_column (select_rows (is_top clustered) clustered) "clusters")
      with (has_column clustered "clusters").
    rewrite Hcol.
    change (rows (select_rows (is_top clustered) clustered))
      with (filter (is_top clustered) (rows clustered)).
    rewrite Hf. simpl. now rewrite Hn.
  - unfold target_cluster_size, nrows.
    change (rows (select_rows ?p clustered)) with (filter p (rows clustered)).
    apply filter_length_pos with (a := r); [exact Hin|].
    rewrite Hn. apply py_eqb_label.
Qed.

(** Once the query has bound a table, [WB_Match] is [resolve] on it. *)
Lemma WB_Match_table (S : services) (client : es_client)
    (namestring : option string) (postcode : pyval)
    (boundaries : option boundaries_arg) (polygon : option (list point))
    (DiagnosticDictionary : option (list (string * string))) (epsilon : Q)
    w table w' :
  query_attempts 3 (ES_Query S client namestring postcode boundaries polygon) w
    = (Ok (Some (Frame table)), w') ->
  WB_Match S client namestring postcode boundaries polygon
           DiagnosticDictionary epsilon w
  = (resolve S namestring postcode DiagnosticDictionary epsilon table, w').
Proof. intros H. unfold WB_Match. now rewrite (bind_ok _ _ _ _ _ H). Qed.

(** The clustering stage on a table of two rows or more. *)
Lemma clustering_decision (results : DataFrame) (epsilon : Q) :
  (1 < nrows results)%nat ->
  0 < epsilon ->
  exists clustered target,
    get_cluster results epsilon = Ok clustered /\
    targetcluster clustered = Ok target /\
    (1 <= target_cluster_size clustered target)%nat /\
    clustering results epsilon
    = Ok (if (target_cluster_size clustered target =? 1)%nat
          then Some clustered else None).
Proof.
  intros Hn Heps.
  destruct (get_cluster_shape results epsilon Heps) as [labels [Hlen Hc]].
  set (clustered := mkFrame _ _) in Hc.
  destruct (targetcluster_found clustered) as [target [Ht Hsize]].
  - unfold has_column. apply add_column_has.
  - intros r Hr. apply (labelled_rows _ _ _ _ Hr).
  - intros E. apply (f_equal (@List.length _)) in E.
    unfold clustered in E. simpl in E.
    rewrite length_map, length_combine, length_map, Hlen in E.
    fold (nrows results) in E. lia.
  - exists clustered, target. repeat split; try assumption.
    unfold clustering. apply Nat.ltb_lt in Hn. rewrite Hn, Hc. simpl.
    rewrite Ht. simpl.
    now destruct (target_cluster_size clustered target =? 1)%nat.
Qed.

(** ** Selection and output *)

Lemma getattr_inv (df : DataFrame) (c : string) (vs : list pyval) :
  getattr df c = Ok vs ->
  has_column df c = true /\ vs = map (fun r => cell r c) (rows df).
Proof.
  unfold getattr. destruct (has_column df c); [|discriminate].
  now intros [= <-].
Qed.

Lemma getitem_inv (df : DataFrame) (c : string) (vs : list pyval) :
  getitem df c = Ok vs ->
  has_column df c = true /\ vs = map (fun r => cell r c) (rows df).
Proof.
  unfold getitem. destruct (has_column df c); [|discriminate].
  now intros [= <-].
Qed.

Lemma rbind_inv {A B} (r : result A) (k : A -> result B) (b : B) :
  rbind r k = Ok b -> exists a, r = Ok a /\ k a = Ok b.
Proof. destruct r as [a|e]; simpl; [eauto | discriminate]. Qed.

(** What a produced output list is made of: the fields of one row [r],
    the first of the top-scored rows. *)
Lemma finalizing_inv (S : services) (namestring : option string)
    (DiagnosticDictionary : option (list (string * string)))
    (results : DataFrame) (out : list outval) :
  finalizing S namestring DiagnosticDictionary results = Ok (Some out) ->
  exists r rs name extra,
    filter (is_top results) (rows results) = r :: rs /\
    namestring = Some name /\
    let selected := select_rows (is_top results) results in
    let NAME := py_str S (cell r "name") in
    let ALSO := join "," (map (fun r => py_str S (cell r "alsoKnownAs")) (r :: rs)) in
    let LEV := Z.max (partial_ratio S (lower S name) (lower S NAME))
                     (partial_ratio S (lower S name) (lower S ALSO)) in
    let DENOM := py_str S (cell r "tags.denomination") in
    let PC := py_str S (cell r "postalCode") in
    diagnostics selected DENOM PC DiagnosticDictionary = Ok extra /\
    out = ([Scalar (PyStr (r_id r)); Scalar (cell r "z"); Scalar (PyStr NAME);
            Scalar (PyStr ALSO); Scalar (PyStr (py_str S (cell r "locality")));
            Scalar (PyStr PC); Scalar (PyStr DENOM); Scalar (PyInt LEV);
            Scalar (combined_confidence LEV (cell r "z"))] ++ extra)%list.
Proof.
  unfold finalizing. destruct (nrows results =? 0)%nat; [discriminate|].
  cbv zeta. intros H.
  apply rbind_inv in H as [CONF [H1 H]]. apply getattr_inv in H1 as [_ ->].
  apply rbind_inv in H as [NAME [H1 H]]. apply getattr_inv in H1 as [_ ->].
  apply rbind_inv in H as [ALSO [H1 H]]. apply getattr_inv in H1 as [_ ->].
  apply rbind_inv in H as [LOC [H1 H]]. apply getattr_inv in H1 as [_ ->].
  apply rbind_inv in H as [PC [H1 H]]. apply getattr_inv in H1 as [_ ->].
  apply rbind_inv in H as [DENOM [H1 H]]. apply getitem_inv in H1 as [_ ->].
  change (rows (select_rows (is_top results) results))
    with (filter (is_top results) (rows results)) in H.
  destruct (filter (is_top results) (rows results)) as [|r rs]; [discriminate H|].
  simpl in H. destruct namestring as [name|]; [|discriminate H].
  apply rbind_inv in H as [extra [Hd H]]. injection H as <-.
  exists r, rs, name, extra. repeat split.
  - exact Hd.
  - now rewrite map_map.
Qed.

Lemma set_cell_other (c d : string) (v : pyval) (r : row) :
  c <> d -> cell (set_cell c v r) d = cell r d.
Proof.
  intros H. unfold cell, set_cell. simpl.
  destruct (String.eqb_spec d c) as [->|_]; [congruence|].
  induction (r_cells r) as [|[k x] l IH]; simpl; [reflexivity|].
  destruct (String.eqb_spec c k) as [->|Hck]; simpl.
  - destruct (String.eqb_spec d k) as [->|_]; [congruence | exact IH].
  - destruct (String.eqb_spec d k); [reflexivity | exact IH].
Qed.

(** The stages a run that returns an output list went through. *)
Lemma WB_Match_inv (S : services) (client : es_client)
    (namestring : option string) (postcode : pyval)
    (boundaries : option boundaries_arg) (polygon : option (list point))
    (DiagnosticDictionary : option (list (string * string))) (epsilon : Q)
    w out w' :
  WB_Match S client namestring postcode boundaries polygon
           DiagnosticDictionary epsilon w = (Ok (Some out), w') ->
  exists table results clustered,
    query_attempts 3 (ES_Query S client namestring postcode boundaries polygon) w
      = (Ok (Some (Frame table)), w') /\
    scoring S table postcode = Ok results /\
    clustering results epsilon = Ok (Some clustered) /\
    finalizing S namestring DiagnosticDictionary clustered = Ok (Some out).
Proof.
  unfold WB_Match, bind.
  destruct (query_attempts 3 _ w) as [[[[msg|table]|]|e] w1];
    try discriminate.
  unfold lift, resolve. intros [= H <-].
  apply rbind_inv in H as [results [Hs H]].
  apply rbind_inv in H as [[clustered|] [Hc H]]; [|discriminate H].
  exists table, results, clustered. auto.
Qed.

(** ** Diagnostic fields *)

Lemma set_column_other (df : DataFrame) (c d : string) (vs : list pyval) df' :
  set_column df c vs = Ok df' -> c <> d -> has_column df' d = has_column df d.
Proof.
  intros H Hcd. apply set_column_inv in H as [_ ->].
  unfold has_column. simpl. now apply add_column_other.
Qed.

Lemma set_column_scalar_other (df : DataFrame) (c d : string) (v : pyval) :
  c <> d -> has_column (set_column_scalar df c v) d = has_column df d.
Proof. intros H. unfold has_column. simpl. now apply add_column_other. Qed.

Lemma get_confidence_other (points : DataFrame) (thresh : pyfloat) df (d : string) :
  get_confidence points thresh = Ok df -> "z" <> d ->
  has_column df d = has_column points d.
Proof.
  unfold get_confidence. destruct (nrows points =? 1)%nat.
  - intros [= <-] H. now apply set_column_scalar_other.
  - apply set_column_other.
Qed.

(** Scoring touches the columns [postalCode] and [z] only. *)
Lemma scoring_other (S : services) (table : DataFrame) (postcode : pyval) (results : DataFrame)
    (d : string) :
  scoring S table postcode = Ok results -> "z" <> d -> "postalCode" <> d ->
  has_column results d = has_column table d.
Proof.
  unfold scoring. intros H Hz Hp. apply rbind_inv in H as [pc [_ H]].
  assert (Hpost :
    rbind (getitem table "postalCode") (fun cells =>
    rbind (rmapM (normalize_postalcode S) cells) (fun normalized =>
    rbind (set_column table "postalCode" normalized) (fun results =>
    let results :=
      select_rows (fun r => py_eqb (cell r "postalCode") pc) results in
    if (1 <? nrows results)%nat
    then get_confidence results thresh_default
    else Ok (set_column_scalar results "z" (PyStr "Sole Postal Code")))))
    = Ok results ->
    has_column results d = has_column table d).
  { clear H. intros H.
    apply rbind_inv in H as [cells [_ H]].
    apply rbind_inv in H as [normalized [_ H]].
    apply rbind_inv in H as [df [Hdf H]]. cbv zeta in H.
    rewrite <- (set_column_other _ _ d _ _ Hdf Hp).
    destruct (1 <? nrows _)%nat.
    - now rewrite (get_confidence_other _ _ _ d H Hz).
    - injection H as <-. now rewrite set_column_scalar_other. }
  destruct pc; try (now apply Hpost).
  now apply (get_confidence_other _ _ _ d H).
Qed.

(** Clustering touches the column [clusters] only. *)
Lemma clustering_other (results : DataFrame) (epsilon : Q) (clustered : DataFrame)
    (d : string) :
  clustering results epsilon = Ok (Some clustered) -> "clusters" <> d ->
  has_column clustered d = has_column results d.
Proof.
  unfold clustering. destruct (1 <? nrows results)%nat.
  2:{ now intros [= <-]. }
  intros H Hd. apply rbind_inv in H as [df [Hc H]].
  apply rbind_inv in H as [target [_ H]].
  destruct (negb _); [discriminate H|]. injection H as <-.
  unfold get_cluster in Hc. apply rbind_inv in Hc as [labels [_ Hc]].
  now apply (set_column_other _ _ d _ _ Hc).
Qed.

(** A missing column stops the comparison dictionary. *)
Lemma ComparisonDictionary_missing (df : DataFrame) (DENOM PC : string) :
  (exists c, In c diagnostic_columns /\ has_column df c = false) ->
  exists k, ComparisonDictionary df DENOM PC = Raise (KeyError k).
Proof.
  intros [c [Hin Hc]]. unfold ComparisonDictionary, getitem.
  destruct (has_column df "faith") eqn:E1; [|eexists; reflexivity].
  destruct (has_column df "tags.age") eqn:E2; [|eexists; reflexivity].
  destruct (has_column df "tags.category") eqn:E3; [|eexists; reflexivity].
  destruct (has_column df "tags.culture") eqn:E4; [|eexists; reflexivity].
  destruct (has_column df "tags.faithstream") eqn:E5; [|eexists; reflexivity].
  destruct (has_column df "tags.language") eqn:E6; [|eexists; reflexivity].
  simpl in Hin. intuition (subst; congruence).
Qed.

(** Otherwise it has the eight keys. *)
Lemma ComparisonDictionary_keys (df : DataFrame) (DENOM PC : string) comparisons :
  ComparisonDictionary df DENOM PC = Ok comparisons ->
  map fst comparisons = diagnostic_keys.
Proof.
  unfold ComparisonDictionary. intros H.
  do 6 (apply rbind_inv in H as [? [_ H]]).
  now injection H as <-.
Qed.

Lemma assoc_absent {A} (k : string) (l : list (string * A)) :
  ~ In k (map fst l) -> assoc k l = None.
Proof.
  induction l as [|[k' v] l IH]; simpl; [reflexivity|]. intros H.
  destruct (String.eqb_spec k k') as [->|_]; [tauto|]. apply IH. tauto.
Qed.

(** A key with a non-empty value that the comparison dictionary does
    not have stops the loop. *)
Lemma diagnostic_loop_unsupported comparisons (entries : list (string * string)) :
  (exists k v, In (k, v) entries /\ v <> "" /\ ~ In k (map fst comparisons)) ->
  exists k, diagnostic_loop comparisons entries = Raise (KeyError k).
Proof.
  intros [k [v [Hin [Hv Hk]]]].
  induction entries as [|[i expected] entries IH]; [destruct Hin|].
  simpl.
  destruct (String.eqb_spec expected "") as [->|Hne]; simpl.
  - destruct Hin as [[= _ <-]|Hin]; [congruence|].
    destruct (IH Hin) as [k' ->]. eexists. reflexivity.
  - destruct (assoc i comparisons) as [c|] eqn:E; simpl.
    + destruct Hin as [[= -> _]|Hin].
      * rewrite (assoc_absent _ _ Hk) in E. discriminate E.
      * destruct (IH Hin) as [k' ->]. eexists. reflexivity.
    + eexists. reflexivity.
Qed.

(** With or without a dictionary, the run is the same up to the
    diagnostic fields. *)
Lemma finalizing_diagnostics (S : services) (namestring : option string)
    (results : DataFrame) (out : list outval) :
  finalizing S namestring None results = Ok (Some out) ->
  exists DENOM PC, forall DiagnosticDictionary,
    finalizing S namestring DiagnosticDictionary results
    = rbind (diagnostics (select_rows (is_top results) results) DENOM PC
                         DiagnosticDictionary)
            (fun extra => Ok (Some (out ++ extra)%list)).
Proof.
  unfold finalizing. destruct (nrows results =? 0)%nat; [discriminate|].
  cbv zeta.
  destruct (getattr _ "z") as [CONF|]; [|discriminate]. simpl.
  destruct (getattr _ "name") as [NAME|]; [|discriminate]. simpl.
  destruct (getattr _ "alsoKnownAs") as [ALSO|]; [|discriminate]. simpl.
  destruct (getattr _ "locality") as [LOC|]; [|discriminate]. simpl.
  destruct (getattr _ "postalCode") as [PC|]; [|discriminate]. simpl.
  destruct (getitem _ "tags.denomination") as [DENOM|]; [|discriminate]. simpl.
  destruct (first (map r_id _)) as [ID0|]; [|discriminate]. simpl.
  destruct (first CONF) as [CONF0|]; [|discriminate]. simpl.
  destruct (first NAME) as [NAME0|]; [|discriminate]. simpl.
  destruct (first LOC) as [LOC0|]; [|discriminate]. simpl.
  destruct (first PC) as [PC0|]; [|discriminate]. simpl.
  destruct (first DENOM) as [DENOM0|]; [|discriminate]. simpl.
  destruct namestring as [name|]; [|discriminate].
  intros [= <-]. exists (py_str S DENOM0), (py_str S PC0). intros DD.
  destruct (diagnostics _ _ _ DD); reflexivity.
Qed.

(** C10. A run that returns a result without a diagnostic dictionary
    raises [KeyError] with one (empty or not) as soon as the retrieved
    table lacks one of the six columns the comparison dictionary reads,
    whatever the keys of the caller, or the caller has a key with a
    non-empty value outside the eight supported names. *)
Theorem diagnostics_key_error (S : services) (client : es_client)
    (namestring : option string) (postcode : pyval)
    (boundaries : option boundaries_arg) (polygon : option (list point))
    (entries : list (string * string)) (epsilon : Q)
    (w w' : world) (table : DataFrame) (out : list outval) :
  query_attempts 3 (ES_Query S client namestring postcode boundaries polygon) w
    = (Ok (Some (Frame table)), w') ->
  WB_Match S client namestring postcode boundaries polygon None epsilon w
    = (Ok (Some out), w') ->
  (exists c, In c diagnostic_columns /\ has_column table c = false) \/
  (exists k v, In (k, v) entries /\ v <> "" /\ ~ In k diagnostic_keys) ->
  exists k,
    WB_Match S client namestring postcode boundaries polygon (Some entries)
             epsilon w
    = (Raise (KeyError k), w').
Proof.
  intros Hq H Hbad.
  apply WB_Match_inv in H as [table' [results [clustered [Hq' [Hs [Hc Hf]]]]]].
  rewrite Hq in Hq'. injection Hq' as <-.
  rewrite (WB_Match_table _ _ _ _ _ _ _ _ _ _ _ Hq).
  unfold resolve. rewrite Hs. cbn [rbind]. rewrite Hc. cbn [rbind].
  destruct (finalizing_diagnostics _ _ _ _ Hf) as [DENOM [PC Hd]].
  rewrite Hd. cbn [diagnostics].
  set (selected := select_rows (is_top clustered) clustered).
  assert (Hcols : forall c, In c diagnostic_columns ->
                            has_column selected c = has_column table c).
  { intros c Hin.
    change (has_column selected c) with (has_column clustered c).
    rewrite (clustering_other _ _ _ c Hc), (scoring_other _ _ _ _ c Hs);
      [reflexivity | | |]; intros <-; simpl in Hin;
      intuition discriminate. }
  destruct (ComparisonDictionary selected DENOM PC) as [comparisons|e] eqn:E.
  - destruct Hbad as [[c [Hin Hmiss]] | Hkey].
    + destruct (ComparisonDictionary_missing selected DENOM PC) as [k Hk].
      * exists c. split; [exact Hin|]. now rewrite Hcols.
      * rewrite Hk in E. discriminate E.
    + apply ComparisonDictionary_keys in E.
      destruct (diagnostic_loop_unsupported comparisons entries) as [k Hk].
      * now rewrite E.
      * exists k. simpl. now rewrite Hk.
  - assert (exists k, e = KeyError k) as [k ->].
    { unfold ComparisonDictionary, getitem in E.
      repeat (match type of E with
              | context [has_column ?d ?c] => destruct (has_column d c)
              end; simpl in E; [|injection E as <-; eauto]).
      discriminate E. }
    exists k. reflexivity.
Qed.

(** A table with every column of the diagnostic fields, and a caller's
    dictionary with a key the module does not know. *)
Lemma diagnostics_key_error_witness :
  exists k,
    WB_Match plain_services (index_of [parish "p" 42]) (Some "Holy Cross Parish")
             PyNone None None (Some [("DenomBool", "Catholic"); ("CityBool", "Ottawa")])
             4 world0
    = (Raise (KeyError k), mkWorld [ParamsKeywords "Holy Cross Parish"] [] 0).
Proof.
  apply (diagnostics_key_error plain_services (index_of [parish "p" 42])
           (Some "Holy Cross Parish") PyNone None None
           [("DenomBool", "Catholic"); ("CityBool", "Ottawa")] 4 world0
           (mkWorld [ParamsKeywords "Holy Cross Parish"] [] 0)
           (frame_of_hits [parish "p" 42])
           [Scalar (PyStr "p"); Scalar (PyStr "Sole Return Before Clustering");
            Scalar (PyStr "Holy Cross Parish"); Scalar (PyStr "");
            Scalar (PyStr "Ottawa"); Scalar (PyStr "K1A 0B1");
            Scalar (PyStr "Catholic"); Scalar (PyInt 100); Scalar (PyInt 100)]).
  - reflexivity.
  - reflexivity.
  - right. exists "CityBool", "Ottawa". split; [simpl; auto|].
    split; [discriminate|]. simpl. intuition discriminate.
Defined.

(** The candidates of the sample index lack the column [faith]: any
    dictionary, even one that asks for nothing, raises. *)
Example diagnostics_missing_column :
  WB_Match plain_services (index_of [church "a" 50 "A1A 1A1"])
           (Some "St. Andrew's Church") PyNone None None
           (Some [("DenomBool", "")]) 4 world0
  = (Raise (KeyError "faith"), mkWorld [ParamsKeywords "St. Andrew's Church"] [] 0).
Proof. reflexivity. Qed.

(** With the columns and supported keys only, the booleans follow the
    nine fields. *)
Example diagnostics_supported_keys :
  WB_Match plain_services (index_of [parish "p" 42]) (Some "Holy Cross Parish")
           PyNone None None
           (Some [("DenomBool", "Catholic"); ("PostBool", ""); ("FaithBool", "Muslim")])
           4 world0
  = (Ok (Some [Scalar (PyStr "p"); Scalar (PyStr "Sole Return Before Clustering");
               Scalar (PyStr "Holy Cross Parish"); Scalar (PyStr "");
               Scalar (PyStr "Ottawa"); Scalar (PyStr "K1A 0B1");
               Scalar (PyStr "Catholic"); Scalar (PyInt 100); Scalar (PyInt 100);
               Scalar (PyBool true); Scalar (PyStr ""); BoolSeries [false]]),
     mkWorld [ParamsKeywords "Holy Cross Parish"] [] 0).
Proof. reflexivity. Qed.

(** ** Identical scores are one cluster *)

Lemma within_same (eps x a b : Q) :
  0 < eps -> a == x -> b == x -> within eps a b = true.
Proof.
  intros Heps Ha Hb. unfold within. apply Qle_bool_iff.
  assert (E : a - b == 0) by (rewrite Ha, Hb; ring).
  rewrite E. simpl. now apply Qlt_le_weak.
Qed.

Lemma combine_marked {A} (xs : list A) (marked : list bool) :
  List.length marked = List.length xs ->
  existsb (fun b : bool => b) marked = true ->
  exists a, In (a, true) (combine xs marked).
Proof.
  revert marked. induction xs as [|a xs IH]; intros [|m marked] Hlen H;
    try discriminate.
  simpl in H. destruct m.
  - exists a. now left.
  - destruct (IH marked) as [b Hb]; [now injection Hlen | exact H |].
    exists b. now right.
Qed.

Lemma map_all_true {A} (f : A -> bool) (l : list A) :
  (forall y, In y l -> f y = true) -> map f l = repeat true (List.length l).
Proof.
  induction l as [|a l IH]; intros H; simpl; [reflexivity|].
  rewrite H by now left. f_equal. apply IH. intros y Hy. apply H. now right.
Qed.

(** One marked point reaches every point. *)
Lemma spread_of_marked (eps x : Q) (xs : list Q) (marked : list bool) :
  0 < eps -> Forall (fun y => y == x) xs ->
  List.length marked = List.length xs ->
  existsb (fun b : bool => b) marked = true ->
  spread eps xs marked = repeat true (List.length xs).
Proof.
  intros Heps Hx Hlen Hm. unfold spread. apply map_all_true. intros y Hy.
  destruct (combine_marked xs marked Hlen Hm) as [a Ha].
  apply existsb_exists. exists (a, true). split; [exact Ha|]. simpl.
  rewrite Forall_forall in Hx.
  apply (within_same eps x); auto. apply Hx. now apply in_combine_l in Ha.
Qed.

Lemma seed_marked (n i : nat) :
  (i < n)%nat -> List.length (seed n i) = n /\ existsb (fun b : bool => b) (seed n i) = true.
Proof.
  intros Hi. unfold seed. split; [now rewrite length_map, length_seq|].
  apply existsb_exists. exists true. split; [|reflexivity].
  apply in_map_iff. exists i. split; [apply Nat.eqb_refl|].
  apply in_seq. lia.
Qed.

Lemma iter_spread_marked (eps x : Q) (xs : list Q) (i k : nat) :
  0 < eps -> Forall (fun y => y == x) xs -> (i < List.length xs)%nat ->
  let m := Nat.iter k (spread eps xs) (seed (List.length xs) i) in
  List.length m = List.length xs /\ existsb (fun b : bool => b) m = true.
Proof.
  intros Heps Hx Hi. induction k as [|k [IH1 IH2]]; simpl.
  - now apply seed_marked.
  - rewrite (spread_of_marked eps x) by assumption.
    split; [apply repeat_length|].
    destruct (List.length xs); [lia | reflexivity].
Qed.

Lemma reachable_all (eps x : Q) (xs : list Q) (i : nat) :
  0 < eps -> Forall (fun y => y == x) xs -> (i < List.length xs)%nat ->
  reachable eps xs i = repeat true (List.length xs).
Proof.
  intros Heps Hx Hi. unfold reachable.
  destruct (List.length xs) as [|k] eqn:E at 1; [lia|].
  destruct (iter_spread_marked eps x xs i k Heps Hx Hi) as [H1 H2].
  simpl Nat.iter. now apply (spread_of_marked eps x).
Qed.

Lemma paint_all (n : nat) : paint 0 (repeat true n) (repeat (-1)%Z n) = repeat 0%Z n.
Proof. induction n as [|n IH]; [reflexivity|]. unfold paint in *. simpl. now rewrite IH. Qed.

Lemma nth_repeat_lt {A} (a d : A) (n i : nat) : (i < n)%nat -> nth i (repeat a n) d = a.
Proof.
  revert i. induction n as [|n IH]; intros [|i] H; simpl; try lia; [reflexivity|].
  apply IH. lia.
Qed.

(** Points that already have a label are passed over. *)
Lemma dbscan_loop_done (eps : Q) (xs : list Q) (todo : list nat) (labels : list Z)
    (label_num : Z) :
  (forall i, In i todo -> nth i labels (-1)%Z <> (-1)%Z) ->
  dbscan_loop eps xs todo labels label_num = labels.
Proof.
  induction todo as [|i todo IH]; intros H; simpl; [reflexivity|].
  destruct (Z.eqb_spec (nth i labels (-1)%Z) (-1)%Z) as [E|_].
  - exfalso. apply (H i); [now left | exact E].
  - apply IH. intros j Hj. apply H. now right.
Qed.

(** DBSCAN puts identical scores in cluster 0. *)
Lemma DBSCAN_identical (eps x : Q) (xs : list Q) :
  0 < eps -> Forall (fun y => y == x) xs ->
  DBSCAN_fit_predict eps xs = Ok (repeat 0%Z (List.length xs)).
Proof.
  intros Heps Hx. unfold DBSCAN_fit_predict.
  destruct (Qle_bool eps 0) eqn:E.
  { apply Qle_bool_iff in E. exfalso. apply (Qlt_not_le _ _ Heps E). }
  f_equal. destruct (List.length xs) as [|n] eqn:En; [reflexivity|].
  simpl seq. simpl repeat at 1.
  change (dbscan_loop eps xs (0%nat :: seq 1 n) ((-1)%Z :: repeat (-1)%Z n) 0)
    with (dbscan_loop eps xs (seq 1 n)
            (paint 0 (reachable eps xs 0) (repeat (-1)%Z (S n))) 1).
  rewrite (reachable_all eps x) by (assumption || lia).
  rewrite En, paint_all. apply dbscan_loop_done.
  intros i Hi. apply in_seq in Hi. rewrite nth_repeat_lt by lia. discriminate.
Qed.

Lemma filter_all {A} (p : A -> bool) (l : list A) :
  (forall a, In a l -> p a = true) -> filter p l = l.
Proof.
  induction l as [|a l IH]; intros H; simpl; [reflexivity|].
  rewrite H by now left. f_equal. apply IH. intros b Hb. apply H. now right.
Qed.

(** Candidates with identical scores, two or more, never pass the
    clustering stage. *)
Lemma clustering_identical (results : DataFrame) (epsilon x : Q) :
  (2 <= nrows results)%nat -> Forall (fun y => y == x) (scores results) ->
  0 < epsilon ->
  clustering results epsilon = Ok None.
Proof.
  intros Hn Hx Heps.
  destruct (clustering_decision results epsilon) as
    [clustered [target [Hc [Ht [_ ->]]]]]; [lia | exact Heps |].
  unfold get_cluster in Hc. rewrite (DBSCAN_identical epsilon x _ Heps Hx) in Hc.
  simpl in Hc. apply set_column_inv in Hc as [_ ->].
  set (rs := map _ (combine _ _)) in *.
  assert (Hlab : forall r, In r rs -> cell r "clusters" = PyInt 0).
  { intros r Hr. unfold rs in Hr. apply in_map_iff in Hr as [[r0 v] [<- Hin]].
    apply in_combine_r in Hin. rewrite map_repeat in Hin.
    apply repeat_spec in Hin. simpl in Hin. subst v. apply set_cell_same. }
  assert (Hlen : List.length rs = nrows results).
  { unfold rs, scores, nrows.
    rewrite ?length_map, length_combine, ?length_map, repeat_length, ?length_map.
    lia. }
  assert (Htarget : target = PyInt 0).
  { unfold targetcluster in Ht. apply rbind_inv in Ht as [cells [Hg Hf]].
    apply getitem_inv in Hg as [_ ->]. simpl rows in Hf.
    destruct (filter _ rs) as [|r rest] eqn:E; [discriminate Hf|].
    injection Hf as <-. apply Hlab.
    assert (Hr : In r (r :: rest)) by now left.
    rewrite <- E in Hr. now apply filter_In in Hr. }
  subst target. unfold target_cluster_size, nrows. simpl rows.
  rewrite filter_all by (intros r Hr; now rewrite (Hlab r Hr)).
  rewrite Hlen. destruct (Nat.eqb_spec (nrows results) 1); [lia | reflexivity].
Qed.

(** So the NaN confidences of identical scores never reach a result:
    [WB_Match] returns nothing for such a table. *)
Lemma identical_scores_no_match (S : services) (client : es_client)
    (namestring : option string) (postcode : pyval)
    (boundaries : option boundaries_arg) (polygon : option (list point))
    (DiagnosticDictionary : option (list (string * string))) (epsilon x : Q)
    (w w' : world) (table results : DataFrame) :
  query_attempts 3 (ES_Query S client namestring postcode boundaries polygon) w
    = (Ok (Some (Frame table)), w') ->
  scoring S table postcode = Ok results ->
  (2 <= nrows results)%nat -> Forall (fun y => y == x) (scores results) ->
  0 < epsilon ->
  WB_Match S client namestring postcode boundaries polygon
           DiagnosticDictionary epsilon w = (Ok None, w').
Proof.
  intros Hq Hs Hn Hx Heps. rewrite (WB_Match_table _ _ _ _ _ _ _ _ _ _ _ Hq).
  unfold resolve. rewrite Hs. cbn [rbind].
  now rewrite (clustering_identical results epsilon x Hn Hx Heps).
Qed.

(** ** A numeric confidence in a result is finite *)

Lemma Qsum_nonneg (l : list Q) : Forall (fun y => 0 <= y) l -> 0 <= Qsum l.
Proof.
  induction 1 as [|y l Hy _ IH]; [apply Qle_refl|].
  change (0 <= y + Qsum l). cbv beta in Hy. lra.
Qed.

Lemma Qsum_zero_inv (l : list Q) :
  Forall (fun y => 0 <= y) l -> Qsum l == 0 -> Forall (fun y => y == 0) l.
Proof.
  induction 1 as [|y l Hy Hl IH]; intros H; constructor;
    change (y + Qsum l == 0) in H; pose proof (Qsum_nonneg l Hl);
    cbv beta in Hy.
  - lra.
  - apply IH. lra.
Qed.

Lemma Qsquare_nonneg (a : Q) : 0 <= a * a.
Proof.
  destruct (Qlt_le_dec a 0) as [H|H].
  - setoid_replace (a * a) with ((- a) * (- a)) by ring.
    apply Qmult_le_0_compat; lra.
  - now apply Qmult_le_0_compat.
Qed.

(** A variance of zero means identical scores. *)
Lemma variance_zero_inv (l : list Q) :
  l <> [] -> variance l == 0 -> Forall (fun y => y == mean l) l.
Proof.
  intros Hne H. unfold variance in H.
  assert (Hs : Qsum (map (fun x => (x - mean l) * (x - mean l)) l) == 0).
  { pose proof (Qlen_nonzero l Hne) as Hn.
    setoid_replace (Qsum (map (fun x => (x - mean l) * (x - mean l)) l))
      with (Qsum (map (fun x => (x - mean l) * (x - mean l)) l) / Qlen l * Qlen l)
      by (field; exact Hn).
    rewrite H. ring. }
  apply Qsum_zero_inv in Hs.
  - rewrite Forall_map in Hs. eapply Forall_impl; [|exact Hs].
    intros y Hy. simpl in Hy. apply Qmult_integral in Hy.
    destruct Hy; lra.
  - apply Forall_map. apply Forall_forall. intros y _. apply Qsquare_nonneg.
Qed.

Lemma variance_nonneg (l : list Q) : 0 <= variance l.
Proof.
  unfold variance. destruct l as [|y l].
  - unfold Qlen. simpl. apply Qle_refl.
  - apply Qle_shift_div_l.
    + unfold Qlen, Qlt. simpl. lia.
    + rewrite Qmult_0_l. apply Qsum_nonneg. apply Forall_map.
      apply Forall_forall. intros z _. apply Qsquare_nonneg.
Qed.

(** Scores that are not all the same have a positive standard
    deviation. *)
Lemma std_positive (l : list Q) :
  l <> [] -> ~ Forall (fun y => y == mean l) l -> (0 < std l)%R.
Proof.
  intros Hne Hdiff. unfold std. apply sqrt_lt_R0.
  assert (Hv : 0 < variance l).
  { destruct (Qlt_le_dec 0 (variance l)) as [H|H]; [exact H|].
    exfalso. apply Hdiff. apply variance_zero_inv; [exact Hne|].
    apply Qle_antisym; [exact H | apply variance_nonneg]. }
  apply Qlt_Rlt in Hv. unfold Q2R at 1 in Hv. simpl in Hv. lra.
Qed.

Lemma Rzero_false (x : R) : x <> 0%R -> Rzero x = false.
Proof. intros H. unfold Rzero. destruct (Req_dec_T x 0); [contradiction | reflexivity]. Qed.

Lemma confidence_of_finite (x : R) : well_defined (confidence_of (Fin x)).
Proof.
  unfold confidence_of, thresh_default. simpl.
  rewrite Rzero_false by lra. eexists. reflexivity.
Qed.

Lemma zscore_finite (l : list Q) :
  l <> [] -> ~ Forall (fun y => y == mean l) l ->
  Forall (fun z => exists x, z = Fin x) (zscore l).
Proof.
  intros Hne Hdiff. pose proof (std_positive l Hne Hdiff) as Hsd.
  unfold zscore. apply Forall_map. apply Forall_forall. intros y _.
  unfold float_of_Q, fdiv. rewrite Rzero_false by lra. eexists. reflexivity.
Qed.

Lemma scores_of_combine (c : string) (rs : list row) (vs : list pyval) :
  List.length vs = List.length rs ->
  map r_score (map (fun rv => set_cell c (snd rv) (fst rv)) (combine rs vs))
  = map r_score rs.
Proof.
  revert vs. induction rs as [|r rs IH]; intros [|v vs] H; try discriminate H.
  - reflexivity.
  - simpl. f_equal. apply IH. now injection H.
Qed.

Lemma set_column_scores (df : DataFrame) (c : string) (vs : list pyval) df' :
  set_column df c vs = Ok df' -> scores df' = scores df.
Proof.
  intros H. apply set_column_inv in H as [Hlen ->].
  unfold scores. simpl. now apply scores_of_combine.
Qed.

Lemma cells_of_combine_other (c d : string) (rs : list row) (vs : list pyval) :
  c <> d -> List.length vs = List.length rs ->
  map (fun r => cell r d)
      (map (fun rv => set_cell c (snd rv) (fst rv)) (combine rs vs))
  = map (fun r => cell r d) rs.
Proof.
  intros Hcd. revert vs.
  induction rs as [|r rs IH]; intros [|v vs] H; try discriminate H.
  - reflexivity.
  - simpl. rewrite set_cell_other by exact Hcd. f_equal. apply IH. now injection H.
Qed.

Lemma nrows_scores (df : DataFrame) : nrows df = List.length (scores df).
Proof. unfold nrows, scores. now rewrite length_map. Qed.

Lemma get_confidence_z (points df : DataFrame) :
  get_confidence points thresh_default = Ok df -> scored_z df.
Proof.
  unfold get_confidence.
  destruct (Nat.eqb_spec (nrows points) 1) as [E|E].
  - intros [= <-]. left. unfold z_column. simpl. rewrite map_map.
    apply Forall_map. apply Forall_forall. intros r _.
    rewrite set_cell_same. now left.
  - intros H. right.
    pose proof (set_column_scores _ _ _ _ H) as Hs.
    split; [now rewrite nrows_scores, Hs, <- nrows_scores|].
    apply getitem_set_column, getitem_rows in H.
    unfold z_column. rewrite H, Hs. reflexivity.
Qed.

Lemma scoring_z (S : services) (table : DataFrame) (postcode : pyval) (results : DataFrame) :
  scoring S table postcode = Ok results -> scored_z results.
Proof.
  unfold scoring. intros H. apply rbind_inv in H as [pc [_ H]].
  assert (Hpost :
    rbind (getitem table "postalCode") (fun cells =>
    rbind (rmapM (normalize_postalcode S) cells) (fun normalized =>
    rbind (set_column table "postalCode" normalized) (fun results =>
    let results :=
      select_rows (fun r => py_eqb (cell r "postalCode") pc) results in
    if (1 <? nrows results)%nat
    then get_confidence results thresh_default
    else Ok (set_column_scalar results "z" (PyStr "Sole Postal Code")))))
    = Ok results -> scored_z results).
  { clear H. intros H.
    apply rbind_inv in H as [cells [_ H]].
    apply rbind_inv in H as [normalized [_ H]].
    apply rbind_inv in H as [df [_ H]]. cbv zeta in H.
    destruct (1 <? nrows _)%nat.
    - now apply get_confidence_z in H.
    - injection H as <-. left. unfold z_column. simpl. rewrite map_map.
      apply Forall_map. apply Forall_forall. intros r _.
      rewrite set_cell_same. now right. }
  destruct pc; try (now apply Hpost).
  now apply get_confidence_z in H.
Qed.

(** A table that passes the clustering stage carries sentinels or
    finite confidences: the NaN of identical scores is stopped there. *)
Lemma clustering_z (results : DataFrame) (epsilon : Q) (clustered : DataFrame) :
  clustering results epsilon = Ok (Some clustered) ->
  scored_z results ->
  Forall (fun v => sentinel v \/ well_defined v) (z_column clustered).
Proof.
  intros H Hz. pose proof H as Hcl. unfold clustering in H.
  destruct (Nat.ltb_spec 1 (nrows results)) as [Hn|Hn].
  - apply rbind_inv in H as [df [Hc H]].
    apply rbind_inv in H as [target [_ H]].
    destruct (negb _); [discriminate H|]. injection H as <-.
    unfold get_cluster in Hc. apply rbind_inv in Hc as [labels [Hdb Hc]].
    assert (Heps : 0 < epsilon).
    { unfold DBSCAN_fit_predict in Hdb.
      destruct (Qle_bool epsilon 0) eqn:E; [discriminate Hdb|].
      apply Qnot_le_lt. intros Hle. apply Qle_bool_iff in Hle. congruence. }
    assert (Hsame : z_column df = z_column results).
    { apply set_column_inv in Hc as [Hlen ->]. unfold z_column. simpl.
      apply cells_of_combine_other; [discriminate | exact Hlen]. }
    rewrite Hsame. destruct Hz as [Hz | [_ Hz]].
    + eapply Forall_impl; [|exact Hz]. intros v Hv. now left.
    + rewrite Hz. apply Forall_map.
      assert (Hne : scores results <> []).
      { intros E. rewrite nrows_scores, E in Hn. simpl in Hn. lia. }
      assert (Hdiff : ~ Forall (fun y => y == mean (scores results)) (scores results)).
      { intros Hx.
        rewrite (clustering_identical results epsilon _ Hn Hx Heps) in Hcl.
        discriminate Hcl. }
      eapply Forall_impl; [|exact (zscore_finite _ Hne Hdiff)].
      intros z [x ->]. right. apply confidence_of_finite.
  - injection H as <-. destruct Hz as [Hz | [H1 Hz]].
    + eapply Forall_impl; [|exact Hz]. intros v Hv. now left.
    + assert (E : nrows results = 0%nat) by lia.
      unfold z_column. unfold nrows in E.
      destruct (rows results); [constructor | discriminate E].
Qed.


(** ** The combined confidence *)

Lemma mean_with_finite (LEV : Z) (x : R) :
  fdiv (fadd (float_of_Z LEV) (Fin x)) (Fin 2) = Fin ((IZR LEV + x) / 2).
Proof.
  simpl. unfold Rzero. destruct (Req_dec_T 2 0) as [E|_]; [lra | reflexivity].
Qed.

(** C3. In every output list of [WB_Match] the confidence is one of
    the two sentinels or a finite number: with a sentinel the combined
    confidence is the similarity score alone, with a number it is the
    mean of the similarity score and the confidence. *)
Theorem combined_confidence_rule (S : services) (client : es_client)
    (namestring : option string) (postcode : pyval)
    (boundaries : option boundaries_arg) (polygon : option (list point))
    (DiagnosticDictionary : option (list (string * string))) (epsilon : Q)
    (w w' : world) (out : list outval) :
  WB_Match S client namestring postcode boundaries polygon
           DiagnosticDictionary epsilon w = (Ok (Some out), w') ->
  exists ID CONF NAME ALSO LOC PC DENOM LEV CC extra,
    out = ([Scalar (PyStr ID); Scalar CONF; Scalar (PyStr NAME);
            Scalar (PyStr ALSO); Scalar (PyStr LOC); Scalar (PyStr PC);
            Scalar (PyStr DENOM); Scalar (PyInt LEV); Scalar CC] ++ extra)%list /\
    ((sentinel CONF /\ CC = PyInt LEV)
     \/
     (exists x, CONF = PyFloat (Fin x) /\
                CC = PyFloat (Fin ((IZR LEV + x) / 2)))).
Proof.
  intros H.
  apply WB_Match_inv in H as [table [results [clustered [_ [Hs [Hc Hf]]]]]].
  pose proof (clustering_z _ _ _ Hc (scoring_z _ _ _ _ Hs)) as Hz.
  apply finalizing_inv in Hf as [r [rs [name [extra [Hsel [_ Hout]]]]]].
  cbv zeta in Hout. destruct Hout as [_ ->].
  assert (Hr : In r (rows clustered)).
  { apply (proj1 (filter_In (is_top clustered) r (rows clustered))).
    rewrite Hsel. now left. }
  unfold z_column in Hz. rewrite Forall_map, Forall_forall in Hz.
  specialize (Hz r Hr).
  do 10 eexists. split; [reflexivity|].
  destruct Hz as [Hz | [x Hz]].
  - left. split; [exact Hz|]. now destruct Hz as [-> | ->].
  - right. exists x. split; [exact Hz|]. rewrite Hz.
    unfold combined_confidence. now rewrite mean_with_finite.
Qed.

(** The sole candidate of a postal code. *)
Lemma combined_confidence_rule_witness :
  exists ID CONF NAME ALSO LOC PC DENOM LEV CC extra,
    [Scalar (PyStr "a"); Scalar (PyStr "Sole Postal Code");
     Scalar (PyStr "St. Andrew's Church"); Scalar (PyStr "");
     Scalar (PyStr "Halifax"); Scalar (PyStr "A1A 1A1");
     Scalar (PyStr "Anglican"); Scalar (PyInt 100); Scalar (PyInt 100)]
    = ([Scalar (PyStr ID); Scalar CONF; Scalar (PyStr NAME);
        Scalar (PyStr ALSO); Scalar (PyStr LOC); Scalar (PyStr PC);
        Scalar (PyStr DENOM); Scalar (PyInt LEV); Scalar CC] ++ extra)%list /\
    ((sentinel CONF /\ CC = PyInt LEV)
     \/
     (exists x, CONF = PyFloat (Fin x) /\
                CC = PyFloat (Fin ((IZR LEV + x) / 2)))).
Proof.
  apply (combined_confidence_rule plain_services
           (index_of [church "a" 50 "A1A 1A1"]) (Some "St. Andrew's Church")
           (PyStr "a1a1a1") None None None 4 world0
           (mkWorld [ParamsCenter "St. Andrew's Church" (NaN, NaN)] [] 0)).
  reflexivity.
Defined.

(** * Further properties of the module *)

(** ** Postal codes and the offline lookup *)

Lemma not_lower_upper_char (c : ascii) :
  in_range 97 122 c = false -> upper_char c = c.
Proof. unfold upper_char, in_range. now intros ->. Qed.

Lemma is_digit_not_lower (c : ascii) : is_digit c = true -> in_range 97 122 c = false.
Proof.
  unfold is_digit, in_range. intros H. apply andb_true_iff in H as [_ H].
  apply Nat.leb_le in H. apply andb_false_iff. left. apply Nat.leb_gt. lia.
Qed.

Lemma is_AZ_not_lower (c : ascii) : is_AZ c = true -> in_range 97 122 c = false.
Proof.
  unfold is_AZ, in_range. intros H. apply andb_true_iff in H as [_ H].
  apply Nat.leb_le in H. apply andb_false_iff. left. apply Nat.leb_gt. lia.
Qed.

Lemma is_AVXY_upper (c : ascii) :
  is_AVXY c = true ->
  in_range 97 122 c = false /\ Ascii.eqb c space = false /\ is_ascii_char c = true.
Proof.
  destruct c as [[] [] [] [] [] [] [] []]; intros H; try discriminate H;
    repeat split; reflexivity.
Qed.

Lemma is_digit_ascii (c : ascii) : is_digit c = true -> is_ascii_char c = true.
Proof.
  unfold is_digit, in_range, is_ascii_char. intros H.
  apply andb_true_iff in H as [_ H]. apply Nat.leb_le in H.
  apply Nat.ltb_lt. lia.
Qed.

Lemma is_AZ_ascii (c : ascii) : is_AZ c = true -> is_ascii_char c = true.
Proof.
  unfold is_AZ, in_range, is_ascii_char. intros H.
  apply andb_true_iff in H as [_ H]. apply Nat.leb_le in H.
  apply Nat.ltb_lt. lia.
Qed.

Lemma drop_prefix_inv (p s r : string) :
  drop_prefix p s = Some r -> s = (p ++ r)%string.
Proof.
  revert s. induction p as [|a p IH]; intros s H; simpl in H.
  - now injection H as ->.
  - destruct s as [|b s]; [discriminate H|].
    destruct (Ascii.eqb_spec a b) as [->|]; [|discriminate H].
    simpl. f_equal. now apply IH.
Qed.

(** What [\s] consumed is one code point of white space. *)
Lemma after_space_inv (s r : string) :
  after_space s = Some r ->
  exists n, In n unicode_space /\ s = (utf8 n ++ r)%string.
Proof.
  unfold after_space. induction unicode_space as [|n l IH]; simpl; [discriminate|].
  destruct (drop_prefix (utf8 n) s) as [rest|] eqn:E.
  - intros [= <-]. exists n. split; [now left | now apply drop_prefix_inv].
  - intros H. destruct (IH H) as (m & Hm & Hs). exists m. auto.
Qed.

(** A code point of white space before a string that starts a code
    point: it is one code point, which starts the string, and which
    [upper] leaves as it is. *)
Lemma space_point (S : services) (n : N) (t : string) :
  In n unicode_space -> continues t = false ->
  continues (utf8 n ++ t) = false /\
  points (utf8 n ++ t) = utf8 n :: points t /\
  upper_point S (utf8 n) = utf8 n.
Proof.
  intros Hn Ht. unfold unicode_space in Hn. cbn [In] in Hn.
  repeat (destruct Hn as [<-|Hn];
          [ match goal with |- context [utf8 ?k] =>
              let v := eval vm_compute in (utf8 k) in change (utf8 k) with v end;
            cbn [append points continues]; rewrite ?Ht;
            repeat split; reflexivity |]).
  destruct Hn.
Qed.

(** What the pattern accepts, code point by code point. *)
Lemma zipCode_match_inv (s : string) :
  zipCode_match s = true ->
  exists c0 c1 c2 n c4 c5 c6 rest,
    s = String c0 (String c1 (String c2
          (utf8 n ++ String c4 (String c5 (String c6 rest))))) /\
    is_AVXY c0 = true /\ is_digit c1 = true /\ is_AZ c2 = true /\
    In n unicode_space /\ is_digit c4 = true /\ is_AZ c5 = true /\
    is_digit c6 = true /\ (rest = EmptyString \/ rest = String newline EmptyString).
Proof.
  unfold zipCode_match. intros H. apply andb_true_iff in H as [_ H].
  do 3 (destruct s as [|? s]; [discriminate H|]).
  destruct (after_space s) as [[|c4 [|c5 [|c6 rest]]]|] eqn:E;
    try (repeat (apply andb_true_iff in H as [H ?]); discriminate).
  apply andb_true_iff in H as [H Hrest].
  do 2 (apply andb_true_iff in H as [H ?]).
  do 3 (apply andb_true_iff in Hrest as [Hrest Hend]; revert Hend).
  intros H6 H5 Hend.
  apply after_space_inv in E as (n & Hn & ->).
  exists a, a0, a1, n, c4, c5, c6, rest.
  split; [reflexivity|]. repeat (split; [assumption|]).
  destruct rest as [|c [|? ?]]; [now left | | discriminate].
  right. f_equal. now apply Ascii.eqb_eq.
Qed.

Lemma upper_cons (S : services) (c : ascii) (s : string) :
  is_ascii_char c = true -> continues s = false ->
  upper S (String c s) = String (upper_char c) (upper S s).
Proof.
  intros Hc Hs. unfold upper. rewrite points_cons by exact Hs.
  cbn [map glue fold_right]. unfold upper_point at 1. cbn [is_ascii].
  rewrite Hc. reflexivity.
Qed.

(** X1. A string the postal-code pattern accepts is already in normal
    form: [normalize_postalcode] returns it unchanged. *)
Theorem accepted_code_is_normal (S : services) (s : string) :
  zipCode_match s = true ->
  normalize_postalcode S (PyStr s) = Ok (PyStr s).
Proof.
  intros H.
  destruct (zipCode_match_inv s H)
    as (c0 & c1 & c2 & n & c4 & c5 & c6 & rest & -> & H0 & H1 & H2 & Hn & H4
        & H5 & H6 & Hrest).
  apply is_AVXY_upper in H0 as (H0 & Hsp & A0).
  pose proof (is_digit_ascii _ H1) as A1. pose proof (is_AZ_ascii _ H2) as A2.
  pose proof (is_digit_ascii _ H4) as A4. pose proof (is_AZ_ascii _ H5) as A5.
  pose proof (is_digit_ascii _ H6) as A6.
  apply is_digit_not_lower in H1, H4, H6. apply is_AZ_not_lower in H2, H5.
  set (t := String c4 (String c5 (String c6 rest))).
  assert (Ht : is_ascii t = true).
  { subst t. cbn [is_ascii]. rewrite A4, A5, A6.
    destruct Hrest as [-> | ->]; reflexivity. }
  destruct (space_point S n t Hn (is_ascii_starts t Ht)) as (Hw & Hp & Hu).
  assert (Hlen : len (String c0 (String c1 (String c2 (utf8 n ++ t)))) <> 6%nat).
  { unfold len. rewrite !points_cons, Hp;
      try (cbn [continues]; now apply ascii_char_starts); try exact Hw.
    cbn [List.length]. fold (len t). rewrite (len_ascii t Ht).
    subst t. destruct Hrest as [-> | ->]; discriminate. }
  unfold normalize_postalcode. f_equal. f_equal.
  cbn [lstrip]. rewrite Hsp.
  rewrite add_missing_space_fixed by exact Hlen.
  rewrite !upper_cons;
    try assumption; try (cbn [continues]; now apply ascii_char_starts).
  rewrite !not_lower_upper_char by assumption.
  do 3 f_equal. unfold upper. rewrite Hp. cbn [map glue fold_right]. rewrite Hu.
  f_equal. fold (glue (map (upper_point S) (points t))). fold (upper S t).
  rewrite (upper_ascii S t Ht). subst t. cbn [smap].
  rewrite !not_lower_upper_char by assumption.
  destruct Hrest as [-> | ->]; reflexivity.
Qed.

Lemma accepted_code_is_normal_witness :
  normalize_postalcode plain_services (PyStr "K1A 0B1") = Ok (PyStr "K1A 0B1").
Proof. apply accepted_code_is_normal. reflexivity. Defined.

(** X2. For an ASCII string, [get_geocode] gives the same answer for
    the string and for its normal form: the normalisation [ES_Query]
    applies before the call changes nothing. *)
Theorem get_geocode_of_normalized (S : services) (s : string) :
  is_ascii s = true ->
  rbind (normalize_postalcode S (PyStr s)) (get_geocode S)
  = get_geocode S (PyStr s).
Proof.
  intros Hs. cbn [normalize_postalcode rbind get_geocode].
  now rewrite normalize_fixed_point.
Qed.

Lemma get_geocode_of_normalized_witness :
  rbind (normalize_postalcode plain_services (PyStr " k1a0b1"))
        (get_geocode plain_services)
  = get_geocode plain_services (PyStr " k1a0b1").
Proof.
  apply (get_geocode_of_normalized plain_services " k1a0b1"). reflexivity.
Defined.

(** ** The geographic filter of a query *)

(** What normalising leaves is [None] or a string, which [get_geocode]
    takes without raising. *)
Lemma geocode_after_normalize (S : services) (postcode pc : pyval) :
  normalize_postalcode S postcode = Ok pc ->
  exists center, get_geocode S pc = Ok center.
Proof.
  destruct postcode; intros [= <-]; cbn [get_geocode normalize_postalcode rbind];
    try (eexists; reflexivity).
  destruct (zipCode_match _); eexists; reflexivity.
Qed.

Lemma search_template_log (client : es_client) (p : es_params) w r w' :
  search_template client p w = (r, w') ->
  w' = mkWorld (es_log w ++ [p]) (geo_log w) (slept w).
Proof. unfold search_template. destruct (client _ p); now intros [= _ <-]. Qed.

(** X3. A polygon takes priority over every other filter: whatever the
    boundaries and the postal code, the one request sent carries the
    polygon, and the geocoder is neither asked nor waited for. *)
Theorem polygon_takes_priority (S : services) (client : es_client)
    (keywords : string) (postcode : pyval) (boundaries : option boundaries_arg)
    (polygon : list point) (w w' : world) (r : result es_result) :
  (forall e, normalize_postalcode S postcode <> Raise e) ->
  ES_Query S client (Some keywords) postcode boundaries (Some polygon) w = (r, w') ->
  w' = mkWorld (es_log w ++ [ParamsPolygon keywords polygon]) (geo_log w) (slept w).
Proof.
  intros Hpc. unfold ES_Query, bind at 1 2, lift at 1 2.
  destruct (normalize_postalcode S postcode) as [pc|e] eqn:E; [|now destruct (Hpc e)].
  destruct (geocode_after_normalize S _ _ E) as [center ->].
  unfold bind.
  destruct (search_template client _ w) as [[hs|e] w1] eqn:Es;
    apply search_template_log in Es; unfold lift; now intros [= _ <-].
Qed.

Lemma polygon_takes_priority_witness :
  snd (ES_Query plain_services (index_of far_apart) (Some "St. Andrew's Church")
         (PyStr "k1a0b1") (Some (BoundsText "Ottawa"))
         (Some [(Fin 0, Fin 0); (Fin 1, Fin 0); (Fin 0, Fin 1)]) world0)
  = mkWorld [ParamsPolygon "St. Andrew's Church"
               [(Fin 0, Fin 0); (Fin 1, Fin 0); (Fin 0, Fin 1)]] [] 0.
Proof.
  refine (polygon_takes_priority plain_services (index_of far_apart)
            "St. Andrew's Church" (PyStr "k1a0b1") (Some (BoundsText "Ottawa"))
            [(Fin 0, Fin 0); (Fin 1, Fin 0); (Fin 0, Fin 1)] world0 _ _ _ _).
  - discriminate.
  - apply surjective_pairing.
Defined.

(** X4. With a postal code alone, the code is normalised twice, by
    [ES_Query] and again by [get_geocode] (for an ASCII code the second
    time changes nothing).  The request is centred on the point of the
    offline table when the result fits the pattern, and is the
    name-only request when it does not: a malformed code falls back to
    the name.  The geocoder is not asked. *)
Theorem postcode_filter_or_name_only (S : services) (client : es_client)
    (keywords s : string) (w w' : world) (r : result es_result) :
  ES_Query S client (Some keywords) (PyStr s) None None w = (r, w') ->
  let once := upper S (add_missing_space (lstrip s)) in
  let code := upper S (add_missing_space (lstrip once)) in
  (is_ascii s = true -> code = once) /\
  w' = mkWorld
         (es_log w ++
          [if zipCode_match code
           then ParamsCenter keywords (query_postal_code S code)
           else ParamsKeywords keywords])
         (geo_log w) (slept w).
Proof.
  intros H once code. split.
  { intros Hs. now apply normalize_fixed_point. }
  unfold ES_Query, bind at 1 2, lift at 1 2 in H.
  cbn [normalize_postalcode get_geocode rbind] in H.
  fold once in H. fold code in H.
  destruct (zipCode_match code); unfold bind in H;
    destruct (search_template client _ w) as [[hs|e] w1] eqn:Es;
    apply search_template_log in Es; unfold lift in H;
    injection H as _ <-; exact Es.
Qed.

Lemma postcode_filter_or_name_only_witness :
  (is_ascii "not a code" = true -> "NOT A CODE" = "NOT A CODE") /\
  snd (ES_Query plain_services (index_of far_apart) (Some "St. Andrew's Church")
         (PyStr "not a code") None None world0)
  = mkWorld [ParamsKeywords "St. Andrew's Church"] [] 0.
Proof.
  refine (postcode_filter_or_name_only plain_services (index_of far_apart)
            "St. Andrew's Church" "not a code" world0 _ _ _).
  apply surjective_pairing.
Defined.

(** ** Boundaries *)

(** X5. What [get_bounds] returns is either the box of a geocoder hit,
    with its corners put in the order (west, north), (east, south) and
    after a pause of [RateLimiter] seconds, or the box of Canada, with
    no pause.  The search index is never touched. *)
Theorem get_bounds_outcome (S : services) (q : geo_query) (RateLimiter : nat)
    (w w' : world) (box : bbox) :
  get_bounds S q RateLimiter w = (Ok box, w') ->
  es_log w' = es_log w /\
  ((box = canada /\ slept w' = slept w) \/
   (exists asked q' south north west east,
      geo_log w' = (asked ++ [q'])%list /\
      locator_geocode S q' = Some (south, north, west, east) /\
      box = ((west, north), (east, south)) /\
      slept w' = (slept w + RateLimiter)%nat)).
Proof.
  intros H. split; [exact (get_bounds_es_log _ _ _ _ _ _ H)|].
  unfold get_bounds, bind, geocode, broader_query, lift, ret, raise, sleep in H.
  destruct (locator_geocode S q) as [[[[south north] west] east]|] eqn:E1;
    simpl in H.
  - apply pair_equal_spec in H as [[= <-] <-].
    right. exists (geo_log w), q, south, north, west, east.
    simpl. auto.
  - destruct q as [s|d]; simpl in H; [|discriminate H].
    unfold bind in H. destruct (str_index_comma s) as [i|e]; simpl in H;
      [|discriminate H].
    destruct (locator_geocode S (QText (lstrip (slice_from (i + 1) s))))
      as [[[[south north] west] east]|] eqn:E2;
      simpl in H; apply pair_equal_spec in H as [[= <-] <-].
    + right. exists (geo_log w ++ [QText s])%list. do 5 eexists. simpl.
      split; [reflexivity|]. split; [exact E2|]. auto.
    + left. auto.
Qed.

Lemma get_bounds_outcome_witness :
  es_log (mkWorld [] [QText "12 Main St,  Halifax, NS"; QText "Halifax, NS"] 1)
  = es_log world0 /\
  ((((Fin (-63.8), Fin 44.8), (Fin (-63.4), Fin 44.5)) = canada /\
    slept (mkWorld [] [QText "12 Main St,  Halifax, NS"; QText "Halifax, NS"] 1)
    = slept world0) \/
   (exists asked q' south north west east,
      geo_log (mkWorld [] [QText "12 Main St,  Halifax, NS"; QText "Halifax, NS"] 1)
      = (asked ++ [q'])%list /\
      locator_geocode halifax_services q' = Some (south, north, west, east) /\
      ((Fin (-63.8), Fin 44.8), (Fin (-63.4), Fin 44.5))
      = ((west, north), (east, south)) /\
      slept (mkWorld [] [QText "12 Main St,  Halifax, NS"; QText "Halifax, NS"] 1)
      = (slept world0 + 1)%nat)).
Proof.
  apply (get_bounds_outcome halifax_services (QText "12 Main St,  Halifax, NS") 1
           world0).
  reflexivity.
Defined.

(** ** Attempts *)

Lemma resolve_boundaries_fixed (S : services) (b : boundaries_arg) :
  exists r, forall w,
    fst (resolve_boundaries S b w) = r /\
    es_log (snd (resolve_boundaries S b w)) = es_log w.
Proof.
  assert (Hq : forall q, exists r, forall w,
            fst (get_bounds S q 1 w) = r /\
            es_log (snd (get_bounds S q 1 w)) = es_log w).
  { intros q. unfold get_bounds, bind, geocode, broader_query, lift, ret, raise, sleep.
    destruct (locator_geocode S q) as [[[[south north] west] east]|]; simpl.
    - eexists. intros w. split; reflexivity.
    - destruct q as [s|d]; simpl.
      + unfold bind. destruct (str_index_comma s) as [i|e]; simpl.
        * destruct (locator_geocode S (QText (lstrip (slice_from (i + 1) s))))
            as [[[[south north] west] east]|];
            simpl; eexists; intros w; split; reflexivity.
        * eexists. intros w. split; reflexivity.
      + eexists. intros w. split; reflexivity. }
  destruct b as [s|d|corners]; simpl.
  - apply Hq.
  - apply Hq.
  - eexists. intros w. split; reflexivity.
Qed.

(** The request of a query is fixed by its arguments. *)
Lemma ES_Query_request (S : services) (client : es_client)
    (namestring : option string) (postcode : pyval)
    (boundaries : option boundaries_arg) (polygon : option (list point)) :
  exists p, forall w r w',
    ES_Query S client namestring postcode boundaries polygon w = (r, w') ->
    es_log w' = es_log w \/ es_log w' = (es_log w ++ [p])%list.
Proof.
  unfold ES_Query. destruct namestring as [keywords|].
  2:{ exists (ParamsKeywords ""). intros w r w' [= _ <-]. now left. }
  unfold bind at 1, lift at 1.
  destruct (normalize_postalcode S postcode) as [pc|e].
  2:{ exists (ParamsKeywords ""). intros w r w' [= _ <-]. now left. }
  unfold bind at 1, lift at 1.
  destruct (get_geocode S pc) as [center|e].
  2:{ exists (ParamsKeywords ""). intros w r w' [= _ <-]. now left. }
  assert (Hst : forall p w r w',
            bind (search_template client p) (fun results => lift (candidate_table results)) w
            = (r, w') ->
            es_log w' = (es_log w ++ [p])%list).
  { intros p w r w'. unfold bind, search_template, lift.
    destruct (client _ p); now intros [= _ <-]. }
  destruct polygon as [poly|].
  { eexists. intros w r w' H. right. exact (Hst _ _ _ _ H). }
  destruct boundaries as [b|].
  2:{ destruct center; eexists; intros w r w' H; right; exact (Hst _ _ _ _ H). }
  destruct (resolve_boundaries_fixed S b) as [[bx|e] Hb].
  - exists (ParamsBounds keywords (fst bx) (snd bx) (midpoint (fst bx) (snd bx))).
    intros w r w'. unfold bind at 1 2. destruct (Hb w) as [H1 H2].
    destruct (resolve_boundaries S b w) as [rb w1]. simpl in H1, H2. subst rb.
    intros H. right. rewrite <- H2.
    apply (Hst _ w1 r w'). unfold bind. exact H.
  - exists (ParamsKeywords ""). intros w r w'. unfold bind at 1 2.
    destruct (Hb w) as [H1 H2].
    destruct (resolve_boundaries S b w) as [rb w1]. simpl in H1, H2. subst rb.
    intros [= _ <-]. now left.
Qed.

Lemma repeat_snoc {A} (p : A) (k : nat) : (repeat p k ++ [p])%list = repeat p (S k).
Proof. induction k as [|k IH]; simpl; [reflexivity | now rewrite IH]. Qed.

Lemma query_attempts_requests (p : es_params) (q : M es_result) :
  (forall w r w', q w = (r, w') ->
     es_log w' = es_log w \/ es_log w' = (es_log w ++ [p])%list) ->
  forall n w r w', query_attempts n q w = (r, w') ->
    exists k, (k <= n)%nat /\ es_log w' = (es_log w ++ repeat p k)%list.
Proof.
  intros Hq. induction n as [|n IH]; intros w r w' H; simpl in H.
  - injection H as _ <-. exists 0%nat. split; [lia|]. simpl. now rewrite app_nil_r.
  - destruct (q w) as [[a|e] w1] eqn:E.
    + injection H as _ <-. destruct (Hq _ _ _ E) as [-> | ->].
      * exists 0%nat. split; [lia|]. simpl. now rewrite app_nil_r.
      * exists 1%nat. split; [lia|]. reflexivity.
    + assert (Hone : exists k, (k <= 1)%nat /\ es_log w1 = (es_log w ++ repeat p k)%list).
      { destruct (Hq _ _ _ E) as [-> | ->].
        - exists 0%nat. split; [lia|]. simpl. now rewrite app_nil_r.
        - exists 1%nat. split; [lia|]. reflexivity. }
      destruct e; try (injection H as _ <-; destruct Hone as (k & Hk & ->);
                       exists k; split; [lia | reflexivity]).
      apply IH in H as (k & Hk & ->). destruct Hone as (k1 & Hk1 & ->).
      exists (k1 + k)%nat. split; [lia|].
      now rewrite <- app_assoc, repeat_app.
Qed.

(** X6. Whatever happens, [WB_Match] sends the index at most three
    requests, and they are one and the same request: an attempt after a
    transport error asks again what the first one asked. *)
Theorem retries_repeat_the_request (S : services) (client : es_client)
    (namestring : option string) (postcode : pyval)
    (boundaries : option boundaries_arg) (polygon : option (list point))
    (DiagnosticDictionary : option (list (string * string))) (epsilon : Q) :
  exists p, forall w r w',
    WB_Match S client namestring postcode boundaries polygon
             DiagnosticDictionary epsilon w = (r, w') ->
    exists k, (k <= 3)%nat /\ es_log w' = (es_log w ++ repeat p k)%list.
Proof.
  destruct (ES_Query_request S client namestring postcode boundaries polygon)
    as [p Hp].
  exists p. intros w r w'. unfold WB_Match, bind.
  destruct (query_attempts 3 _ w) as [[bound|e] w1] eqn:E; intros H.
  - apply (query_attempts_requests p _ Hp) in E.
    destruct bound as [[msg|table]|]; injection H as _ <-; exact E.
  - apply (query_attempts_requests p _ Hp) in E.
    injection H as _ <-. exact E.
Qed.

Lemma retries_repeat_the_request_witness :
  exists p k, (k <= 3)%nat /\
    es_log (mkWorld [ParamsKeywords "St. Andrew's Church";
                     ParamsKeywords "St. Andrew's Church"] [] 0)
    = (es_log world0 ++ repeat p k)%list.
Proof.
  destruct (retries_repeat_the_request plain_services (index_flaky close_by)
              (Some "St. Andrew's Church") PyNone None None None 4) as [p Hp].
  exists p. apply (Hp world0 (Ok None)). reflexivity.
Defined.

(** X7. An exception of the query other than a transport error leaves
    [WB_Match] at once: there is no second attempt. *)
Theorem other_errors_are_not_retried (S : services) (client : es_client)
    (namestring : option string) (postcode : pyval)
    (boundaries : option boundaries_arg) (polygon : option (list point))
    (DiagnosticDictionary : option (list (string * string))) (epsilon : Q)
    (w w' : world) (e : exn) :
  ES_Query S client namestring postcode boundaries polygon w = (Raise e, w') ->
  e <> TransportError ->
  WB_Match S client namestring postcode boundaries polygon
           DiagnosticDictionary epsilon w = (Raise e, w').
Proof.
  intros H He. unfold WB_Match.
  now rewrite (bind_raise _ _ _ _ _ (query_attempts_other_error 2 _ _ _ _ H He)).
Qed.

Lemma other_errors_are_not_retried_witness :
  WB_Match plain_services (index_of far_apart) (Some "St. Andrew's Church")
           (PyBool true) None None None 4 world0
  = (Raise (AttributeError "lstrip"), world0).
Proof.
  apply other_errors_are_not_retried; [reflexivity | discriminate].
Defined.

(** X8. A transport error followed by an answer is invisible in the
    result: [WB_Match] ends as it would have, started after the failed
    attempt. *)
Theorem transient_failure_is_retried (S : services) (client : es_client)
    (namestring : option string) (postcode : pyval)
    (boundaries : option boundaries_arg) (polygon : option (list point))
    (DiagnosticDictionary : option (list (string * string))) (epsilon : Q)
    (w0 w1 w2 : world) (r : es_result) :
  ES_Query S client namestring postcode boundaries polygon w0
    = (Raise TransportError, w1) ->
  ES_Query S client namestring postcode boundaries polygon w1 = (Ok r, w2) ->
  WB_Match S client namestring postcode boundaries polygon
           DiagnosticDictionary epsilon w0
  = WB_Match S client namestring postcode boundaries polygon
             DiagnosticDictionary epsilon w1.
Proof.
  intros H0 H1. unfold WB_Match.
  rewrite (bind_ok _ _ w0 (Some r) w2).
  - now rewrite (bind_ok _ _ w1 (Some r) w2) by now apply query_attempts_success.
  - rewrite (query_attempts_retry _ _ _ _ H0). now apply query_attempts_success.
Qed.

Lemma transient_failure_is_retried_witness :
  WB_Match plain_services (index_flaky far_apart) (Some "St. Andrew's Church")
           PyNone None None None 4 world0
  = WB_Match plain_services (index_flaky far_apart) (Some "St. Andrew's Church")
             PyNone None None None 4
             (mkWorld [ParamsKeywords "St. Andrew's Church"] [] 0).
Proof.
  eapply transient_failure_is_retried; reflexivity.
Defined.

(** ** What DBSCAN computes *)

Lemma marks_lt (m : list bool) (i : nat) : marks m i -> (i < List.length m)%nat.
Proof.
  unfold marks. intros H. destruct (Nat.lt_ge_cases i (List.length m)) as [L|G]; [exact L|].
  rewrite nth_overflow in H by exact G. discriminate H.
Qed.

Lemma marks_count (m : list bool) (i : nat) : marks m i -> (1 <= count_marked m)%nat.
Proof.
  unfold marks, count_marked. revert i.
  induction m as [|b m IH]; intros [|i] H; simpl in *; try discriminate.
  - subst b. simpl. lia.
  - specialize (IH i H). destruct b; simpl; lia.
Qed.

Lemma count_marked_le (m : list bool) : (count_marked m <= List.length m)%nat.
Proof. unfold count_marked. apply filter_length_le. Qed.

(** A larger set of the same size is the same set. *)
Lemma marks_grow (m m' : list bool) :
  List.length m = List.length m' ->
  (forall i, marks m i -> marks m' i) ->
  (count_marked m <= count_marked m')%nat /\
  ((count_marked m' <= count_marked m)%nat -> m' = m).
Proof.
  revert m'. induction m as [|b m IH]; intros [|b' m'] Hlen Hsub;
    try discriminate Hlen.
  - split; [reflexivity | trivial].
  - injection Hlen as Hlen.
    destruct (IH m' Hlen) as [IH1 IH2].
    { intros i Hi. apply (Hsub (S i)). exact Hi. }
    assert (Hb : b = true -> b' = true) by (intros ->; exact (Hsub 0%nat eq_refl)).
    unfold count_marked in *. simpl.
    destruct b, b'; simpl; try (specialize (Hb eq_refl); discriminate Hb);
      (split; [lia|]); intros H; try lia; f_equal; apply IH2; lia.
Qed.

Lemma within_refl (eps x : Q) : 0 < eps -> within eps x x = true.
Proof. intros H. apply (within_same eps x); [exact H | reflexivity | reflexivity]. Qed.

Lemma within_sym (eps x y : Q) : within eps x y = within eps y x.
Proof.
  unfold within.
  destruct (Qle_bool (Qabs (x - y)) eps) eqn:E1, (Qle_bool (Qabs (y - x)) eps) eqn:E2;
    try reflexivity.
  - apply Qle_bool_iff in E1. rewrite Qabs_Qminus in E1.
    apply Qle_bool_iff in E1. congruence.
  - apply Qle_bool_iff in E2. rewrite Qabs_Qminus in E2.
    apply Qle_bool_iff in E2. congruence.
Qed.

Lemma near_sym (eps : Q) (xs : list Q) (a b : nat) : near eps xs a b = near eps xs b a.
Proof. apply within_sym. Qed.

(** A point is marked after one round exactly when it is near a marked
    point. *)
Lemma spread_spec (eps : Q) (xs : list Q) (m : list bool) (j : nat) :
  List.length m = List.length xs -> (j < List.length xs)%nat ->
  (marks (spread eps xs m) j <->
   exists i, marks m i /\ near eps xs i j = true).
Proof.
  intros Hlen Hj. unfold marks, spread.
  rewrite (nth_indep _ false
             (existsb (fun xm => snd xm && within eps (fst xm) 0)
                      (combine xs m))) by now rewrite length_map.
  rewrite (map_nth (fun y => existsb (fun xm => snd xm && within eps (fst xm) y)
                                     (combine xs m)) xs 0 j).
  rewrite existsb_exists. split.
  - intros [[x b] [Hin H]]. simpl in H. apply andb_true_iff in H as [-> Hw].
    apply (In_nth _ _ (0, false)) in Hin as [i [Hi Hnth]].
    rewrite combine_nth in Hnth by (symmetry; exact Hlen).
    injection Hnth as Hx Hb. exists i. split; [exact Hb|].
    unfold near. now rewrite Hx.
  - intros [i [Hm Hn]]. exists (nth i xs 0, nth i m false). split.
    + rewrite <- combine_nth by (symmetry; exact Hlen). apply nth_In.
      rewrite length_combine, <- Hlen, Nat.min_id. now apply marks_lt.
    + simpl. unfold marks in Hm. rewrite Hm. exact Hn.
Qed.

Lemma spread_grows (eps : Q) (xs : list Q) (m : list bool) (i : nat) :
  0 < eps -> List.length m = List.length xs ->
  marks m i -> marks (spread eps xs m) i.
Proof.
  intros Heps Hlen Hi. apply spread_spec; [exact Hlen | |].
  - rewrite <- Hlen. now apply marks_lt.
  - exists i. split; [exact Hi|]. now apply within_refl.
Qed.

Lemma seed_marks (n i j : nat) : marks (seed n i) j <-> (j = i /\ (i < n)%nat).
Proof.
  unfold marks, seed. split.
  - intros H. assert (Hj : (j < n)%nat).
    { apply marks_lt in H. now rewrite length_map, length_seq in H. }
    rewrite (nth_indep _ false (Nat.eqb i 0)) in H by now rewrite length_map, length_seq.
    rewrite map_nth, seq_nth in H by exact Hj. simpl in H.
    apply Nat.eqb_eq in H. subst. auto.
  - intros [-> Hi].
    rewrite (nth_indep _ false (Nat.eqb i 0)) by now rewrite length_map, length_seq.
    rewrite map_nth, seq_nth by exact Hi. simpl. apply Nat.eqb_refl.
Qed.

Lemma iter_spread_length (eps : Q) (xs : list Q) (i k : nat) :
  List.length (Nat.iter k (spread eps xs) (seed (List.length xs) i)) = List.length xs.
Proof.
  destruct k; simpl; [|apply spread_length].
  unfold seed. now rewrite length_map, length_seq.
Qed.

(** After [k] rounds the marked set is stable or has more than [k]
    points. *)
Lemma iter_spread_progress (eps : Q) (xs : list Q) (i k : nat) :
  0 < eps -> (i < List.length xs)%nat ->
  let m := Nat.iter k (spread eps xs) (seed (List.length xs) i) in
  spread eps xs m = m \/ (k + 1 <= count_marked m)%nat.
Proof.
  intros Heps Hi. induction k as [|k IH]; cbn zeta.
  - right. simpl. apply (marks_count _ i). now apply seed_marks.
  - simpl. set (m := Nat.iter k (spread eps xs) (seed (List.length xs) i)) in *.
    cbn zeta in IH. destruct IH as [Hfix | Hcount].
    + left. now rewrite Hfix.
    + assert (Hlen : List.length m = List.length xs) by apply iter_spread_length.
      destruct (marks_grow m (spread eps xs m)) as [Hle Heq].
      * now rewrite spread_length.
      * intros j Hj. now apply spread_grows.
      * destruct (Nat.le_gt_cases (count_marked (spread eps xs m)) (count_marked m))
          as [Hsame | Hmore].
        -- left. pose proof (Heq Hsame) as E. rewrite E. exact E.
        -- right. lia.
Qed.

(** The reachable set is closed: a point near a reachable point is
    reachable. *)
Lemma reachable_closed (eps : Q) (xs : list Q) (i a b : nat) :
  0 < eps -> (i < List.length xs)%nat -> (b < List.length xs)%nat ->
  marks (reachable eps xs i) a -> near eps xs a b = true ->
  marks (reachable eps xs i) b.
Proof.
  intros Heps Hi Hb Ha Hn. unfold reachable in *.
  destruct (iter_spread_progress eps xs i (List.length xs) Heps Hi) as [Hfix | Hcount].
  - rewrite <- Hfix. apply spread_spec; [apply iter_spread_length | exact Hb |].
    exists a. auto.
  - pose proof (count_marked_le (Nat.iter (List.length xs) (spread eps xs)
                                   (seed (List.length xs) i))) as Hle.
    rewrite iter_spread_length in Hle. lia.
Qed.

(** It contains its seed. *)
Lemma reachable_seed (eps : Q) (xs : list Q) (i : nat) :
  0 < eps -> (i < List.length xs)%nat -> marks (reachable eps xs i) i.
Proof.
  intros Heps Hi. unfold reachable.
  induction (List.length xs) as [|k IH] at 1; simpl.
  - now apply seed_marks.
  - apply spread_grows; [exact Heps | apply iter_spread_length | exact IH].
Qed.

(** It stays inside every closed set that contains the seed. *)
Lemma reachable_least (eps : Q) (xs : list Q) (i : nat) (C : nat -> Prop) :
  C i ->
  (forall a b, (a < List.length xs)%nat -> (b < List.length xs)%nat ->
               C a -> near eps xs a b = true -> C b) ->
  forall j, marks (reachable eps xs i) j -> C j.
Proof.
  intros Hi Hclosed. unfold reachable.
  induction (List.length xs) as [|k IH] at 1; simpl; intros j Hj.
  - apply seed_marks in Hj as [-> _]. exact Hi.
  - assert (Hjn : (j < List.length xs)%nat).
    { apply marks_lt in Hj. now rewrite spread_length in Hj. }
    apply spread_spec in Hj as [a [Ha Hn]];
      [| apply iter_spread_length | exact Hjn].
    apply (Hclosed a j); auto.
    apply marks_lt in Ha. now rewrite iter_spread_length in Ha.
Qed.

Lemma paint_spec (L : Z) (comp : list bool) (labels : list Z) (a : nat) :
  List.length comp = List.length labels -> (a < List.length labels)%nat ->
  label_of (paint L comp labels) a
  = if nth a comp false && (label_of labels a =? -1)%Z then L else label_of labels a.
Proof.
  intros Hlen Ha. unfold label_of, paint.
  set (f := fun cl : bool * Z => if fst cl && (snd cl =? -1)%Z then L else snd cl).
  rewrite (nth_indep _ (-1)%Z (f (false, (-1)%Z)))
    by (rewrite length_map, length_combine; lia).
  rewrite map_nth, combine_nth by exact Hlen. reflexivity.
Qed.

(** Painting the set reachable from an unlabelled point: the set has no
    labelled point, and it is exactly what gets the new label. *)
Lemma paint_reachable (eps : Q) (xs : list Q) (labels : list Z) (L : Z) (i a : nat) :
  0 < eps -> labelling_ok eps xs labels L ->
  (i < List.length xs)%nat -> label_of labels i = (-1)%Z ->
  (a < List.length xs)%nat ->
  (marks (reachable eps xs i) a -> label_of labels a = (-1)%Z) /\
  label_of (paint L (reachable eps xs i) labels) a
  = if nth a (reachable eps xs i) false then L else label_of labels a.
Proof.
  intros Heps (Hlen & HL & Hrange & Hclosed) Hi Hunl Ha.
  assert (Hfree : marks (reachable eps xs i) a -> label_of labels a = (-1)%Z).
  { apply (reachable_least eps xs i (fun j => label_of labels j = (-1)%Z));
      [exact Hunl|].
    intros u v Hu Hv Hlu Hn.
    destruct (Z.eq_dec (label_of labels v) (-1)) as [E|E]; [exact E|].
    rewrite near_sym in Hn.
    rewrite <- (Hclosed v u Hv Hu E Hn) in E. contradiction. }
  split; [exact Hfree|].
  rewrite paint_spec by (rewrite ?reachable_length; lia).
  destruct (nth a (reachable eps xs i) false) eqn:Er; [|reflexivity].
  rewrite (Hfree Er). reflexivity.
Qed.

(** One turn of the loop on an unlabelled point keeps the invariant. *)
Lemma paint_keeps_labelling (eps : Q) (xs : list Q) (labels : list Z) (L : Z) (i : nat) :
  0 < eps -> labelling_ok eps xs labels L ->
  (i < List.length xs)%nat -> label_of labels i = (-1)%Z ->
  labelling_ok eps xs (paint L (reachable eps xs i) labels) (L + 1).
Proof.
  intros Heps Hok Hi Hunl.
  pose proof (fun a Ha => paint_reachable eps xs labels L i a Heps Hok Hi Hunl Ha)
    as Hp.
  destruct Hok as (Hlen & HL & Hrange & Hclosed).
  repeat split.
  - rewrite paint_length; [exact Hlen | now rewrite reachable_length].
  - lia.
  - destruct (Hp a H) as [_ E]. rewrite E in *.
    destruct (nth a (reachable eps xs i) false); [lia|].
    specialize (Hrange a H H0). lia.
  - destruct (Hp a H) as [_ E]. rewrite E in *.
    destruct (nth a (reachable eps xs i) false); [lia|].
    specialize (Hrange a H H0). lia.
  - intros a b Ha Hb Hlab Hn.
    destruct (Hp a Ha) as [_ Ea]. destruct (Hp b Hb) as [Hfb Eb].
    rewrite Ea in *. rewrite Eb.
    destruct (nth a (reachable eps xs i) false) eqn:Ra.
    + assert (Rb : marks (reachable eps xs i) b)
        by (apply (reachable_closed eps xs i a b); assumption).
      unfold marks in Rb. now rewrite Rb.
    + pose proof (Hclosed a b Ha Hb Hlab Hn) as E.
      destruct (nth b (reachable eps xs i) false) eqn:Rb; [|exact E].
      rewrite (Hfb Rb) in E. congruence.
Qed.

(** The loop: the invariant holds at the end, labels are never changed,
    and every point the loop went through has one. *)
Lemma dbscan_loop_ok (eps : Q) (xs : list Q) (todo : list nat) :
  0 < eps -> (forall i, In i todo -> (i < List.length xs)%nat) ->
  forall labels L, labelling_ok eps xs labels L ->
  exists L',
    labelling_ok eps xs (dbscan_loop eps xs todo labels L) L' /\
    (forall a, (a < List.length xs)%nat -> label_of labels a <> (-1)%Z ->
               label_of (dbscan_loop eps xs todo labels L) a = label_of labels a) /\
    (forall i, In i todo -> label_of (dbscan_loop eps xs todo labels L) i <> (-1)%Z).
Proof.
  intros Heps. induction todo as [|i todo IH]; intros Htodo labels L Hok; simpl.
  - exists L. split; [exact Hok|]. split; [reflexivity | intros i []].
  - assert (Hi : (i < List.length xs)%nat) by (apply Htodo; now left).
    assert (Htodo' : forall j, In j todo -> (j < List.length xs)%nat)
      by (intros j Hj; apply Htodo; now right).
    fold (label_of labels i).
    destruct (Z.eqb_spec (label_of labels i) (-1)) as [Hunl|Hlab].
    + pose proof (paint_keeps_labelling eps xs labels L i Heps Hok Hi Hunl) as Hok1.
      destruct (IH Htodo' _ _ Hok1) as (L' & Hok' & Hkeep & Hdone).
      assert (Hstep : forall a, (a < List.length xs)%nat ->
                label_of labels a <> (-1)%Z ->
                label_of (paint L (reachable eps xs i) labels) a = label_of labels a).
      { intros a Ha Hla.
        destruct (paint_reachable eps xs labels L i a Heps Hok Hi Hunl Ha) as [Hf E].
        rewrite E. destruct (nth a (reachable eps xs i) false) eqn:Ra; [|reflexivity].
        now rewrite (Hf Ra) in Hla. }
      assert (Hnew : label_of (paint L (reachable eps xs i) labels) i = L).
      { destruct (paint_reachable eps xs labels L i i Heps Hok Hi Hunl Hi) as [_ E].
        rewrite E. pose proof (reachable_seed eps xs i Heps Hi) as Rs.
        unfold marks in Rs. now rewrite Rs. }
      exists L'. split; [exact Hok'|]. split.
      * intros a Ha Hla. rewrite Hkeep; [now apply Hstep | exact Ha |].
        now rewrite Hstep.
      * intros j [<-|Hj]; [|now apply Hdone].
        destruct Hok as (_ & HL & _).
        rewrite Hkeep; [| exact Hi | rewrite Hnew; lia]. rewrite Hnew. lia.
    + destruct (IH Htodo' _ _ Hok) as (L' & Hok' & Hkeep & Hdone).
      exists L'. split; [exact Hok'|]. split; [exact Hkeep|].
      intros j [<-|Hj]; [|now apply Hdone]. now rewrite Hkeep.
Qed.

Lemma labelling_start (eps : Q) (xs : list Q) :
  labelling_ok eps xs (repeat (-1)%Z (List.length xs)) 0.
Proof.
  repeat split.
  - apply repeat_length.
  - lia.
  - unfold label_of in H0. rewrite nth_repeat_lt in H0 by exact H. congruence.
  - unfold label_of in H0. rewrite nth_repeat_lt in H0 by exact H. congruence.
  - intros a b Ha _ Hlab. unfold label_of in Hlab.
    rewrite nth_repeat_lt in Hlab by exact Ha. congruence.
Qed.

(** DBSCAN labels every point, and points at distance at most [eps]
    get the same label. *)
Lemma DBSCAN_spec (eps : Q) (xs : list Q) (labels : list Z) :
  DBSCAN_fit_predict eps xs = Ok labels ->
  0 < eps /\ List.length labels = List.length xs /\
  (forall a, (a < List.length xs)%nat -> label_of labels a <> (-1)%Z) /\
  (forall a b, (a < List.length xs)%nat -> (b < List.length xs)%nat ->
               near eps xs a b = true -> label_of labels b = label_of labels a).
Proof.
  unfold DBSCAN_fit_predict. destruct (Qle_bool eps 0) eqn:E; [discriminate|].
  intros [= <-].
  assert (Heps : 0 < eps).
  { apply Qnot_le_lt. intros Hle. apply Qle_bool_iff in Hle. congruence. }
  destruct (dbscan_loop_ok eps xs (seq 0 (List.length xs)) Heps) with
    (labels := repeat (-1)%Z (List.length xs)) (L := 0%Z)
    as (L' & (Hlen & _ & _ & Hclosed) & _ & Hdone).
  - intros i Hi. apply in_seq in Hi. lia.
  - apply labelling_start.
  - split; [exact Heps|]. split; [exact Hlen|].
    assert (Hall : forall a, (a < List.length xs)%nat ->
              label_of (dbscan_loop eps xs (seq 0 (List.length xs))
                          (repeat (-1)%Z (List.length xs)) 0) a <> (-1)%Z).
    { intros a Ha. apply Hdone. apply in_seq. lia. }
    split; [exact Hall|].
    intros a b Ha Hb Hn. apply Hclosed; auto.
Qed.



(** ** The decision of the clustering stage, in terms of scores *)

Lemma Qmax2_ub (x a : Q) : x <= Qmax2 x a /\ a <= Qmax2 x a.
Proof.
  unfold Qmax2. destruct (Qle_bool x a) eqn:E.
  - apply Qle_bool_iff in E. split; [exact E | apply Qle_refl].
  - split; [apply Qle_refl|]. apply Qlt_le_weak, Qnot_le_lt.
    intros H. apply Qle_bool_iff in H. congruence.
Qed.

Lemma fold_Qmax2_acc (l : list Q) (x : Q) : x <= fold_left Qmax2 l x.
Proof.
  revert x. induction l as [|a l IH]; intros x; simpl; [apply Qle_refl|].
  eapply Qle_trans; [apply (proj1 (Qmax2_ub x a)) | apply IH].
Qed.

(** The maximum is at least every score. *)
Lemma fold_Qmax2_ub (l : list Q) (x y : Q) :
  In y (x :: l) -> y <= fold_left Qmax2 l x.
Proof.
  revert x. induction l as [|a l IH]; intros x Hin.
  - destruct Hin as [->|[]]. apply Qle_refl.
  - simpl. destruct Hin as [->|[->|Hin]].
    + eapply Qle_trans; [apply (proj1 (Qmax2_ub y a)) | apply fold_Qmax2_acc].
    + eapply Qle_trans; [apply (proj2 (Qmax2_ub x y)) | apply fold_Qmax2_acc].
    + apply IH. now right.
Qed.

(** A row of the table is top-scored exactly when no score exceeds
    its own. *)
Lemma is_top_spec (df : DataFrame) (r : row) :
  In r (rows df) ->
  (is_top df r = true <-> forall y, In y (scores df) -> y <= r_score r).
Proof.
  intros Hr. unfold is_top, score_max.
  assert (Hs : In (r_score r) (scores df)) by (unfold scores; now apply in_map).
  destruct (scores df) as [|x l] eqn:E; [destruct Hs|].
  pose proof (fold_Qmax2_in l x) as Hin.
  pose proof (fold_Qmax2_ub l x) as Hub.
  split.
  - intros H y Hy. apply Qeq_bool_iff in H. rewrite H. now apply Hub.
  - intros H. apply Qeq_bool_iff. apply Qle_antisym; [now apply Hub | now apply H].
Qed.

Lemma nth_set_cells (c : string) (rs : list row) (vs : list pyval) (k : nat)
    (d : row) (dv : pyval) :
  List.length vs = List.length rs -> (k < List.length rs)%nat ->
  nth k (map (fun rv => set_cell c (snd rv) (fst rv)) (combine rs vs)) d
  = set_cell c (nth k vs dv) (nth k rs d).
Proof.
  intros Hlen Hk.
  set (f := fun rv : row * pyval => set_cell c (snd rv) (fst rv)).
  rewrite (nth_indep _ d (f (d, dv)))
    by (rewrite length_map, length_combine; lia).
  rewrite map_nth, combine_nth by (symmetry; exact Hlen). reflexivity.
Qed.

(** What [get_cluster] returned: the labels of DBSCAN, row by row. *)
Lemma get_cluster_inv (results : DataFrame) (epsilon : Q) (clustered : DataFrame) :
  get_cluster results epsilon = Ok clustered ->
  exists labels,
    DBSCAN_fit_predict epsilon (scores results) = Ok labels /\
    nrows clustered = nrows results /\
    scores clustered = scores results /\
    has_column clustered "clusters" = true /\
    forall k d, (k < nrows results)%nat ->
      cell (nth k (rows clustered) d) "clusters" = PyInt (label_of labels k) /\
      r_score (nth k (rows clustered) d) = nth k (scores results) 0 /\
      r_id (nth k (rows clustered) d) = r_id (nth k (rows results) d).
Proof.
  unfold get_cluster. intros H. apply rbind_inv in H as [labels [Hdb H]].
  exists labels. split; [exact Hdb|].
  pose proof (set_column_scores _ _ _ _ H) as Hsc.
  apply set_column_inv in H as [Hlen ->]. rewrite length_map in Hlen.
  split.
  { unfold nrows. simpl. rewrite length_map, length_combine, length_map. 
    unfold nrows in Hlen. lia. }
  split; [exact Hsc|]. split; [apply add_column_has|].
  intros k d Hk. simpl rows.
  rewrite (nth_set_cells _ _ _ k d (PyInt (-1)))
    by (rewrite ?length_map; assumption).
  split; [|split].
  - rewrite set_cell_same.
    change (PyInt (-1)) with (PyInt (-1)%Z). unfold label_of.
    now rewrite (map_nth PyInt labels (-1)%Z k).
  - simpl. unfold scores.
    rewrite (nth_indep _ 0 (r_score d)) by now rewrite length_map.
    now rewrite map_nth.
  - reflexivity.
Qed.

(** The target cluster is the label of a top-scored row. *)
Lemma targetcluster_inv (clustered : DataFrame) (target : pyval) :
  targetcluster clustered = Ok target ->
  exists r, In r (rows clustered) /\ is_top clustered r = true /\
            target = cell r "clusters".
Proof.
  unfold targetcluster. intros H. apply rbind_inv in H as [cells [Hg Hf]].
  apply getitem_inv in Hg as [_ ->]. simpl rows in Hf.
  destruct (filter (is_top clustered) (rows clustered)) as [|r rest] eqn:E;
    [discriminate Hf|].
  injection Hf as <-. exists r.
  assert (Hr : In r (r :: rest)) by now left.
  rewrite <- E in Hr. apply filter_In in Hr as [Hin Htop]. auto.
Qed.

Lemma filter_two {A} (p : A -> bool) (l : list A) (a b : nat) (d : A) :
  (a < List.length l)%nat -> (b < List.length l)%nat -> a <> b ->
  p (nth a l d) = true -> p (nth b l d) = true ->
  (2 <= List.length (filter p l))%nat.
Proof.
  revert a b. induction l as [|x l IH]; intros a b Ha Hb Hab Hpa Hpb;
    simpl in Ha, Hb; [lia|].
  destruct a as [|a], b as [|b]; simpl in *; try lia.
  - rewrite Hpa. simpl.
    pose proof (filter_length_pos p l (nth b l d)) as H.
    specialize (H (nth_In l d (proj2 (Nat.succ_lt_mono _ _) Hb)) Hpb). lia.
  - rewrite Hpb. simpl.
    pose proof (filter_length_pos p l (nth a l d)) as H.
    specialize (H (nth_In l d (proj2 (Nat.succ_lt_mono _ _) Ha)) Hpa). lia.
  - assert (H : (2 <= List.length (filter p l))%nat)
      by (apply (IH a b); auto; lia).
    destruct (p x); simpl; lia.
Qed.



Lemma within_close (eps x y : Q) : y <= x -> x - y <= eps -> within eps x y = true.
Proof.
  intros Hle H. unfold within. apply Qle_bool_iff.
  rewrite Qabs_pos by lra. exact H.
Qed.

(** A top score with another score at distance at most [epsilon]: the
    clustering stage returns nothing. *)
Lemma clustering_ambiguous (results : DataFrame) (epsilon : Q) (a b : nat) :
  0 < epsilon ->
  (a < nrows results)%nat -> (b < nrows results)%nat -> a <> b ->
  (forall c, (c < nrows results)%nat ->
             nth c (scores results) 0 <= nth a (scores results) 0) ->
  near epsilon (scores results) a b = true ->
  clustering results epsilon = Ok None.
Proof.
  intros Heps Ha Hb Hab Hmax Hnear.
  destruct (clustering_decision results epsilon)
    as (clustered & target & Hc & Ht & _ & ->); [lia | exact Heps |].
  destruct (get_cluster_inv _ _ _ Hc) as (labels & Hdb & Hn & Hsc & _ & Hrows).
  destruct (DBSCAN_spec _ _ _ Hdb) as (_ & _ & _ & Hsame).
  rewrite <- nrows_scores in Hsame.
  destruct (targetcluster_inv _ _ Ht) as (r & Hin & Htop & ->).
  pose proof Hin as Hin'.
  apply (In_nth _ _ r) in Hin' as (f & Hf & Hr). fold (nrows clustered) in Hf.
  rewrite Hn in Hf.
  destruct (Hrows f r Hf) as (Hlf & Hxf & _). rewrite Hr in Hlf, Hxf.
  assert (Hfa : near epsilon (scores results) f a = true).
  { apply (within_same epsilon (nth a (scores results) 0)); [exact Heps | | reflexivity].
    apply Qle_antisym; [now apply Hmax|].
    rewrite <- Hxf. apply (proj1 (is_top_spec clustered r Hin) Htop).
    rewrite Hsc. apply nth_In. now rewrite <- nrows_scores. }
  assert (Hla : label_of labels a = label_of labels f) by now apply Hsame.
  assert (Hlb : label_of labels b = label_of labels a) by now apply Hsame.
  assert (Hsize : (2 <= target_cluster_size clustered (cell r "clusters"))%nat).
  { unfold target_cluster_size, nrows. simpl rows.
    apply (filter_two _ _ a b r); unfold nrows in *; try lia.
    - destruct (Hrows a r Ha) as (-> & _). rewrite Hlf. simpl.
      apply Z.eqb_eq. exact Hla.
    - destruct (Hrows b r Hb) as (-> & _). rewrite Hlf. simpl.
      apply Z.eqb_eq. congruence. }
  destruct (Nat.eqb_spec (target_cluster_size clustered (cell r "clusters")) 1);
    [lia | reflexivity].
Qed.


(** ** The ambiguity rule *)








(** ** The candidate behind an output list *)

Lemma filter_two_inv {A} (p : A -> bool) (l : list A) (x y : A) (rest : list A) (d : A) :
  filter p l = x :: y :: rest ->
  exists a b, (a < b)%nat /\ (b < List.length l)%nat /\
              p (nth a l d) = true /\ p (nth b l d) = true.
Proof.
  induction l as [|h l IH]; simpl; [discriminate|].
  destruct (p h) eqn:Eh.
  - intros [= _ Hf].
    assert (Hy : In y (filter p l)) by (rewrite Hf; now left).
    apply filter_In in Hy as [Hin Hp].
    apply (In_nth _ _ d) in Hin as (k & Hk & Hnth).
    exists 0%nat, (S k). simpl. rewrite Hnth. repeat split; auto; lia.
  - intros Hf. destruct (IH Hf) as (a & b & Hab & Hb & Hpa & Hpb).
    exists (S a), (S b). simpl. repeat split; auto; lia.
Qed.

(** A table that passed the clustering stage has at most one top-scored
    row: tied candidates are always one cluster. *)
Lemma selection_is_single (results : DataFrame) (epsilon : Q) (clustered : DataFrame)
    (r : row) (rs : list row) :
  clustering results epsilon = Ok (Some clustered) ->
  filter (is_top clustered) (rows clustered) = r :: rs ->
  rs = [].
Proof.
  intros Hcl Hsel. destruct rs as [|r2 rest]; [reflexivity|]. exfalso.
  destruct (filter_two_inv _ _ _ _ _ r Hsel) as (a & b & Hab & Hb & Hpa & Hpb).
  pose proof Hcl as Hcl'. unfold clustering in Hcl'.
  destruct (Nat.ltb_spec 1 (nrows results)) as [Hn|Hn].
  - apply rbind_inv in Hcl' as [df [Hc H]].
    apply rbind_inv in H as [target [_ H]].
    destruct (negb _); [discriminate H|]. injection H as <-.
    destruct (get_cluster_inv _ _ _ Hc) as (labels & Hdb & Hnc & Hsc & _ & Hrows).
    destruct (DBSCAN_spec _ _ _ Hdb) as (Heps & _).
    fold (nrows df) in Hb. rewrite Hnc in Hb.
    assert (Ha : (a < nrows results)%nat) by lia.
    assert (Hina : In (nth a (rows df) r) (rows df))
      by (apply nth_In; fold (nrows df); lia).
    assert (Hinb : In (nth b (rows df) r) (rows df))
      by (apply nth_In; fold (nrows df); lia).
    pose proof (proj1 (is_top_spec _ _ Hina) Hpa) as Ta.
    pose proof (proj1 (is_top_spec _ _ Hinb) Hpb) as Tb.
    destruct (Hrows a r Ha) as (_ & Hxa & _). destruct (Hrows b r Hb) as (_ & Hxb & _).
    rewrite Hxa, Hsc in Ta. rewrite Hxb, Hsc in Tb.
    assert (Hxs : forall c, (c < nrows results)%nat ->
                            In (nth c (scores results) 0) (scores results))
      by (intros c Hc'; apply nth_In; now rewrite <- nrows_scores).
    rewrite (clustering_ambiguous results epsilon a b) in Hcl; auto;
      [discriminate Hcl | lia |].
    apply within_close; [now apply Ta, Hxs|].
    pose proof (Tb _ (Hxs a Ha)). lra.
  - injection Hcl' as <-. unfold nrows in Hn. lia.
Qed.

(** *** Where the rows of the pipeline come from *)

Lemma set_cell_same_but (c : string) (v : pyval) (r : row) :
  same_but c (set_cell c v r) r.
Proof.
  repeat split. intros d Hd. now apply set_cell_other.
Qed.

Lemma set_column_rows (df : DataFrame) (c : string) (vs : list pyval) df' :
  set_column df c vs = Ok df' ->
  forall r, In r (rows df') ->
    exists r1 v, In (r1, v) (combine (rows df) vs) /\ r = set_cell c v r1.
Proof.
  intros H r Hr. apply set_column_inv in H as [_ ->]. simpl in Hr.
  apply in_map_iff in Hr as ([r1 v] & <- & Hin). eauto.
Qed.

Lemma set_column_same_but (df : DataFrame) (c : string) (vs : list pyval) df' :
  set_column df c vs = Ok df' ->
  forall r, In r (rows df') -> exists r1, In r1 (rows df) /\ same_but c r r1.
Proof.
  intros H r Hr. destruct (set_column_rows _ _ _ _ H r Hr) as (r1 & v & Hin & ->).
  exists r1. split; [now apply in_combine_l in Hin | apply set_cell_same_but].
Qed.

Lemma get_confidence_same_but (points : DataFrame) (thresh : pyfloat) df :
  get_confidence points thresh = Ok df ->
  forall r, In r (rows df) -> exists r1, In r1 (rows points) /\ same_but "z" r r1.
Proof.
  unfold get_confidence. destruct (nrows points =? 1)%nat.
  - intros [= <-] r Hr. simpl in Hr. apply in_map_iff in Hr as (r1 & <- & Hin).
    exists r1. split; [exact Hin | apply set_cell_same_but].
  - apply set_column_same_but.
Qed.

Lemma clustering_same_but (results : DataFrame) (epsilon : Q) (clustered : DataFrame) :
  clustering results epsilon = Ok (Some clustered) ->
  forall r, In r (rows clustered) ->
    exists r1, In r1 (rows results) /\ same_but "clusters" r r1.
Proof.
  unfold clustering. destruct (1 <? nrows results)%nat.
  2:{ intros [= <-] r Hr. exists r. split; [exact Hr|]. repeat split. }
  intros H. apply rbind_inv in H as [df [Hc H]].
  apply rbind_inv in H as [target [_ H]].
  destruct (negb _); [discriminate H|]. injection H as <-.
  unfold get_cluster in Hc. apply rbind_inv in Hc as [labels [_ Hc]].
  exact (set_column_same_but _ _ _ _ Hc).
Qed.

(** The values [rmapM] returns, one by one. *)
Lemma rmapM_combine {A B C} (f : B -> result C) (g : A -> B) (l : list A)
    (vs : list C) (a : A) (v : C) :
  rmapM f (map g l) = Ok vs -> In (a, v) (combine l vs) -> f (g a) = Ok v.
Proof.
  revert vs. induction l as [|x l IH]; intros vs H Hin; [destruct Hin|].
  simpl in H. apply rbind_inv in H as (b & Hb & H).
  apply rbind_inv in H as (bs & Hbs & [= <-]).
  destruct Hin as [[= <- <-] | Hin]; [exact Hb | now apply (IH bs)].
Qed.

(** A row that leaves the scoring stage is a row of the retrieved
    table, with its postal code normalised when the caller gave one. *)
Lemma scoring_comes_from (S : services) (table : DataFrame) (postcode : pyval)
    (results : DataFrame) :
  scoring S table postcode = Ok results ->
  forall r, In r (rows results) ->
    exists r0, In r0 (rows table) /\
      r_id r = r_id r0 /\ r_score r = r_score r0 /\
      (forall d, "postalCode" <> d -> "z" <> d -> cell r d = cell r0 d) /\
      (cell r "postalCode" = cell r0 "postalCode" \/
       normalize_postalcode S (cell r0 "postalCode") = Ok (cell r "postalCode")).
Proof.
  unfold scoring. intros H r Hr. apply rbind_inv in H as [pc [_ H]].
  assert (Hnone : get_confidence table thresh_default = Ok results ->
    exists r0, In r0 (rows table) /\
      r_id r = r_id r0 /\ r_score r = r_score r0 /\
      (forall d, "postalCode" <> d -> "z" <> d -> cell r d = cell r0 d) /\
      (cell r "postalCode" = cell r0 "postalCode" \/
       normalize_postalcode S (cell r0 "postalCode") = Ok (cell r "postalCode"))).
  { intros Hc.
    destruct (get_confidence_same_but _ _ _ Hc r Hr) as (r0 & Hin & Hid & Hsc & Hcells).
    exists r0. split; [exact Hin|].
    split; [exact Hid|]. split; [exact Hsc|].
    split; [intros d _ Hz; now apply Hcells|].
    left. apply Hcells. discriminate. }
  assert (Hsome :
    rbind (getitem table "postalCode") (fun cells =>
    rbind (rmapM (normalize_postalcode S) cells) (fun normalized =>
    rbind (set_column table "postalCode" normalized) (fun results =>
    let results :=
      select_rows (fun r => py_eqb (cell r "postalCode") pc) results in
    if (1 <? nrows results)%nat
    then get_confidence results thresh_default
    else Ok (set_column_scalar results "z" (PyStr "Sole Postal Code")))))
    = Ok results ->
    exists r0, In r0 (rows table) /\
      r_id r = r_id r0 /\ r_score r = r_score r0 /\
      (forall d, "postalCode" <> d -> "z" <> d -> cell r d = cell r0 d) /\
      (cell r "postalCode" = cell r0 "postalCode" \/
       normalize_postalcode S (cell r0 "postalCode") = Ok (cell r "postalCode"))).
  { clear H Hnone. intros H.
    apply rbind_inv in H as [cells [Hcells H]].
    apply getitem_inv in Hcells as [_ ->].
    apply rbind_inv in H as [normalized [Hnorm H]].
    apply rbind_inv in H as [df [Hdf H]]. cbv zeta in H.
    assert (Hz : exists r1, In r1 (rows df) /\ same_but "z" r r1).
    { destruct (1 <? nrows _)%nat.
      - destruct (get_confidence_same_but _ _ _ H r Hr) as (r1 & Hin & Hsame).
        simpl in Hin. apply filter_In in Hin as [Hin _]. eauto.
      - injection H as <-. simpl in Hr.
        apply in_map_iff in Hr as (r1 & <- & Hin).
        apply filter_In in Hin as [Hin _].
        exists r1. split; [exact Hin | apply set_cell_same_but]. }
    destruct Hz as (r1 & Hin1 & Hid1 & Hsc1 & Hc1).
    destruct (set_column_rows _ _ _ _ Hdf r1 Hin1) as (r0 & v & Hin0 & ->).
    pose proof (rmapM_combine _ _ _ _ _ _ Hnorm Hin0) as Hv.
    apply in_combine_l in Hin0.
    exists r0. split; [exact Hin0|].
    split; [exact Hid1|]. split; [exact Hsc1|].
    split.
    - intros d Hp Hzd. rewrite (Hc1 d Hzd). now apply set_cell_other.
    - right. rewrite (Hc1 "postalCode") by discriminate.
      now rewrite set_cell_same. }
  destruct pc; auto.
Qed.

(** A row that reaches the selection is a row of the retrieved table. *)
Lemma pipeline_comes_from (S : services) (table : DataFrame) (postcode : pyval)
    (results clustered : DataFrame) (epsilon : Q) :
  scoring S table postcode = Ok results ->
  clustering results epsilon = Ok (Some clustered) ->
  forall r, In r (rows clustered) ->
    exists r0, In r0 (rows table) /\ comes_from S r r0.
Proof.
  intros Hs Hc r Hr.
  destruct (clustering_same_but _ _ _ Hc r Hr) as (r1 & Hin1 & Hid1 & Hsc1 & Hc1).
  destruct (scoring_comes_from _ _ _ _ Hs r1 Hin1)
    as (r0 & Hin0 & Hid0 & Hsc0 & Hc0 & Hpc).
  exists r0. split; [exact Hin0|]. unfold comes_from.
  split; [congruence|]. split; [congruence|]. split.
  - intros d Hp Hz Hcl. rewrite (Hc1 d Hcl). now apply Hc0.
  - rewrite (Hc1 "postalCode") by discriminate. exact Hpc.
Qed.

(** X11. Every field of an output list comes from one candidate, a row
    [r0] of the retrieved table: its id, its name, its aliases (never a
    join over tied candidates), its locality, its postal code (as it is
    or in normal form) and its denomination; the match ratio is that of
    its name and aliases, and the combined confidence that of this
    ratio and of the confidence in the list. *)
Theorem output_is_one_candidate (S : services) (client : es_client)
    (namestring : option string) (postcode : pyval)
    (boundaries : option boundaries_arg) (polygon : option (list point))
    (DiagnosticDictionary : option (list (string * string))) (epsilon : Q)
    (w w' : world) (table : DataFrame) (out : list outval) :
  query_attempts 3 (ES_Query S client namestring postcode boundaries polygon) w
    = (Ok (Some (Frame table)), w') ->
  WB_Match S client namestring postcode boundaries polygon
           DiagnosticDictionary epsilon w = (Ok (Some out), w') ->
  exists r0 name CONF PC extra,
    In r0 (rows table) /\
    namestring = Some name /\
    (PC = cell r0 "postalCode" \/
     normalize_postalcode S (cell r0 "postalCode") = Ok PC) /\
    let NAME := py_str S (cell r0 "name") in
    let ALSO := py_str S (cell r0 "alsoKnownAs") in
    let LEV := Z.max (partial_ratio S (lower S name) (lower S NAME))
                     (partial_ratio S (lower S name) (lower S ALSO)) in
    out = ([Scalar (PyStr (r_id r0)); Scalar CONF; Scalar (PyStr NAME);
            Scalar (PyStr ALSO); Scalar (PyStr (py_str S (cell r0 "locality")));
            Scalar (PyStr (py_str S PC));
            Scalar (PyStr (py_str S (cell r0 "tags.denomination")));
            Scalar (PyInt LEV);
            Scalar (combined_confidence LEV CONF)] ++ extra)%list.
Proof.
  intros Hq H.
  apply WB_Match_inv in H as (table' & results & clustered & Hq' & Hs & Hc & Hf).
  rewrite Hq in Hq'. injection Hq' as <-.
  apply finalizing_inv in Hf as (r & rs & name & extra & Hsel & Hname & Hout).
  cbv zeta in Hout. destruct Hout as [_ ->].
  rewrite (selection_is_single _ _ _ _ _ Hc Hsel).
  assert (Hin : In r (rows clustered)).
  { apply (proj1 (filter_In (is_top clustered) r (rows clustered))).
    rewrite Hsel. now left. }
  destruct (pipeline_comes_from _ _ _ _ _ _ Hs Hc r Hin)
    as (r0 & Hin0 & Hid & _ & Hcells & Hpc).
  exists r0, name, (cell r "z"), (cell r "postalCode"), extra.
  split; [exact Hin0|]. split; [exact Hname|]. split; [exact Hpc|].
  cbv zeta. cbn [map join].
  rewrite Hid.
  rewrite (Hcells "name"), (Hcells "alsoKnownAs"), (Hcells "locality"),
    (Hcells "tags.denomination") by discriminate.
  reflexivity.
Qed.

Lemma output_is_one_candidate_witness :
  exists r0 name CONF PC extra,
    In r0 (rows (frame_of_hits [parish "p" 42])) /\
    Some "Holy Cross Parish" = Some name /\
    (PC = cell r0 "postalCode" \/
     normalize_postalcode plain_services (cell r0 "postalCode") = Ok PC) /\
    let NAME := py_str plain_services (cell r0 "name") in
    let ALSO := py_str plain_services (cell r0 "alsoKnownAs") in
    let LEV := Z.max (partial_ratio plain_services (lower plain_services name)
                        (lower plain_services NAME))
                     (partial_ratio plain_services (lower plain_services name)
                        (lower plain_services ALSO)) in
    [Scalar (PyStr "p"); Scalar (PyStr "Sole Return Before Clustering");
     Scalar (PyStr "Holy Cross Parish"); Scalar (PyStr "");
     Scalar (PyStr "Ottawa"); Scalar (PyStr "K1A 0B1");
     Scalar (PyStr "Catholic"); Scalar (PyInt 100); Scalar (PyInt 100)]
    = ([Scalar (PyStr (r_id r0)); Scalar CONF; Scalar (PyStr NAME);
        Scalar (PyStr ALSO);
        Scalar (PyStr (py_str plain_services (cell r0 "locality")));
        Scalar (PyStr (py_str plain_services PC));
        Scalar (PyStr (py_str plain_services (cell r0 "tags.denomination")));
        Scalar (PyInt LEV);
        Scalar (combined_confidence LEV CONF)] ++ extra)%list.
Proof.
  apply (output_is_one_candidate plain_services (index_of [parish "p" 42])
           (Some "Holy Cross Parish") PyNone None None None 4 world0
           (mkWorld [ParamsKeywords "Holy Cross Parish"] [] 0)).
  - reflexivity.
  - reflexivity.
Defined.

Lemma id_scores_of_combine (c : string) (rs : list row) (vs : list pyval) :
  List.length vs = List.length rs ->
  map (fun r => (r_id r, r_score r))
      (map (fun rv => set_cell c (snd rv) (fst rv)) (combine rs vs))
  = map (fun r => (r_id r, r_score r)) rs.
Proof.
  revert vs. induction rs as [|r rs IH]; intros [|v vs] H; try discriminate H.
  - reflexivity.
  - simpl. f_equal. apply IH. now injection H.
Qed.

Lemma set_column_id_scores (df : DataFrame) (c : string) (vs : list pyval) df' :
  set_column df c vs = Ok df' -> id_scores df' = id_scores df.
Proof.
  intros H. apply set_column_inv in H as [Hlen ->].
  unfold id_scores. simpl. now apply id_scores_of_combine.
Qed.

Lemma set_column_scalar_id_scores (df : DataFrame) (c : string) (v : pyval) :
  id_scores (set_column_scalar df c v) = id_scores df.
Proof. unfold id_scores. simpl. rewrite map_map. reflexivity. Qed.

Lemma get_confidence_id_scores (points : DataFrame) (thresh : pyfloat) df :
  get_confidence points thresh = Ok df -> id_scores df = id_scores points.
Proof.
  unfold get_confidence. destruct (nrows points =? 1)%nat.
  - intros [= <-]. apply set_column_scalar_id_scores.
  - apply set_column_id_scores.
Qed.

(** The clustering stage keeps the rows, their ids and their scores. *)
Lemma clustering_id_scores (results : DataFrame) (epsilon : Q) (clustered : DataFrame) :
  clustering results epsilon = Ok (Some clustered) ->
  id_scores clustered = id_scores results.
Proof.
  unfold clustering. destruct (1 <? nrows results)%nat; [|now intros [= <-]].
  intros H. apply rbind_inv in H as [df [Hc H]].
  apply rbind_inv in H as [target [_ H]].
  destruct (negb _); [discriminate H|]. injection H as <-.
  unfold get_cluster in Hc. apply rbind_inv in Hc as [labels [_ Hc]].
  now apply set_column_id_scores in Hc.
Qed.

Lemma id_scores_scores (df : DataFrame) : scores df = map snd (id_scores df).
Proof. unfold scores, id_scores. now rewrite map_map. Qed.

(** X12. Without a postal code, the id at the head of an output list
    is the id of a hit of the retrieved table whose score no other hit
    exceeds. *)
Theorem top_hit_is_returned (S : services) (client : es_client)
    (namestring : option string)
    (boundaries : option boundaries_arg) (polygon : option (list point))
    (DiagnosticDictionary : option (list (string * string))) (epsilon : Q)
    (w w' : world) (table : DataFrame) (out : list outval) :
  query_attempts 3 (ES_Query S client namestring PyNone boundaries polygon) w
    = (Ok (Some (Frame table)), w') ->
  WB_Match S client namestring PyNone boundaries polygon
           DiagnosticDictionary epsilon w = (Ok (Some out), w') ->
  exists r, In r (rows table) /\
            nth_error out 0 = Some (Scalar (PyStr (r_id r))) /\
            forall r', In r' (rows table) -> r_score r' <= r_score r.
Proof.
  intros Hq H.
  apply WB_Match_inv in H as (table' & results & clustered & Hq' & Hs & Hc & Hf).
  rewrite Hq in Hq'. injection Hq' as <-.
  assert (Hids : id_scores clustered = id_scores table).
  { rewrite (clustering_id_scores _ _ _ Hc).
    unfold scoring in Hs. cbn [normalize_postalcode rbind] in Hs.
    now apply get_confidence_id_scores in Hs. }
  apply finalizing_inv in Hf as (rc & rs & name & extra & Hsel & _ & Hout).
  cbv zeta in Hout. destruct Hout as [_ ->].
  assert (Hrc : In rc (rows clustered) /\ is_top clustered rc = true).
  { apply filter_In. rewrite Hsel. now left. }
  destruct Hrc as [Hin Htop].
  assert (Hpair : In (r_id rc, r_score rc) (id_scores table)).
  { rewrite <- Hids. unfold id_scores.
    now apply (in_map (fun r => (r_id r, r_score r))). }
  unfold id_scores in Hpair. apply in_map_iff in Hpair as (r & Hr & Hrin).
  injection Hr as Hid Hsc.
  exists r. split; [exact Hrin|]. split; [simpl; now rewrite Hid|].
  intros r' Hr'. rewrite Hsc.
  apply (proj1 (is_top_spec _ _ Hin) Htop).
  rewrite id_scores_scores, Hids, <- id_scores_scores.
  unfold scores. now apply in_map.
Qed.

Lemma top_hit_is_returned_witness :
  exists r, In r (rows (frame_of_hits far_apart)) /\
            nth_error
              (match fst (WB_Match plain_services (index_of far_apart)
                            (Some "St. Andrew's Church") PyNone None None None 4
                            world0) with
               | Ok (Some out) => out
               | _ => []
               end) 0
            = Some (Scalar (PyStr (r_id r))) /\
            forall r', In r' (rows (frame_of_hits far_apart)) ->
                       r_score r' <= r_score r.
Proof.
  apply (top_hit_is_returned plain_services (index_of far_apart)
           (Some "St. Andrew's Church") None None None 4 world0
           (mkWorld [ParamsKeywords "St. Andrew's Church"] [] 0)).
  - reflexivity.
  - reflexivity.
Defined.

(** ** The postal-code filter *)

Lemma py_eqb_str (v : pyval) (t : string) : py_eqb v (PyStr t) = true <-> v = PyStr t.
Proof.
  destruct v; simpl; split; try discriminate;
    try (destruct f; discriminate).
  - intros H. apply String.eqb_eq in H. now subst.
  - intros [= ->]. apply String.eqb_refl.
Qed.

Lemma set_column_preserves (P : pyval -> Prop) (df : DataFrame) (c d : string)
    (vs : list pyval) df' :
  set_column df c vs = Ok df' -> c <> d ->
  Forall (fun r => P (cell r d)) (rows df) ->
  Forall (fun r => P (cell r d)) (rows df').
Proof.
  intros H Hcd HP. apply set_column_inv in H as [_ ->]. simpl.
  rewrite Forall_forall in *. intros r Hr.
  apply in_map_iff in Hr as [[r0 v] [<- Hin]]. apply in_combine_l in Hin.
  simpl. rewrite set_cell_other by exact Hcd. now apply HP.
Qed.

Lemma set_column_scalar_preserves (P : pyval -> Prop) (df : DataFrame) (c d : string)
    (v : pyval) :
  c <> d ->
  Forall (fun r => P (cell r d)) (rows df) ->
  Forall (fun r => P (cell r d)) (rows (set_column_scalar df c v)).
Proof.
  intros Hcd HP. simpl. rewrite Forall_forall in *. intros r Hr.
  apply in_map_iff in Hr as [r0 [<- Hin]].
  rewrite set_cell_other by exact Hcd. now apply HP.
Qed.

Lemma get_confidence_preserves (P : pyval -> Prop) (points : DataFrame)
    (thresh : pyfloat) df (d : string) :
  get_confidence points thresh = Ok df -> "z" <> d ->
  Forall (fun r => P (cell r d)) (rows points) ->
  Forall (fun r => P (cell r d)) (rows df).
Proof.
  unfold get_confidence. destruct (nrows points =? 1)%nat.
  - intros [= <-]. apply set_column_scalar_preserves.
  - intros H Hd HP. eapply set_column_preserves; eassumption.
Qed.

Lemma clustering_preserves (P : pyval -> Prop) (results : DataFrame) (epsilon : Q)
    (clustered : DataFrame) (d : string) :
  clustering results epsilon = Ok (Some clustered) -> "clusters" <> d ->
  Forall (fun r => P (cell r d)) (rows results) ->
  Forall (fun r => P (cell r d)) (rows clustered).
Proof.
  unfold clustering. destruct (1 <? nrows results)%nat; [|now intros [= <-]].
  intros H. apply rbind_inv in H as [df [Hc H]].
  apply rbind_inv in H as [target [_ H]].
  destruct (negb _); [discriminate H|]. injection H as <-.
  unfold get_cluster in Hc. apply rbind_inv in Hc as [labels [_ Hc]].
  intros Hd HP. eapply set_column_preserves; eassumption.
Qed.

(** With a postal code, the rows that leave the scoring all carry it,
    in normal form. *)
Lemma scoring_postal (S : services) (table : DataFrame) (s : string) (results : DataFrame) :
  scoring S table (PyStr s) = Ok results ->
  Forall (fun r => cell r "postalCode" = PyStr (upper S (add_missing_space (lstrip s))))
         (rows results).
Proof.
  unfold scoring. cbn [normalize_postalcode rbind]. intros H.
  apply rbind_inv in H as [cells [_ H]].
  apply rbind_inv in H as [normalized [_ H]].
  apply rbind_inv in H as [df [_ H]]. cbv zeta in H.
  set (pc := upper S (add_missing_space (lstrip s))) in *.
  assert (Hf : Forall (fun r => cell r "postalCode" = PyStr pc)
                 (rows (select_rows
                          (fun r => py_eqb (cell r "postalCode") (PyStr pc)) df))).
  { apply Forall_forall. intros r Hr. simpl in Hr. apply filter_In in Hr as [_ Hr].
    now apply py_eqb_str. }
  destruct (1 <? nrows _)%nat.
  - apply (get_confidence_preserves (fun v => v = PyStr pc) _ _ _ "postalCode" H);
      [discriminate | exact Hf].
  - injection H as <-.
    apply (set_column_scalar_preserves (fun v => v = PyStr pc) _ "z" "postalCode");
      [discriminate | exact Hf].
Qed.

(** X13. With a postal code, the postal code of an output list is the
    caller's, in normal form: a candidate with another postal code is
    never returned, however well its name matches. *)
Theorem output_has_the_postal_code (S : services) (client : es_client)
    (namestring : option string) (s : string)
    (boundaries : option boundaries_arg) (polygon : option (list point))
    (DiagnosticDictionary : option (list (string * string))) (epsilon : Q)
    (w w' : world) (out : list outval) :
  WB_Match S client namestring (PyStr s) boundaries polygon
           DiagnosticDictionary epsilon w = (Ok (Some out), w') ->
  nth_error out 5 = Some (Scalar (PyStr (upper S (add_missing_space (lstrip s))))).
Proof.
  intros H.
  apply WB_Match_inv in H as (table & results & clustered & _ & Hs & Hc & Hf).
  pose proof (clustering_preserves
                (fun v => v = PyStr (upper S (add_missing_space (lstrip s))))
                _ _ _ "postalCode" Hc ltac:(discriminate)
                (scoring_postal _ _ _ _ Hs)) as Hpc.
  apply finalizing_inv in Hf as (r & rs & name & extra & Hsel & _ & Hout).
  cbv zeta in Hout. destruct Hout as [_ ->].
  assert (Hin : In r (rows clustered)).
  { apply (proj1 (filter_In (is_top clustered) r (rows clustered))).
    rewrite Hsel. now left. }
  rewrite Forall_forall in Hpc. simpl. now rewrite (Hpc r Hin).
Qed.

Lemma output_has_the_postal_code_witness :
  nth_error
    [Scalar (PyStr "a"); Scalar (PyStr "Sole Postal Code");
     Scalar (PyStr "St. Andrew's Church"); Scalar (PyStr "");
     Scalar (PyStr "Halifax"); Scalar (PyStr "A1A 1A1");
     Scalar (PyStr "Anglican"); Scalar (PyInt 100); Scalar (PyInt 100)] 5
  = Some (Scalar (PyStr (upper plain_services
                           (add_missing_space (lstrip " a1a1a1"))))).
Proof.
  apply (output_has_the_postal_code plain_services (index_of far_apart)
           (Some "St. Andrew's Church") " a1a1a1" None None None 4 world0
           (mkWorld [ParamsCenter "St. Andrew's Church" (NaN, NaN)] [] 0)).
  reflexivity.
Defined.

Lemma rmapM_all {A B} (f : A -> result B) (P : B -> Prop) (l : list A) :
  (forall x, In x l -> exists v, f x = Ok v /\ P v) ->
  exists vs, rmapM f l = Ok vs /\ Forall P vs /\ List.length vs = List.length l.
Proof.
  induction l as [|x l IH]; intros H; simpl.
  - exists []. auto.
  - destruct (H x) as (v & -> & Hv); [now left|].
    destruct IH as (vs & -> & Hvs & Hlen); [intros y Hy; apply H; now right|].
    exists (v :: vs). simpl. auto.
Qed.

Lemma filter_none {A} (p : A -> bool) (l : list A) :
  (forall x, In x l -> p x = false) -> filter p l = [].
Proof.
  induction l as [|x l IH]; intros H; simpl; [reflexivity|].
  rewrite (H x) by now left. apply IH. intros y Hy. apply H. now right.
Qed.

(** X14. With a postal code that no candidate of the retrieved table
    has, [WB_Match] returns nothing, whatever the scores. *)
Theorem no_candidate_with_the_postal_code (S : services) (client : es_client)
    (namestring : option string) (s : string)
    (boundaries : option boundaries_arg) (polygon : option (list point))
    (DiagnosticDictionary : option (list (string * string))) (epsilon : Q)
    (w w' : world) (table : DataFrame) :
  query_attempts 3 (ES_Query S client namestring (PyStr s) boundaries polygon) w
    = (Ok (Some (Frame table)), w') ->
  has_column table "postalCode" = true ->
  (forall r, In r (rows table) ->
     exists v, normalize_postalcode S (cell r "postalCode") = Ok v /\
               v <> PyStr (upper S (add_missing_space (lstrip s)))) ->
  WB_Match S client namestring (PyStr s) boundaries polygon
           DiagnosticDictionary epsilon w = (Ok None, w').
Proof.
  intros Hq Hcol Hrows. rewrite (WB_Match_table _ _ _ _ _ _ _ _ _ _ _ Hq).
  set (pc := upper S (add_missing_space (lstrip s))) in *.
  unfold resolve, scoring. cbn [normalize_postalcode rbind]. fold pc.
  unfold getitem. rewrite Hcol. cbn [rbind].
  destruct (rmapM_all (normalize_postalcode S) (fun v => v <> PyStr pc)
              (map (fun r => cell r "postalCode") (rows table)))
    as (normalized & -> & Hne & Hlen).
  { intros x Hx. apply in_map_iff in Hx as (r & <- & Hr). now apply Hrows. }
  cbn [rbind]. rewrite length_map in Hlen.
  unfold set_column. fold (nrows table) in Hlen. rewrite Hlen, Nat.eqb_refl.
  cbn [rbind]. cbv zeta.
  assert (Hempty : select_rows (fun r => py_eqb (cell r "postalCode") (PyStr pc))
                     (mkFrame (add_column "postalCode" (columns table))
                        (map (fun rv => set_cell "postalCode" (snd rv) (fst rv))
                             (combine (rows table) normalized)))
                   = mkFrame (add_column "postalCode" (columns table)) []).
  { unfold select_rows. simpl. f_equal. apply filter_none. intros r Hr.
    apply in_map_iff in Hr as [[r0 v] [<- Hin]]. apply in_combine_r in Hin.
    simpl. rewrite set_cell_same.
    destruct (py_eqb v (PyStr pc)) eqn:E; [|reflexivity].
    apply py_eqb_str in E. rewrite Forall_forall in Hne. now destruct (Hne v Hin). }
  rewrite Hempty. reflexivity.
Qed.

Lemma no_candidate_with_the_postal_code_witness :
  WB_Match plain_services (index_of far_apart) (Some "St. Andrew's Church")
           (PyStr "k1a0b1") None None None 4 world0
  = (Ok None, mkWorld [ParamsCenter "St. Andrew's Church" (NaN, NaN)] [] 0).
Proof.
  apply (no_candidate_with_the_postal_code plain_services (index_of far_apart)
           (Some "St. Andrew's Church") "k1a0b1" None None None 4 world0 _
           (frame_of_hits far_apart)).
  - reflexivity.
  - reflexivity.
  - intros r [<-|[<-|[]]]; eexists; (split; [reflexivity | discriminate]).
Defined.

(** ** The confidence of two candidates *)

Lemma variance_pair (a b : Q) :
  variance [a; b] == ((a - b) / 2) * ((a - b) / 2).
Proof. unfold variance, mean, Qsum, Qlen. simpl. field. Qed.

Lemma mean_pair (a b : Q) : mean [a; b] == (a + b) / 2.
Proof. unfold mean, Qsum, Qlen. simpl. field. Qed.

Lemma std_pair (a b : Q) : std [a; b] = Rabs (Q2R ((a - b) / 2)).
Proof.
  unfold std. rewrite (Qeq_eqR _ _ (variance_pair a b)), Q2R_mult.
  apply sqrt_Rsqr_abs.
Qed.

Lemma Q2R_nonzero (q : Q) : ~ q == 0 -> Q2R q <> 0%R.
Proof.
  intros H E. apply H. apply eqR_Qeq. rewrite E. unfold Q2R. simpl. lra.
Qed.

Lemma unit_zscore (x : R) : x <> 0%R -> Rabs (x / Rabs x) = 1%R.
Proof.
  intros H. unfold Rdiv. rewrite Rabs_mult, Rabs_inv, Rabs_Rabsolu.
  apply Rinv_r. now apply Rabs_no_R0.
Qed.

(** The confidence of a z-score of absolute value 1. *)
Lemma confidence_of_unit (x : R) :
  Rabs x = 1%R -> confidence_of (Fin x) = PyFloat (Fin (1 / 3.5 * 100)).
Proof.
  intros H. unfold confidence_of, thresh_default. simpl.
  rewrite Rzero_false by lra. now rewrite H.
Qed.

(** The z-scores of two different scores are 1 and -1 in absolute
    value. *)
Lemma zscore_pair (a b : Q) :
  ~ a == b ->
  map confidence_of (zscore [a; b])
  = [PyFloat (Fin (1 / 3.5 * 100)); PyFloat (Fin (1 / 3.5 * 100))].
Proof.
  intros Hab.
  assert (Hh : Q2R ((a - b) / 2) <> 0%R).
  { apply Q2R_nonzero. intros E. apply Hab.
    setoid_replace a with (b + 2 * ((a - b) / 2)) by field. rewrite E. ring. }
  assert (Hs : Rabs (Q2R ((a - b) / 2)) <> 0%R) by now apply Rabs_no_R0.
  unfold zscore. rewrite std_pair. cbn [map].
  assert (Ea : Q2R (a - mean [a; b]) = Q2R ((a - b) / 2)).
  { apply Qeq_eqR. rewrite mean_pair. field. }
  assert (Eb : Q2R (b - mean [a; b]) = (- Q2R ((a - b) / 2))%R).
  { rewrite <- Q2R_opp. apply Qeq_eqR. rewrite mean_pair. field. }
  unfold float_of_Q, fdiv. rewrite Ea, Eb, (Rzero_false _ Hs).
  f_equal; [|f_equal]; apply confidence_of_unit.
  - now apply unit_zscore.
  - unfold Rdiv. rewrite <- Ropp_mult_distr_l, Rabs_Ropp. now apply unit_zscore.
Qed.

(** X15. With exactly two candidates of different scores, the
    statistical confidence says nothing: both candidates get the same
    value, 100/3.5, whatever their scores. *)
Theorem two_candidates_same_confidence (points : DataFrame) (a b : Q) :
  scores points = [a; b] -> ~ a == b ->
  exists df, get_confidence points thresh_default = Ok df /\
             z_column df = [PyFloat (Fin (1 / 3.5 * 100));
                            PyFloat (Fin (1 / 3.5 * 100))].
Proof.
  intros Hs Hab.
  destruct (get_confidence_total points thresh_default) as [df Hdf].
  exists df. split; [exact Hdf|].
  unfold get_confidence in Hdf.
  assert (Hn : nrows points = 2%nat) by now rewrite nrows_scores, Hs.
  rewrite Hn in Hdf. cbn [Nat.eqb] in Hdf.
  apply getitem_set_column, getitem_rows in Hdf.
  unfold z_column. rewrite Hdf, Hs. now apply zscore_pair.
Qed.

Lemma two_candidates_same_confidence_witness :
  exists df, get_confidence (frame_of_hits far_apart) thresh_default = Ok df /\
             z_column df = [PyFloat (Fin (1 / 3.5 * 100));
                            PyFloat (Fin (1 / 3.5 * 100))].
Proof.
  apply (two_candidates_same_confidence (frame_of_hits far_apart) 10 90).
  - reflexivity.
  - intros H. apply Qeq_bool_iff in H. discriminate H.
Defined.

(** ** How large a confidence can be *)

Lemma Qlen_nonneg (l : list Q) : 0 <= Qlen l.
Proof. unfold Qlen, Qle. simpl. lia. Qed.

Lemma Qsum_app (l1 l2 : list Q) : Qsum (l1 ++ l2) == Qsum l1 + Qsum l2.
Proof.
  induction l1 as [|y l1 IH]; simpl.
  - change (Qsum l2 == 0 + Qsum l2). ring.
  - change (y + Qsum (l1 ++ l2) == y + Qsum l1 + Qsum l2). rewrite IH. ring.
Qed.

Lemma Qlen_app (l1 l2 : list Q) : Qlen (l1 ++ l2) == Qlen l1 + Qlen l2.
Proof.
  unfold Qlen. rewrite length_app, Nat2Z.inj_add. now rewrite inject_Z_plus.
Qed.

(** The squares of the distances of [a] to the points of [l]. *)
Lemma sum_of_square_distances (a : Q) (l : list Q) :
  Qsum (map (fun d => (a - d) * (a - d)) l)
  == Qlen l * (a * a) - 2 * a * Qsum l + Qsum (map (fun d => d * d) l).
Proof.
  induction l as [|y l IH].
  - unfold Qlen. simpl. ring.
  - cbn [map].
    change (Qsum ((a - y) * (a - y) :: map (fun d => (a - d) * (a - d)) l))
      with ((a - y) * (a - y) + Qsum (map (fun d => (a - d) * (a - d)) l)).
    change (Qsum (y * y :: map (fun d => d * d) l))
      with (y * y + Qsum (map (fun d => d * d) l)).
    change (Qsum (y :: l)) with (y + Qsum l).
    rewrite IH, Qlen_cons. ring.
Qed.

(** The square of a sum of [n] numbers is at most [n] times the sum of
    their squares. *)
Lemma square_of_sum (l : list Q) :
  Qsum l * Qsum l <= Qlen l * Qsum (map (fun d => d * d) l).
Proof.
  induction l as [|y l IH].
  - unfold Qlen. simpl. apply Qle_refl.
  - cbn [map].
    change (Qsum (y * y :: map (fun d => d * d) l))
      with (y * y + Qsum (map (fun d => d * d) l)).
    change (Qsum (y :: l)) with (y + Qsum l).
    rewrite Qlen_cons.
    assert (Hd : 0 <= Qsum (map (fun d => (y - d) * (y - d)) l)).
    { apply Qsum_nonneg, Forall_map, Forall_forall. intros d _.
      apply Qsquare_nonneg. }
    rewrite sum_of_square_distances in Hd.
    set (s := Qsum l) in *. set (q := Qsum (map (fun d => d * d) l)) in *.
    set (k := Qlen l) in *.
    nra.
Qed.

(** Among numbers of sum zero, the square of one is at most the sum of
    the squares of the others, times their number. *)
Lemma square_of_one_deviation (D : list Q) (d : Q) :
  Qsum D == 0 -> In d D ->
  Qlen D * (d * d) <= (Qlen D - 1) * Qsum (map (fun x => x * x) D).
Proof.
  intros Hsum Hin. apply in_split in Hin as (D1 & D2 & ->).
  pose proof (square_of_sum (D1 ++ D2)) as Hcs.
  rewrite map_app. cbn [map].
  rewrite Qsum_app in Hsum.
  change (Qsum (d :: D2)) with (d + Qsum D2) in Hsum.
  rewrite !Qsum_app.
  change (Qsum (d * d :: map (fun x => x * x) D2))
    with (d * d + Qsum (map (fun x => x * x) D2)).
  rewrite Qlen_app, Qlen_cons.
  rewrite Qsum_app, map_app, Qsum_app, Qlen_app in Hcs.
  set (s1 := Qsum D1) in *. set (s2 := Qsum D2) in *.
  set (q1 := Qsum (map (fun x => x * x) D1)) in *.
  set (q2 := Qsum (map (fun x => x * x) D2)) in *.
  set (k1 := Qlen D1) in *. set (k2 := Qlen D2) in *.
  assert (Hd : d * d == (s1 + s2) * (s1 + s2)).
  { setoid_replace d with (- (s1 + s2)) by lra. ring. }
  nra.
Qed.

Lemma Qsum_deviations (l : list Q) :
  l <> [] -> Qsum (map (fun y => y - mean l) l) == 0.
Proof.
  intros Hne. pose proof (Qlen_nonzero l Hne) as Hn.
  assert (H : forall m, Qsum (map (fun y => y - m) l) == Qsum l - Qlen l * m).
  { intros m. clear. induction l as [|y l IH].
    - unfold Qlen. simpl. ring.
    - cbn [map].
      change (Qsum (y - m :: map (fun y => y - m) l))
        with (y - m + Qsum (map (fun y => y - m) l)).
      change (Qsum (y :: l)) with (y + Qsum l).
      rewrite IH, Qlen_cons. ring. }
  rewrite H. unfold mean. field. exact Hn.
Qed.

(** No score is further from the mean than the standard deviation times
    the square root of the number of the others. *)
Lemma deviation_le_variance (l : list Q) (x : Q) :
  In x l ->
  (x - mean l) * (x - mean l) <= (Qlen l - 1) * variance l.
Proof.
  intros Hin.
  assert (Hne : l <> []) by (intros ->; destruct Hin).
  pose proof (Qlen_nonzero l Hne) as Hn.
  pose proof (Qlen_nonneg l) as Hn0.
  pose proof (square_of_one_deviation (map (fun y => y - mean l) l) (x - mean l)
                (Qsum_deviations l Hne)
                (in_map (fun y => y - mean l) l x Hin)) as H.
  rewrite map_map in H.
  assert (Hlen : Qlen (map (fun y => y - mean l) l) == Qlen l).
  { unfold Qlen. now rewrite length_map. }
  rewrite Hlen in H. unfold variance. cbv zeta.
  set (q := Qsum (map (fun x0 => (x0 - mean l) * (x0 - mean l)) l)) in *.
  set (d := (x - mean l) * (x - mean l)) in *.
  set (n := Qlen l) in *.
  assert (Hpos : 0 < n) by lra.
  setoid_replace ((n - 1) * (q / n)) with ((n - 1) * q / n) by (field; exact Hn).
  apply Qle_shift_div_l; [exact Hpos|]. rewrite Qmult_comm. exact H.
Qed.

Lemma Q2R_Qlen (l : list Q) : Q2R (Qlen l) = INR (List.length l).
Proof.
  unfold Qlen, Q2R. simpl. rewrite INR_IZR_INZ. field.
Qed.

Lemma confidence_of_deviation (l : list Q) (x : Q) :
  In x l -> ~ Forall (fun y => y == mean l) l ->
  exists c,
    confidence_of (fdiv (float_of_Q (x - mean l)) (Fin (std l))) = PyFloat (Fin c) /\
    (0 <= c)%R /\
    (c * c <= (INR (List.length l) - 1) * (100 / 3.5) * (100 / 3.5))%R.
Proof.
  intros Hin Hdiff.
  assert (Hne : l <> []) by (intros ->; destruct Hin).
  pose proof (std_positive l Hne Hdiff) as Hsd.
  pose proof (deviation_le_variance l x Hin) as Hdev.
  apply Qle_Rle in Hdev.
  rewrite !Q2R_mult, (Q2R_minus (Qlen l)), Q2R_Qlen in Hdev.
  replace (Q2R 1) with 1%R in Hdev by (unfold Q2R; simpl; lra).
  assert (Hv : (std l * std l = Q2R (variance l))%R).
  { unfold std. apply sqrt_sqrt.
    pose proof (Qle_Rle _ _ (variance_nonneg l)) as H.
    unfold Q2R at 1 in H. simpl in H. lra. }
  rewrite <- Hv in Hdev.
  set (d := Q2R (x - mean l)) in *. set (sd := std l) in *.
  set (n := INR (List.length l)) in *.
  exists (Rabs (d / sd) / 3.5 * 100)%R.
  split.
  { unfold confidence_of, thresh_default, float_of_Q, fdiv. fold d. fold sd.
    rewrite Rzero_false by lra. simpl. rewrite Rzero_false by lra. reflexivity. }
  pose proof (Rabs_pos (d / sd)) as Habs.
  split; [lra|].
  assert (Hsq : (Rabs (d / sd) * Rabs (d / sd) = d * d / (sd * sd))%R).
  { rewrite <- Rabs_mult, Rabs_pos_eq by nra. field. lra. }
  assert (Hle : (d * d / (sd * sd) <= n - 1)%R).
  { apply Rmult_le_reg_r with (sd * sd)%R; [nra|].
    unfold Rdiv. rewrite Rmult_assoc, Rinv_l by nra. lra. }
  replace (Rabs (d / sd) / 3.5 * 100 * (Rabs (d / sd) / 3.5 * 100))%R
    with (Rabs (d / sd) * Rabs (d / sd) * ((100 / 3.5) * (100 / 3.5)))%R by lra.
  rewrite Hsq. nra.
Qed.

(** X16. When the scores are not all the same, every confidence is a
    number between 0 and 100/3.5 times the square root of the number of
    the other candidates: with 13 candidates or fewer, no confidence
    reaches 100. *)
Theorem confidence_is_bounded (points df : DataFrame) :
  get_confidence points thresh_default = Ok df ->
  ~ Forall (fun y => y == mean (scores points)) (scores points) ->
  Forall (fun v => exists c,
            v = PyFloat (Fin c) /\ (0 <= c)%R /\
            (c * c <= (INR (nrows points) - 1) * (100 / 3.5) * (100 / 3.5))%R /\
            ((nrows points <= 13)%nat -> (c < 100)%R))
         (z_column df).
Proof.
  intros Hdf Hdiff. unfold get_confidence in Hdf.
  destruct (Nat.eqb_spec (nrows points) 1) as [E|E].
  { exfalso. apply Hdiff. rewrite nrows_scores in E.
    destruct (scores points) as [|y [|y' l]]; try discriminate E.
    constructor; [|constructor]. unfold mean, Qsum, Qlen. simpl. field. }
  apply getitem_set_column, getitem_rows in Hdf.
  unfold z_column. rewrite Hdf. unfold zscore. rewrite map_map.
  apply Forall_map, Forall_forall. intros x Hin.
  destruct (confidence_of_deviation _ x Hin Hdiff) as (c & Hc & Hpos & Hsq).
  exists c. rewrite <- nrows_scores in Hsq.
  split; [exact Hc|]. split; [exact Hpos|]. split; [exact Hsq|].
  intros Hn. apply le_INR in Hn.
  replace (INR 13) with 13%R in Hn by (simpl; lra).
  nra.
Qed.

Lemma confidence_is_bounded_witness :
  Forall (fun v => exists c,
            v = PyFloat (Fin c) /\ (0 <= c)%R /\
            (c * c <= (INR (nrows (frame_of_hits far_apart)) - 1)
                      * (100 / 3.5) * (100 / 3.5))%R /\
            ((nrows (frame_of_hits far_apart) <= 13)%nat -> (c < 100)%R))
         (z_column
            match get_confidence (frame_of_hits far_apart) thresh_default with
            | Ok df => df
            | Raise _ => frame_of_hits far_apart
            end).
Proof.
  apply (confidence_is_bounded (frame_of_hits far_apart)).
  - reflexivity.
  - intros H. apply Forall_inv in H. apply Qeq_bool_iff in H. discriminate H.
Defined.

(** ** The diagnostic values of an output list *)

Lemma diagnostic_loop_inv comparisons (entries : list (string * string))
    (extra : list outval) :
  diagnostic_loop comparisons entries = Ok extra ->
  List.length extra = List.length entries /\
  forall i k v, nth_error entries i = Some (k, v) ->
    (v = "" -> nth_error extra i = Some (Scalar (PyStr ""))) /\
    (v <> "" -> exists c, assoc k comparisons = Some c /\
                          nth_error extra i = Some (compare_with c v)).
Proof.
  revert extra. induction entries as [|[k0 v0] entries IH]; intros extra H; simpl in H.
  - injection H as <-. split; [reflexivity|]. intros [|i] k v E; discriminate E.
  - apply rbind_inv in H as (o & Ho & H). apply rbind_inv in H as (os & Hos & H).
    injection H as <-. destruct (IH os Hos) as [Hlen Hnth].
    split; [simpl; now rewrite Hlen|].
    intros [|i] k v E; simpl in E.
    + injection E as -> ->. simpl. split.
      * intros ->. simpl in Ho. now injection Ho as <-.
      * intros Hv. apply String.eqb_neq in Hv. rewrite Hv in Ho. simpl in Ho.
        destruct (assoc k comparisons) as [c|]; [|discriminate Ho].
        injection Ho as <-. eauto.
    + simpl. now apply Hnth.
Qed.

Lemma ComparisonDictionary_values (df : DataFrame) (DENOM PC : string) comparisons :
  ComparisonDictionary df DENOM PC = Ok comparisons ->
  assoc "DenomBool" comparisons = Some (CompareValue DENOM) /\
  assoc "PostBool" comparisons = Some (CompareValue PC).
Proof.
  unfold ComparisonDictionary. intros H.
  do 6 (apply rbind_inv in H as [? [_ H]]).
  injection H as <-. split; reflexivity.
Qed.

(** X17. An output list has nine fields followed by one value per key
    of the dictionary, in the order of the keys.  A key with the empty
    string gives the empty string; [DenomBool] and [PostBool] with a
    value tell whether it is the denomination (field 6) and the postal
    code (field 5) of the same list. *)
Theorem diagnostic_values (S : services) (client : es_client)
    (namestring : option string) (postcode : pyval)
    (boundaries : option boundaries_arg) (polygon : option (list point))
    (entries : list (string * string)) (epsilon : Q)
    (w w' : world) (out : list outval) :
  WB_Match S client namestring postcode boundaries polygon (Some entries)
           epsilon w = (Ok (Some out), w') ->
  List.length out = (9 + List.length entries)%nat /\
  exists PC DENOM,
    nth_error out 5 = Some (Scalar (PyStr PC)) /\
    nth_error out 6 = Some (Scalar (PyStr DENOM)) /\
    forall i k v, nth_error entries i = Some (k, v) ->
      (v = "" -> nth_error out (9 + i) = Some (Scalar (PyStr ""))) /\
      (v <> "" -> k = "DenomBool" ->
       nth_error out (9 + i) = Some (Scalar (PyBool (String.eqb DENOM v)))) /\
      (v <> "" -> k = "PostBool" ->
       nth_error out (9 + i) = Some (Scalar (PyBool (String.eqb PC v)))).
Proof.
  intros H.
  apply WB_Match_inv in H as (table & results & clustered & _ & _ & _ & Hf).
  apply finalizing_inv in Hf as (r & rs & name & extra & _ & _ & Hout).
  cbv zeta in Hout. destruct Hout as [Hd ->].
  cbn [diagnostics] in Hd. apply rbind_inv in Hd as (comparisons & Hcd & Hloop).
  destruct (ComparisonDictionary_values _ _ _ _ Hcd) as [Hdenom Hpost].
  destruct (diagnostic_loop_inv _ _ _ Hloop) as [Hlen Hnth].
  split; [rewrite length_app, Hlen; reflexivity|].
  do 2 eexists. split; [reflexivity|]. split; [reflexivity|].
  intros i k v E. destruct (Hnth i k v E) as [Hempty Hvalue].
  assert (Hshift : forall l : list outval, List.length l = 9%nat ->
            nth_error (l ++ extra)%list (9 + i) = nth_error extra i).
  { intros l Hl. rewrite nth_error_app2 by lia. f_equal. lia. }
  rewrite Hshift by reflexivity.
  split; [exact Hempty|]. split.
  - intros Hv ->. destruct (Hvalue Hv) as (c & Hc & ->).
    rewrite Hdenom in Hc. now injection Hc as <-.
  - intros Hv ->. destruct (Hvalue Hv) as (c & Hc & ->).
    rewrite Hpost in Hc. now injection Hc as <-.
Qed.

Lemma diagnostic_values_witness :
  let out :=
    [Scalar (PyStr "p"); Scalar (PyStr "Sole Return Before Clustering");
     Scalar (PyStr "Holy Cross Parish"); Scalar (PyStr "");
     Scalar (PyStr "Ottawa"); Scalar (PyStr "K1A 0B1");
     Scalar (PyStr "Catholic"); Scalar (PyInt 100); Scalar (PyInt 100);
     Scalar (PyBool true); Scalar (PyStr ""); BoolSeries [false]] in
  let entries := [("DenomBool", "Catholic"); ("PostBool", ""); ("FaithBool", "Muslim")] in
  List.length out = (9 + List.length entries)%nat /\
  exists PC DENOM,
    nth_error out 5 = Some (Scalar (PyStr PC)) /\
    nth_error out 6 = Some (Scalar (PyStr DENOM)) /\
    forall i k v, nth_error entries i = Some (k, v) ->
      (v = "" -> nth_error out (9 + i) = Some (Scalar (PyStr ""))) /\
      (v <> "" -> k = "DenomBool" ->
       nth_error out (9 + i) = Some (Scalar (PyBool (String.eqb DENOM v)))) /\
      (v <> "" -> k = "PostBool" ->
       nth_error out (9 + i) = Some (Scalar (PyBool (String.eqb PC v)))).
Proof.
  cbv zeta.
  apply (diagnostic_values plain_services (index_of [parish "p" 42])
           (Some "Holy Cross Parish") PyNone None None
           [("DenomBool", "Catholic"); ("PostBool", ""); ("FaithBool", "Muslim")]
           4 world0 (mkWorld [ParamsKeywords "Holy Cross Parish"] [] 0)).
  reflexivity.
Defined.

(** ** The table of a query *)

Lemma candidate_table_inv (hs : list hit) (df : DataFrame) :
  candidate_table hs = Ok (Frame df) ->
  hs <> [] /\
  map r_id (rows df) = map hit_id hs /\
  scores df = map hit_score hs /\
  has_column df "alsoKnownAs" = true.
Proof.
  unfold candidate_table.
  destruct hs as [|h hs]; [discriminate|].
  simpl List.length. simpl Nat.eqb. cbv iota.
  destruct (has_column (frame_of_hits (h :: hs)) "alsoKnownAs") eqn:E;
    simpl negb; cbv iota.
  - intros [= <-]. split; [discriminate|].
    split; [unfold frame_of_hits; cbn [rows]; now rewrite map_map|].
    split; [unfold scores, frame_of_hits; cbn [rows]; now rewrite map_map|].
    exact E.
  - intros H. apply rbind_inv in H as (df' & Hset & [= <-]).
    apply set_column_inv in Hset as [Hlen ->].
    unfold nrows, frame_of_hits in Hlen. simpl in Hlen. rewrite length_map in Hlen.
    destruct hs; [|discriminate Hlen].
    split; [discriminate|].
    unfold has_column. simpl columns. rewrite add_column_has.
    repeat split.
Qed.

Lemma ES_Query_inv (S : services) (client : es_client)
    (namestring : option string) (postcode : pyval)
    (boundaries : option boundaries_arg) (polygon : option (list point))
    (w w' : world) (df : DataFrame) :
  ES_Query S client namestring postcode boundaries polygon w = (Ok (Frame df), w') ->
  exists p hs, es_log w' = (es_log w ++ [p])%list /\
               client (List.length (es_log w)) p = Hits hs /\
               candidate_table hs = Ok (Frame df).
Proof.
  unfold ES_Query. destruct namestring as [keywords|]; [|discriminate].
  unfold bind at 1, lift at 1.
  destruct (normalize_postalcode S postcode) as [pc|e]; [|discriminate].
  unfold bind at 1, lift at 1.
  destruct (get_geocode S pc) as [center|e]; [|discriminate].
  assert (Hst : forall p w1,
            bind (search_template client p) (fun results => lift (candidate_table results)) w1
            = (Ok (Frame df), w') ->
            exists hs, es_log w' = (es_log w1 ++ [p])%list /\
                       client (List.length (es_log w1)) p = Hits hs /\
                       candidate_table hs = Ok (Frame df)).
  { intros p w1. unfold bind, search_template, lift.
    destruct (client _ p) as [hs|e]; [|discriminate].
    intros [= H <-]. eauto. }
  destruct polygon as [poly|].
  { intros H. eexists. exact (Hst _ _ H). }
  destruct boundaries as [b|].
  2:{ destruct center; intros H; eexists; exact (Hst _ _ H). }
  unfold bind at 1 2.
  destruct (resolve_boundaries S b w) as [[bx|e] w1] eqn:Eb; [|discriminate].
  intros H.
  assert (Hlog : es_log w1 = es_log w).
  { destruct b; simpl in Eb; try (now apply get_bounds_es_log in Eb).
    now injection Eb as _ <-. }
  rewrite <- Hlog. eexists. apply (Hst _ w1). unfold bind. exact H.
Qed.

(** X18. A table returned by [ES_Query] comes from one answer of the
    index with at least one hit; it has one row per hit, in the order of
    the answer, with the hit's id and score, and its column
    [alsoKnownAs] can always be read. *)
Theorem returned_table_keeps_the_hits (S : services) (client : es_client)
    (namestring : option string) (postcode : pyval)
    (boundaries : option boundaries_arg) (polygon : option (list point))
    (w w' : world) (df : DataFrame) :
  ES_Query S client namestring postcode boundaries polygon w = (Ok (Frame df), w') ->
  exists p hs,
    client (List.length (es_log w)) p = Hits hs /\
    hs <> [] /\
    map r_id (rows df) = map hit_id hs /\
    scores df = map hit_score hs /\
    exists aka, getitem df "alsoKnownAs" = Ok aka.
Proof.
  intros H. apply ES_Query_inv in H as (p & hs & _ & Hc & Ht).
  apply candidate_table_inv in Ht as (Hne & Hid & Hsc & Hcol).
  exists p, hs. repeat (split; [assumption|]).
  unfold getitem. rewrite Hcol. eauto.
Qed.

Lemma returned_table_keeps_the_hits_witness :
  exists p hs,
    index_of far_apart (List.length (es_log world0)) p = Hits hs /\
    hs <> [] /\
    map r_id (rows (frame_of_hits far_apart)) = map hit_id hs /\
    scores (frame_of_hits far_apart) = map hit_score hs /\
    exists aka, getitem (frame_of_hits far_apart) "alsoKnownAs" = Ok aka.
Proof.
  apply (returned_table_keeps_the_hits plain_services (index_of far_apart)
           (Some "St. Andrew's Church") PyNone None None world0
           (mkWorld [ParamsKeywords "St. Andrew's Church"] [] 0)).
  reflexivity.
Defined.

(** ** The fields a result needs *)

Lemma frame_of_hits_column (c : string) (hs : list hit) :
  c <> "score" ->
  has_column (frame_of_hits hs) c
  = existsb (fun h => existsb (String.eqb c) (map fst (hit_source h))) hs.
Proof.
  intros Hc. unfold has_column, frame_of_hits. cbn [columns existsb].
  apply String.eqb_neq in Hc. rewrite Hc. cbn [orb].
  now rewrite existsb_dedup, existsb_flat_map.
Qed.

Lemma candidate_table_column (hs : list hit) (df : DataFrame) (c : string) :
  candidate_table hs = Ok (Frame df) ->
  c <> "score" -> c <> "alsoKnownAs" ->
  has_column df c = true ->
  exists h, In h hs /\ In c (map fst (hit_source h)).
Proof.
  unfold candidate_table. intros H Hscore Haka Hcol.
  destruct (List.length hs =? 0)%nat; [discriminate H|].
  assert (Hframe : has_column (frame_of_hits hs) c = true).
  { destruct (negb (has_column (frame_of_hits hs) "alsoKnownAs")).
    - apply rbind_inv in H as (df' & Hset & [= <-]).
      rewrite <- (set_column_other _ _ c _ _ Hset); [exact Hcol | congruence].
    - now injection H as <-. }
  rewrite frame_of_hits_column in Hframe by exact Hscore.
  apply existsb_exists in Hframe as (h & Hin & Hh).
  apply existsb_exists in Hh as (c' & Hin' & Hc'). apply String.eqb_eq in Hc'.
  subst c'. eauto.
Qed.

Lemma finalizing_columns (S : services) (namestring : option string)
    (DiagnosticDictionary : option (list (string * string)))
    (results : DataFrame) (out : list outval) (c : string) :
  finalizing S namestring DiagnosticDictionary results = Ok (Some out) ->
  In c ["name"; "locality"; "postalCode"; "tags.denomination"] ->
  has_column results c = true.
Proof.
  unfold finalizing. destruct (nrows results =? 0)%nat; [discriminate|].
  cbv zeta. intros H Hin.
  apply rbind_inv in H as [CONF [_ H]].
  apply rbind_inv in H as [NAME [H1 H]]. apply getattr_inv in H1 as [Hname _].
  apply rbind_inv in H as [ALSO [_ H]].
  apply rbind_inv in H as [LOC [H1 H]]. apply getattr_inv in H1 as [Hloc _].
  apply rbind_inv in H as [PC [H1 H]]. apply getattr_inv in H1 as [Hpc _].
  apply rbind_inv in H as [DENOM [H1 _]]. apply getitem_inv in H1 as [Hdenom _].
  unfold has_column in *. cbn [columns select_rows] in *.
  destruct Hin as [<-|[<-|[<-|[<-|[]]]]]; assumption.
Qed.

Lemma scoring_postal_column (S : services) (table : DataFrame) (postcode : pyval)
    (results : DataFrame) :
  scoring S table postcode = Ok results ->
  has_column results "postalCode" = true ->
  has_column table "postalCode" = true.
Proof.
  unfold scoring. intros H Hcol. apply rbind_inv in H as [pc [_ H]].
  assert (Hnone : get_confidence table thresh_default = Ok results ->
                  has_column table "postalCode" = true).
  { intros Hc. rewrite <- (get_confidence_other _ _ _ "postalCode" Hc); [exact Hcol|].
    discriminate. }
  assert (Hsome :
    rbind (getitem table "postalCode") (fun cells =>
    rbind (rmapM (normalize_postalcode S) cells) (fun normalized =>
    rbind (set_column table "postalCode" normalized) (fun results =>
    let results :=
      select_rows (fun r => py_eqb (cell r "postalCode") pc) results in
    if (1 <? nrows results)%nat
    then get_confidence results thresh_default
    else Ok (set_column_scalar results "z" (PyStr "Sole Postal Code")))))
    = Ok results -> has_column table "postalCode" = true).
  { intros Hs. apply rbind_inv in Hs as [cells [Hg _]].
    now apply getitem_inv in Hg as [Hg _]. }
  destruct pc; auto.
Qed.

(** The attempt that returned, and the requests of the attempts that
    failed before it. *)
Lemma query_attempts_last (p : es_params) (q : M es_result) :
  (forall w r w', q w = (r, w') ->
     es_log w' = es_log w \/ es_log w' = (es_log w ++ [p])%list) ->
  forall n w r w', query_attempts n q w = (Ok (Some r), w') ->
    exists w1 k, q w1 = (Ok r, w') /\ es_log w1 = (es_log w ++ repeat p k)%list.
Proof.
  intros Hq. induction n as [|n IH]; intros w r w' H; simpl in H; [discriminate H|].
  destruct (q w) as [[a|e] w1] eqn:E.
  - injection H as <- <-. exists w, 0%nat. split; [exact E|].
    simpl. now rewrite app_nil_r.
  - destruct e; try discriminate H.
    apply IH in H as (w2 & k & Hw2 & Hlog). exists w2.
    destruct (Hq _ _ _ E) as [E1 | E1]; rewrite E1 in Hlog.
    + exists k. auto.
    + exists (Datatypes.S k). split; [exact Hw2|].
      rewrite Hlog, <- app_assoc. reflexivity.
Qed.

(** X19. A result needs an answer of the index in which some hit has a
    name, some hit a locality, some hit a postal code and some hit a
    denomination.  The answer is that of the run: the one the index
    gave to the last request of [WB_Match], sent after [k] failed
    attempts. *)
Theorem result_needs_the_fields (S : services) (client : es_client)
    (namestring : option string) (postcode : pyval)
    (boundaries : option boundaries_arg) (polygon : option (list point))
    (DiagnosticDictionary : option (list (string * string))) (epsilon : Q)
    (w w' : world) (out : list outval) :
  WB_Match S client namestring postcode boundaries polygon
           DiagnosticDictionary epsilon w = (Ok (Some out), w') ->
  exists k p hs,
    es_log w' = (es_log w ++ repeat p k ++ [p])%list /\
    client (List.length (es_log w) + k)%nat p = Hits hs /\
    forall c, In c ["name"; "locality"; "postalCode"; "tags.denomination"] ->
      exists h, In h hs /\ In c (map fst (hit_source h)).
Proof.
  intros H.
  apply WB_Match_inv in H as (table & results & clustered & Hq & Hs & Hc & Hf).
  destruct (ES_Query_request S client namestring postcode boundaries polygon)
    as [p0 Hp0].
  apply (query_attempts_last p0 _ Hp0) in Hq as (w1 & k & Hq & Hlog).
  pose proof (Hp0 _ _ _ Hq) as Hlast.
  apply ES_Query_inv in Hq as (p & hs & Hw' & Hclient & Htable).
  assert (Hp : p = p0).
  { destruct Hlast as [E | E]; rewrite Hw' in E.
    - apply (f_equal (@List.length es_params)) in E.
      rewrite length_app in E. simpl in E. lia.
    - apply app_inv_head in E. now injection E. }
  subst p0. exists k, p, hs.
  split; [now rewrite Hw', Hlog, <- app_assoc|].
  split.
  { rewrite Hlog, length_app, repeat_length in Hclient. exact Hclient. }
  intros c Hin.
  pose proof (finalizing_columns _ _ _ _ _ c Hf Hin) as Hcol.
  assert (Hnames : c <> "score" /\ c <> "alsoKnownAs" /\ "clusters" <> c /\
                   ("z" <> c /\ "postalCode" <> c \/ c = "postalCode")).
  { destruct Hin as [<-|[<-|[<-|[<-|[]]]]];
      (repeat split; try discriminate); (left; split; discriminate) || now right. }
  destruct Hnames as (Hscore & Haka & Hcl & Hrest).
  rewrite (clustering_other _ _ _ c Hc Hcl) in Hcol.
  apply (candidate_table_column hs table c Htable Hscore Haka).
  destruct Hrest as [[Hz Hp] | ->].
  - now rewrite <- (scoring_other _ _ _ _ c Hs Hz Hp).
  - now apply (scoring_postal_column _ _ _ _ Hs).
Qed.

Lemma result_needs_the_fields_witness :
  exists k p hs,
    es_log (mkWorld [ParamsKeywords "Holy Cross Parish";
                     ParamsKeywords "Holy Cross Parish"] [] 0)
    = (es_log world0 ++ repeat p k ++ [p])%list /\
    index_flaky [parish "p" 42] (List.length (es_log world0) + k)%nat p = Hits hs /\
    forall c, In c ["name"; "locality"; "postalCode"; "tags.denomination"] ->
      exists h, In h hs /\ In c (map fst (hit_source h)).
Proof.
  refine (result_needs_the_fields plain_services (index_flaky [parish "p" 42])
            (Some "Holy Cross Parish") PyNone None None None 4 world0
            (mkWorld [ParamsKeywords "Holy Cross Parish";
                      ParamsKeywords "Holy Cross Parish"] [] 0) _ _).
  reflexivity.
Defined.

(** ** Boundaries before the postal code *)

(** X20. Without a polygon, boundaries take priority over the postal
    code: the one request carries the two corners of the resolved box
    and their midpoint, whatever the postal code. *)
Theorem boundaries_before_postcode (S : services) (client : es_client)
    (keywords : string) (postcode : pyval) (b : boundaries_arg)
    (w w1 w' : world) (box : bbox) (r : result es_result) :
  (forall e, normalize_postalcode S postcode <> Raise e) ->
  resolve_boundaries S b w = (Ok box, w1) ->
  ES_Query S client (Some keywords) postcode (Some b) None w = (r, w') ->
  w' = mkWorld
         (es_log w ++
          [ParamsBounds keywords (fst box) (snd box)
             (midpoint (fst box) (snd box))])
         (geo_log w1) (slept w1).
Proof.
  intros Hpc Hb. unfold ES_Query, bind at 1 2, lift at 1 2.
  destruct (normalize_postalcode S postcode) as [pc|e] eqn:E; [|now destruct (Hpc e)].
  destruct (geocode_after_normalize S _ _ E) as [center ->].
  assert (Hlog : es_log w1 = es_log w).
  { destruct b; simpl in Hb; try (now apply get_bounds_es_log in Hb).
    now injection Hb as _ <-. }
  unfold bind at 1 2. rewrite Hb.
  destruct (search_template client _ w1) as [[hs|e] w2] eqn:Es;
    apply search_template_log in Es; unfold lift; intros [= _ <-];
    rewrite Es, Hlog; reflexivity.
Qed.

Lemma boundaries_before_postcode_witness :
  snd (ES_Query halifax_services (index_of far_apart) (Some "St. Andrew's Church")
         (PyStr "k1a0b1") (Some (BoundsText "12 Main St,  Halifax, NS")) None world0)
  = mkWorld
      (es_log world0 ++
       [ParamsBounds "St. Andrew's Church"
          (fst ((Fin (-63.8), Fin 44.8), (Fin (-63.4), Fin 44.5)))
          (snd ((Fin (-63.8), Fin 44.8), (Fin (-63.4), Fin 44.5)))
          (midpoint (fst ((Fin (-63.8), Fin 44.8), (Fin (-63.4), Fin 44.5)))
                    (snd ((Fin (-63.8), Fin 44.8), (Fin (-63.4), Fin 44.5))))])
      (geo_log (mkWorld [] [QText "12 Main St,  Halifax, NS"; QText "Halifax, NS"] 1))
      (slept (mkWorld [] [QText "12 Main St,  Halifax, NS"; QText "Halifax, NS"] 1)).
Proof.
  refine (boundaries_before_postcode halifax_services (index_of far_apart)
            "St. Andrew's Church" (PyStr "k1a0b1")
            (BoundsText "12 Main St,  Halifax, NS") world0 _ _ _ _ _ _ _).
  - discriminate.
  - reflexivity.
  - apply surjective_pairing.
Defined.

(** * Properties of the GraphQL client *)

Lemma gbind_inv {A B} (c : GraphQL.G A) (k : A -> GraphQL.G B) w b w' :
  GraphQL.gbind c k w = (Ok b, w') ->
  exists a w1, c w = (Ok a, w1) /\ k a w1 = (Ok b, w').
Proof.
  unfold GraphQL.gbind. destruct (c w) as [[a|e] w1]; [eauto | discriminate].
Qed.

Lemma requests_post_inv {table} (L : GraphQL.libraries table) p w text w1 :
  GraphQL.requests_post L p w = (Ok text, w1) ->
  GraphQL.post L (List.length (GraphQL.posted w)) p = Ok text /\
  w1 = GraphQL.mkWeb (GraphQL.posted w ++ [p]) (GraphQL.printed w).
Proof. unfold GraphQL.requests_post. now intros [= -> <-]. Qed.

(** X21. A result of [listingsearch] takes a non-empty [near] and
    exactly two posts: the first asks for the viewport of [near], with
    the two arguments as variables; the second asks for the listings,
    with the same two variables and, as [viewport], the bounds read in
    the first answer.  The three variables are printed once. *)
Theorem listing_result_takes_two_posts {table} (L : GraphQL.libraries table)
    (keywords near : string) (w w' : GraphQL.web) (t : table) :
  GraphQL.listingsearch L keywords near w = (Ok t, w') ->
  let vars := [("keywords", GraphQL.JStr keywords); ("near", GraphQL.JStr near)] in
  let first := GraphQL.mkPayload GraphQL.SearchViewportQuery_keywords_near vars in
  near <> "" /\
  exists text bounds,
    GraphQL.post L (List.length (GraphQL.posted w)) first = Ok text /\
    GraphQL.bounds_of L text = Ok bounds /\
    w' = GraphQL.mkWeb
           (GraphQL.posted w ++
            [first;
             GraphQL.mkPayload GraphQL.SearchQuery
               (vars ++ [("viewport", bounds)])])%list
           (GraphQL.printed w ++ [vars ++ [("viewport", bounds)]])%list.
Proof.
  intros H. cbv zeta. unfold GraphQL.listingsearch in H.
  destruct (String.eqb_spec near "") as [->|Hnear]; [discriminate H|].
  split; [exact Hnear|].
  simpl negb in H. cbv iota in H.
  apply gbind_inv in H as (q & w0 & [= <- <-] & H).
  apply gbind_inv in H as (text & w1 & Hpost & H).
  apply requests_post_inv in Hpost as [Hpost ->].
  apply gbind_inv in H as (bounds & w2 & [= Hb <-] & H).
  apply gbind_inv in H as ([] & w3 & [= <-] & H).
  apply gbind_inv in H as (text2 & w4 & Hpost2 & H).
  apply requests_post_inv in Hpost2 as [_ ->].
  apply gbind_inv in H as (edges & w5 & [= _ <-] & H).
  injection H as _ <-.
  exists text, bounds. split; [exact Hpost|]. split; [exact Hb|].
  simpl. now rewrite <- app_assoc.
Qed.

Lemma listing_result_takes_two_posts_witness :
  "Halifax" <> "" /\
  exists text bounds,
    GraphQL.post
      (GraphQL.sample_libraries (GraphQL.JArray [GraphQL.JInt 1; GraphQL.JInt 2])
         (GraphQL.JArray [GraphQL.JObject [("node", GraphQL.JObject [])]]))
      (List.length (GraphQL.posted (GraphQL.mkWeb [] [])))
      (GraphQL.mkPayload GraphQL.SearchViewportQuery_keywords_near
         [("keywords", GraphQL.JStr "chapel"); ("near", GraphQL.JStr "Halifax")])
    = Ok text /\
    GraphQL.bounds_of
      (GraphQL.sample_libraries (GraphQL.JArray [GraphQL.JInt 1; GraphQL.JInt 2])
         (GraphQL.JArray [GraphQL.JObject [("node", GraphQL.JObject [])]]))
      text = Ok bounds /\
    snd (GraphQL.listingsearch
           (GraphQL.sample_libraries (GraphQL.JArray [GraphQL.JInt 1; GraphQL.JInt 2])
              (GraphQL.JArray [GraphQL.JObject [("node", GraphQL.JObject [])]]))
           "chapel" "Halifax" (GraphQL.mkWeb [] []))
    = GraphQL.mkWeb
        (GraphQL.posted (GraphQL.mkWeb [] []) ++
         [GraphQL.mkPayload GraphQL.SearchViewportQuery_keywords_near
            [("keywords", GraphQL.JStr "chapel"); ("near", GraphQL.JStr "Halifax")];
          GraphQL.mkPayload GraphQL.SearchQuery
            ([("keywords", GraphQL.JStr "chapel"); ("near", GraphQL.JStr "Halifax")]
             ++ [("viewport", bounds)])])%list
        (GraphQL.printed (GraphQL.mkWeb [] []) ++
         [[("keywords", GraphQL.JStr "chapel"); ("near", GraphQL.JStr "Halifax")]
          ++ [("viewport", bounds)]])%list.
Proof.
  apply (listing_result_takes_two_posts
           (GraphQL.sample_libraries (GraphQL.JArray [GraphQL.JInt 1; GraphQL.JInt 2])
              (GraphQL.JArray [GraphQL.JObject [("node", GraphQL.JObject [])]]))
           "chapel" "Halifax" (GraphQL.mkWeb [] []) _
           (GraphQL.JArray [GraphQL.JObject [("node", GraphQL.JObject [])]])).
  reflexivity.
Defined.

(** X22. [listingsearch] posts something unless [near] is the empty
    string, its default; with an empty [near] it raises
    [UnboundLocalError] at once, whatever the keywords. *)
Theorem listing_search_needs_near {table} (L : GraphQL.libraries table)
    (keywords near : string) (w w' : GraphQL.web) (r : result table) :
  GraphQL.listingsearch L keywords near w = (r, w') ->
  (GraphQL.posted w' = GraphQL.posted w <-> near = "") /\
  (near = "" -> r = Raise (UnboundLocalError "locquery") /\ w' = w).
Proof.
  intros H. unfold GraphQL.listingsearch in H.
  destruct (String.eqb_spec near "") as [->|Hnear].
  - injection H as <- <-. repeat split.
  - simpl negb in H. cbv iota in H.
    assert (Hlen : (List.length (GraphQL.posted w) < List.length (GraphQL.posted w'))%nat).
    { unfold GraphQL.gbind at 1 2 in H. unfold GraphQL.gret at 1 in H.
      unfold GraphQL.requests_post at 1 in H.
      destruct (GraphQL.post L _ _) as [text|e].
      2:{ injection H as _ <-. simpl. rewrite length_app. simpl. lia. }
      unfold GraphQL.gbind at 1, GraphQL.glift at 1 in H.
      destruct (GraphQL.bounds_of L text) as [bounds|e].
      2:{ injection H as _ <-. simpl. rewrite length_app. simpl. lia. }
      unfold GraphQL.gbind at 1 2, GraphQL.print, GraphQL.requests_post in H.
      cbn [GraphQL.posted GraphQL.printed] in H.
      destruct (GraphQL.post L _ _) as [text2|e].
      2:{ injection H as _ <-. simpl. rewrite !length_app. simpl. lia. }
      unfold GraphQL.gbind, GraphQL.glift in H.
      destruct (GraphQL.edges_of L text2) as [edges|e];
        injection H as _ <-; simpl; rewrite !length_app; simpl; lia. }
    split; [|intros E; contradiction].
    split; [intros E; rewrite E in Hlen; lia | intros E; contradiction].
Qed.

Lemma listing_search_needs_near_witness :
  (GraphQL.posted (GraphQL.mkWeb [] []) = GraphQL.posted (GraphQL.mkWeb [] [])
   <-> "" = "") /\
  ("" = "" -> @Raise GraphQL.json (UnboundLocalError "locquery")
              = Raise (UnboundLocalError "locquery")
              /\ GraphQL.mkWeb [] [] = GraphQL.mkWeb [] []).
Proof.
  apply (listing_search_needs_near
           (GraphQL.sample_libraries GraphQL.JNull (GraphQL.JArray []))
           "chapel" "" (GraphQL.mkWeb [] []) (GraphQL.mkWeb [] [])
           (Raise (UnboundLocalError "locquery"))).
  reflexivity.
Defined.

(** X23. A search that finds no listing does not return an empty
    table: when the second answer has an empty list of edges,
    [listingsearch] raises [KeyError] for the column [node], after its
    two posts. *)
Theorem no_listing_raises_key_error {table} (L : GraphQL.libraries table)
    (keywords near : string) (w : GraphQL.web) (text text' : string)
    (bounds : GraphQL.json) :
  let vars := [("keywords", GraphQL.JStr keywords); ("near", GraphQL.JStr near)] in
  let first := GraphQL.mkPayload GraphQL.SearchViewportQuery_keywords_near vars in
  let second := GraphQL.mkPayload GraphQL.SearchQuery
                  (vars ++ [("viewport", bounds)])%list in
  near <> "" ->
  GraphQL.post L (List.length (GraphQL.posted w)) first = Ok text ->
  GraphQL.bounds_of L text = Ok bounds ->
  GraphQL.post L (Datatypes.S (List.length (GraphQL.posted w))) second = Ok text' ->
  GraphQL.edges_of L text' = Ok (GraphQL.JArray []) ->
  GraphQL.listingsearch L keywords near w
  = (Raise (KeyError "node"),
     GraphQL.mkWeb (GraphQL.posted w ++ [first; second])%list
                   (GraphQL.printed w ++ [vars ++ [("viewport", bounds)]])%list).
Proof.
  cbv zeta. intros Hnear H1 Hb H2 He. unfold GraphQL.listingsearch.
  apply String.eqb_neq in Hnear. rewrite Hnear. simpl negb. cbv iota.
  unfold GraphQL.gbind at 1 2. unfold GraphQL.gret at 1.
  unfold GraphQL.requests_post at 1. rewrite H1.
  unfold GraphQL.gbind at 1, GraphQL.glift at 1. rewrite Hb.
  unfold GraphQL.gbind at 1 2, GraphQL.print, GraphQL.requests_post.
  cbn [GraphQL.posted GraphQL.printed].
  rewrite length_app. simpl List.length. rewrite Nat.add_1_r.
  simpl app in H2. simpl app. rewrite H2.
  unfold GraphQL.gbind, GraphQL.glift. rewrite He. simpl.
  now rewrite <- app_assoc.
Qed.

Lemma no_listing_raises_key_error_witness :
  GraphQL.listingsearch
    (GraphQL.sample_libraries (GraphQL.JArray [GraphQL.JInt 1; GraphQL.JInt 2])
       (GraphQL.JArray []))
    "chapel" "Halifax" (GraphQL.mkWeb [] [])
  = (Raise (KeyError "node"),
     GraphQL.mkWeb
       ([] ++
        [GraphQL.mkPayload GraphQL.SearchViewportQuery_keywords_near
           [("keywords", GraphQL.JStr "chapel"); ("near", GraphQL.JStr "Halifax")];
         GraphQL.mkPayload GraphQL.SearchQuery
           ([("keywords", GraphQL.JStr "chapel"); ("near", GraphQL.JStr "Halifax")]
            ++ [("viewport", GraphQL.JArray [GraphQL.JInt 1; GraphQL.JInt 2])])])%list
       ([] ++
        [[("keywords", GraphQL.JStr "chapel"); ("near", GraphQL.JStr "Halifax")]
         ++ [("viewport", GraphQL.JArray [GraphQL.JInt 1; GraphQL.JInt 2])]])%list).
Proof.
  apply (no_listing_raises_key_error
           (GraphQL.sample_libraries (GraphQL.JArray [GraphQL.JInt 1; GraphQL.JInt 2])
              (GraphQL.JArray []))
           "chapel" "Halifax" (GraphQL.mkWeb [] []) "viewport" "listings"
           (GraphQL.JArray [GraphQL.JInt 1; GraphQL.JInt 2]));
    [discriminate | reflexivity | reflexivity | reflexivity | reflexivity].
Defined.
